(** * Stock Keeper: the item store of [app/db/database.js] and the
      quantity routes of [app/routes/items.js]

    The development embeds the SQL statements of [database.js], the
    constraints of [schema.sql] they run against, and the form routes of
    [items.js] that call them, and states the behaviour of the store as
    theorems about these definitions.

    Conventions of the embedding.
    - A calendar date (the text [YYYY-MM-DD] held in a [DATE] column, or
      produced by SQLite's [date()]) is its day number, an integer; text
      comparison of two such dates is comparison of the day numbers, and
      the modifier ['+3 days'] adds 3.
    - The clock is read in milliseconds counted from midnight of day 0, so
      that [julianday(d) - julianday('now','localtime')] is the exact
      quotient [(d * 86400000 - now) / 86400000]. Day 0 is 1 January 1970,
      which matters only where SQLite's range of dates does.
    - A text is the string of the bytes of its UTF-8 encoding.
    - A [REAL] column and a finite JavaScript number are rationals ([Q]);
      [NaN] is kept apart where the source tests for it.
    - SQL [NULL] and JavaScript [undefined]/[null] are [None].
    - Tables are lists of rows in rowid order. *)

From Stdlib Require Import ZArith QArith Qminmax Qabs Lqa Lia Bool List.
From Stdlib Require Import Ascii String Sorted Permutation OrderedTypeEx.
Import ListNotations.

Local Open Scope string_scope.
Local Open Scope list_scope.
Local Open Scope Z_scope.

(** ** JavaScript values as the routes and the data layer use them *)
Module JS.

(** The result of [parseFloat], or a numeric property of an object. *)
Inductive number := NaN | Num (q : Q).

(** Truthiness ([ToBoolean]) per type of value. *)
Definition truthy_number (n : number) : bool :=
  match n with NaN => false | Num q => negb (Qeq_bool q 0) end.
Definition truthy_int (z : Z) : bool := negb (z =? 0).
Definition truthy_string (s : string) : bool := negb (s =? "")%string.
Definition truthy_date (d : Z) : bool := true.

(** [v || d] with a default of the same type. *)
Definition or_else {A} (truthy : A -> bool) (v : option A) (d : A) : A :=
  match v with
  | Some a => if truthy a then a else d
  | None => d
  end.

(** [v || null]. *)
Definition or_null {A} (truthy : A -> bool) (v : option A) : option A :=
  match v with
  | Some a => if truthy a then Some a else None
  | None => None
  end.

(** [n || d] for a number that may be missing. *)
Definition number_or (n : option number) (d : Q) : Q :=
  match n with
  | Some (Num q) => if truthy_number (Num q) then q else d
  | Some NaN | None => d
  end.

(** [Math.max(a, b)] on finite numbers. *)
Definition Math_max (a b : Q) : Q := if Qle_bool a b then b else a.

(** What [item.quantity] can be when [createItem] or [updateItem] reads
    it: a number, as the forms give it after [parseFloat], or a text, which
    the JSON body of a bulk update can hold in its place. Of a text the
    code looks only whether it is empty ([||]); SQLite, which gives the
    column [quantity] the affinity REAL, then stores a text that reads as
    a number as that number. [Text None] is the empty text and
    [Text (Some q)] a text that reads as [q], as ["0"] reads as 0. (A
    text that does not read as a number would be kept as text; [quantity]
    has its declared type REAL here, so such a text is not among these
    values.) *)
Inductive numeric := Number (n : number) | Text (reads_as : option Q).

(** [v || d] as the REAL column stores it. *)
Definition numeric_or (v : option numeric) (d : Q) : Q :=
  match v with
  | Some (Number n) => number_or (Some n) d
  | Some (Text (Some q)) => q
  | Some (Text None) | None => d
  end.

End JS.

(** ** SQL expressions: three-valued logic, [LIKE], [CASE] *)
Module Sql.

(** The value of a boolean expression; [None] is [NULL]. *)
Definition tri := option bool.

Definition and3 (a b : tri) : tri :=
  match a, b with
  | Some false, _ | _, Some false => Some false
  | Some true, Some true => Some true
  | _, _ => None
  end.

Definition or3 (a b : tri) : tri :=
  match a, b with
  | Some true, _ | _, Some true => Some true
  | Some false, Some false => Some false
  | _, _ => None
  end.

(** A binary comparison is [NULL] as soon as one operand is. *)
Definition cmp {A} (f : A -> A -> bool) (a b : option A) : tri :=
  match a, b with
  | Some x, Some y => Some (f x y)
  | _, _ => None
  end.

Definition is_null {A} (a : option A) : tri :=
  match a with None => Some true | Some _ => Some false end.
Definition is_not_null {A} (a : option A) : tri :=
  match a with None => Some false | Some _ => Some true end.

(** A [WHERE] clause keeps a row, and a [WHEN] branch is taken, only when
    the condition is true ([NULL] counts as not true). *)
Definition holds (c : tri) : bool :=
  match c with Some true => true | _ => false end.

(** [date(x)] of a date column. *)
Definition date (d : option Z) : option Z := d.

(** [LIKE], as SQLite's [patternCompare] decides it without [ESCAPE].
    Both texts are read as C strings, up to their first NUL byte, and
    character by character as [sqlite3Utf8Read] reads UTF-8: a byte from
    [0xC0] on opens a character that takes in every continuation byte
    ([10xxxxxx]) after it, any other byte is a character of its own.  [%]
    matches any run of characters, [_] one character, anything else
    itself, up to the case of ASCII letters.  (The texts are well-formed
    UTF-8, as every text that JavaScript hands to sql.js is.) *)
Definition byte (c : ascii) : Z := Z.of_N (N_of_ascii c).

Fixpoint c_string (s : string) : list Z :=
  match s with
  | EmptyString => []
  | String c s' => if byte c =? 0 then [] else byte c :: c_string s'
  end.

(** [sqlite3Utf8Trans1[b - 0xc0]]: the payload bits of a lead byte. *)
Definition lead_bits (b : Z) : Z :=
  if b <? 0xE0 then Z.land b 0x1F
  else if b <? 0xF0 then Z.land b 0x0F
  else if b <? 0xF8 then Z.land b 0x07
  else if b <? 0xFC then Z.land b 0x03
  else if b <? 0xFE then Z.land b 0x01
  else 0.

(** The value of a character of several bytes, once it is complete:
    [0xFFFD] in place of an overlong form, a surrogate, [0xFFFE] or
    [0xFFFF]. *)
Definition complete (c : Z) : Z :=
  if (c <? 0x80)
     || (Z.land c 0xFFFFF800 =? 0xD800)
     || (Z.land c 0xFFFFFFFE =? 0xFFFE)
  then 0xFFFD else c.

Definition is_continuation (b : Z) : bool := Z.land b 0xC0 =? 0x80.

(** The characters of a run of bytes; [pending] is the value gathered so
    far of a character whose lead byte was read, in 32 bits. *)
Fixpoint characters (pending : option Z) (bytes : list Z) : list Z :=
  match bytes with
  | [] =>
      match pending with
      | Some c => [complete c]
      | None => []
      end
  | b :: rest =>
      match pending with
      | Some c =>
          if is_continuation b
          then characters
                 (Some ((Z.shiftl c 6 + Z.land 0x3F b) mod 4294967296)) rest
          else complete c
               :: (if 0xC0 <=? b
                   then characters (Some (lead_bits b)) rest
                   else b :: characters None rest)
      | None =>
          if 0xC0 <=? b
          then characters (Some (lead_bits b)) rest
          else b :: characters None rest
      end
  end.

(** [sqlite3Tolower] on a character below [0x80]. *)
Definition fold_case (c : Z) : Z :=
  if (65 <=? c) && (c <=? 90) then c + 32 else c.

Definition same_character (p c : Z) : bool :=
  (p =? c)
  || ((p <? 0x80) && (c <? 0x80) && (fold_case p =? fold_case c)).

Fixpoint like_characters (pat : list Z) : list Z -> bool :=
  match pat with
  | [] => fun s => match s with [] => true | _ :: _ => false end
  | p :: pat' =>
      if p =? 37 then
        fix star (s : list Z) : bool :=
          like_characters pat' s
          || match s with [] => false | _ :: s' => star s' end
      else if p =? 95 then
        fun s =>
          match s with [] => false | _ :: s' => like_characters pat' s' end
      else
        fun s =>
          match s with
          | [] => false
          | c :: s' => same_character p c && like_characters pat' s'
          end
  end.

Definition like_match (pat s : string) : bool :=
  like_characters (characters None (c_string pat))
    (characters None (c_string s)).

(** [x LIKE pat] on a nullable column. *)
Definition like (x : option string) (pat : string) : tri :=
  match x with Some s => Some (like_match pat s) | None => None end.

End Sql.

(** ** Rows of [schema.sql] *)

Module Location.
Record t := mk {
  id : Z;
  name : string;
  type : string;
  icon : option string;
  color : option string;
  sort_order : option Z;
  is_visible : option Z
}.
End Location.

Module Item.
Record t := mk {
  id : Z;
  title : string;
  description : option string;
  category : string;
  location : option string;
  location_id : option Z;
  brand : option string;
  is_homemade : option Z;
  quantity : Q;
  unit : string;
  date_added : Z;
  expiry_date : option Z;
  image_path : option string;
  created_at : Z;
  updated_at : Z
}.

Definition set_quantity (q : Q) (i : t) : t :=
  mk (id i) (title i) (description i) (category i) (location i)
     (location_id i) (brand i) (is_homemade i) q (unit i) (date_added i)
     (expiry_date i) (image_path i) (created_at i) (updated_at i).

Definition set_updated_at (ts : Z) (i : t) : t :=
  mk (id i) (title i) (description i) (category i) (location i)
     (location_id i) (brand i) (is_homemade i) (quantity i) (unit i)
     (date_added i) (expiry_date i) (image_path i) (created_at i) ts.
End Item.

Module Consumption.
(** [item_id] is declared [INTEGER NOT NULL]; the field is nullable here
    so that the value the [ON DELETE SET NULL] action writes can be
    presented to that constraint. *)
Record t := mk {
  id : Z;
  item_id : option Z;
  item_title : string;
  quantity_used : Q;
  unit : string;
  action : string;
  notes : option string;
  consumed_at : Z
}.

Definition set_item_id (v : option Z) (c : t) : t :=
  mk (id c) v (item_title c) (quantity_used c) (unit c) (action c)
     (notes c) (consumed_at c).
End Consumption.

(** The store: the three tables the item operations touch, the
    [sqlite_sequence] counters of the two [AUTOINCREMENT] keys, and the
    state of the connection: its [last_insert_rowid()] and whether foreign
    keys are enforced. [initializeDatabase] switches the enforcement on
    ([PRAGMA foreign_keys = ON]); sql.js's [export()], which
    [saveDatabase] calls once something was written, reopens the
    connection, and a reopened connection has the pragma at SQLite's
    default, off. The operations are therefore defined for both states of
    the flag. *)
Record database := mkdb {
  locations : list Location.t;
  items : list Item.t;
  consumption_history : list Consumption.t;
  seq_items : Z;
  seq_consumption_history : Z;
  last_insert_rowid : Z;
  foreign_keys : bool
}.

(** The two clocks the code reads: SQLite's ['now','localtime'] and the
    UTC instant of [new Date()], both in milliseconds. *)
Record clock := mkclock { localtime : Z; utc : Z }.

Definition ms_per_day : Z := 86400000.

(** [date('now','localtime')] and [date('now','localtime','+N days')]. *)
Definition date_now_localtime (clk : clock) : option Z :=
  Some (localtime clk / ms_per_day).
Definition date_now_localtime_plus (clk : clock) (days : Z) : option Z :=
  Some (localtime clk / ms_per_day + days).

(** [datetime('now','localtime')], to the second. *)
Definition datetime_now_localtime (clk : clock) : Z := localtime clk / 1000.

(** [new Date().toISOString().split('T')[0]]. *)
Definition js_today_utc (clk : clock) : Z := utc clk / ms_per_day.

(** ** Exceptions and the results of [run] *)

(** What [db.run] can throw: sql.js refuses to bind [undefined]; SQLite
    rejects a statement that breaks a [NOT NULL] or [CHECK] constraint, or
    a foreign key while the connection enforces them. *)
Inductive exception :=
| WrongApiUse
| NotNullFailed (column : string)
| CheckFailed (column : string)
| ForeignKeyFailed.

Inductive outcome (A : Type) :=
| Returned (a : A)
| Thrown (e : exception).
Arguments Returned {A} a.
Arguments Thrown {A} e.

(** A computation over the store. A statement that throws leaves the store
    as it was; what earlier statements wrote stays written. *)
Definition M (A : Type) : Type := database -> outcome A * database.

Definition ret {A} (a : A) : M A := fun db => (Returned a, db).
Definition throw {A} (e : exception) : M A := fun db => (Thrown e, db).
Definition bind {A B} (m : M A) (k : A -> M B) : M B :=
  fun db =>
    match m db with
    | (Returned a, db') => k a db'
    | (Thrown e, db') => (Thrown e, db')
    end.

Notation "x <- m ;; k" := (bind m (fun x => k))
  (at level 61, m at next level, right associativity).
Notation "m ;;; k" := (bind m (fun _ => k))
  (at level 61, right associativity).

(** The object [run] returns. *)
Record run_result := mkrun { lastInsertRowid : Z; changes : Z }.

(** ** [database.js] *)
Module Database.

(** *** Reading items *)

(** The [filters] argument of [getItems]. [locationId] is the number the
    routes obtain with [parseInt]; a [NaN], like a missing property, is
    [None]. *)
Record filters := mkfilters {
  locationId : option Z;
  location : option string;
  category : option string;
  search : option string;
  expiryStatus : option string
}.

Definition no_filters : filters := mkfilters None None None None None.


(** [FROM items i LEFT JOIN locations l ON i.location_id = l.id]:
    the location joined to an item, if any ([locations.id] is a key). *)
Definition joined_location (db : database) (i : Item.t) : option Location.t :=
  match Item.location_id i with
  | Some lid => find (fun l => Location.id l =? lid) (locations db)
  | None => None
  end.

(** [CASE ... END as expiry_status], the same text in [getItems] and
    [getItemById]. *)
Definition expiry_status_case (clk : clock) (i : Item.t) : string :=
  let e := Item.expiry_date i in
  if Sql.holds (Sql.is_null e) then "none"
  else if Sql.holds (Sql.cmp Z.ltb (Sql.date e) (date_now_localtime clk))
  then "expired"
  else if Sql.holds (Sql.cmp Z.eqb (Sql.date e) (date_now_localtime clk))
  then "today"
  else if Sql.holds (Sql.cmp Z.leb (Sql.date e) (date_now_localtime_plus clk 3))
  then "soon"
  else "ok".

(** [julianday(i.expiry_date) - julianday('now', 'localtime')], in days:
    the date stands for its midnight, the clock keeps its time of day. *)
Definition julianday_until (e : Z) (clk : clock) : Q :=
  (inject_Z e - (localtime clk # 86400000))%Q.

(** [CAST(x AS INTEGER)] of a real: the fractional part is dropped. *)
Definition cast_integer (x : Q) : Z := Z.quot (Qnum x) (Z.pos (Qden x)).

(** [CASE ... END as days_until_expiry]. *)
Definition days_until_expiry_case (clk : clock) (i : Item.t) : option Z :=
  match Item.expiry_date i with
  | None => None
  | Some e => Some (cast_integer (julianday_until e clk))
  end.

(** A row of the result of [getItems] and [getItemById]: [i.*] and the
    joined and derived columns. *)
Record row := mkrow {
  item : Item.t;
  location_name : option string;
  location_icon : option string;
  location_type : option string;
  location_color : option string;
  expiry_status : string;
  days_until_expiry : option Z
}.

Definition select (db : database) (clk : clock) (i : Item.t) : row :=
  let l := joined_location db i in
  mkrow i
    (option_map Location.name l)
    (match l with Some l => Location.icon l | None => None end)
    (option_map Location.type l)
    (match l with Some l => Location.color l | None => None end)
    (expiry_status_case clk i)
    (days_until_expiry_case clk i).

(** The condition each [case] of the [switch] on [filters.expiryStatus]
    appends; any other text appends nothing. *)
Definition expiry_condition (s : string) (clk : clock)
  : list (Item.t -> Sql.tri) :=
  if (s =? "expired")%string then
    [fun i => Sql.and3 (Sql.is_not_null (Item.expiry_date i))
                (Sql.cmp Z.ltb (Sql.date (Item.expiry_date i))
                   (date_now_localtime clk))]
  else if (s =? "today")%string then
    [fun i => Sql.cmp Z.eqb (Sql.date (Item.expiry_date i))
                (date_now_localtime clk)]
  else if (s =? "soon")%string then
    [fun i => Sql.and3
                (Sql.and3 (Sql.is_not_null (Item.expiry_date i))
                   (Sql.cmp Z.ltb (date_now_localtime clk)
                      (Sql.date (Item.expiry_date i))))
                (Sql.cmp Z.leb (Sql.date (Item.expiry_date i))
                   (date_now_localtime_plus clk 3))]
  else if (s =? "ok")%string then
    [fun i => Sql.or3 (Sql.is_null (Item.expiry_date i))
                (Sql.cmp Z.ltb (date_now_localtime_plus clk 3)
                   (Sql.date (Item.expiry_date i)))]
  else [].

(** The conditions [getItems] appends to [WHERE 1=1], in order. *)
Definition conditions (f : filters) (db : database) (clk : clock)
  : list (Item.t -> Sql.tri) :=
  (match locationId f with
   | Some v =>
       if JS.truthy_int v
       then [fun i => Sql.cmp Z.eqb (Item.location_id i) (Some v)]
       else []
   | None => []
   end)
  ++ (match location f with
      | Some v =>
          if JS.truthy_string v
          then [fun i =>
                  Sql.or3
                    (Sql.cmp String.eqb (Item.location i) (Some v))
                    (Sql.cmp String.eqb
                       (option_map Location.type (joined_location db i))
                       (Some v))]
          else []
      | None => []
      end)
  ++ (match category f with
      | Some v =>
          if JS.truthy_string v
          then [fun i => Sql.cmp String.eqb (Some (Item.category i)) (Some v)]
          else []
      | None => []
      end)
  ++ (match search f with
      | Some v =>
          if JS.truthy_string v
          then
            let searchTerm := ("%" ++ v ++ "%")%string in
            [fun i =>
               Sql.or3
                 (Sql.or3 (Sql.like (Some (Item.title i)) searchTerm)
                    (Sql.like (Item.description i) searchTerm))
                 (Sql.like (Item.brand i) searchTerm)]
          else []
      | None => []
      end)
  ++ (match expiryStatus f with
      | Some s => if JS.truthy_string s then expiry_condition s clk else []
      | None => []
      end).

(** [WHERE 1=1 AND c1 AND c2 ...]. *)
Definition where_clause (conds : list (Item.t -> Sql.tri)) (i : Item.t)
  : Sql.tri :=
  fold_left (fun acc c => Sql.and3 acc (c i)) conds (Some true).

(** [ORDER BY CASE WHEN i.expiry_date IS NULL THEN 1 ELSE 0 END,
    i.expiry_date ASC, i.title ASC]. *)
Definition null_last (e : option Z) : Z :=
  match e with None => 1 | Some _ => 0 end.

Definition compare_nullable (a b : option Z) : comparison :=
  match a, b with
  | None, None => Eq
  | None, Some _ => Lt
  | Some _, None => Gt
  | Some x, Some y => Z.compare x y
  end.

Definition order_by (a b : Item.t) : comparison :=
  match Z.compare (null_last (Item.expiry_date a))
          (null_last (Item.expiry_date b)) with
  | Eq =>
      match compare_nullable (Item.expiry_date a) (Item.expiry_date b) with
      | Eq => String.compare (Item.title a) (Item.title b)
      | c => c
      end
  | c => c
  end.

Definition order_leb (a b : Item.t) : bool :=
  match order_by a b with Gt => false | _ => true end.

(** The sorter: rows with equal keys keep their rowid order. *)
Fixpoint insert_sorted (x : Item.t) (l : list Item.t) : list Item.t :=
  match l with
  | [] => [x]
  | y :: l' => if order_leb x y then x :: l else y :: insert_sorted x l'
  end.

Fixpoint sort (l : list Item.t) : list Item.t :=
  match l with
  | [] => []
  | x :: l' => insert_sorted x (sort l')
  end.

Definition getItems (f : filters) (db : database) (clk : clock) : list row :=
  map (select db clk)
    (sort (filter (fun i => Sql.holds (where_clause (conditions f db clk) i))
             (items db))).

(** [getItemById]: the first row of [WHERE i.id = ?], or [undefined]. *)
Definition getItemById (id : Z) (db : database) (clk : clock) : option row :=
  option_map (select db clk)
    (find (fun i => Item.id i =? id) (items db)).

(** *** Writing items *)

(** The rowid an [AUTOINCREMENT] key gives a new row: one more than the
    largest the table has ever held. *)
Definition next_rowid (seq : Z) (ids : list Z) : Z :=
  Z.max seq (fold_right Z.max 0 ids) + 1.

Definition units : list string := ["pcs"; "g"; "kg"; "ml"; "L"].
Definition actions : list string := ["used"; "discarded"; "expired"].

Definition mem_string (s : string) (l : list string) : bool :=
  existsb (String.eqb s) l.

(** The constraints of table [items] on a row about to be written:
    [CHECK(is_homemade IN (0, 1))], [CHECK(quantity >= 0)],
    [CHECK(unit IN (...))] and, when foreign keys are enforced, the
    foreign key on [location_id]. *)
Definition items_constraints (db : database) (r : Item.t) : option exception :=
  if negb (match Item.is_homemade r with
           | Some h => (h =? 0) || (h =? 1)
           | None => true
           end)
  then Some (CheckFailed "is_homemade")
  else if negb (Qle_bool 0 (Item.quantity r))
  then Some (CheckFailed "quantity")
  else if negb (mem_string (Item.unit r) units)
  then Some (CheckFailed "unit")
  else match Item.location_id r with
       | Some lid =>
           if negb (foreign_keys db)
              || existsb (fun l => Location.id l =? lid) (locations db)
           then None
           else Some ForeignKeyFailed
       | None => None
       end.

(** The parameters [createItem] and [updateItem] receive in [item]. *)
Record item_data := mkdata {
  d_title : option string;
  d_description : option string;
  d_category : option string;
  d_location : option string;
  d_location_id : option Z;
  d_brand : option string;
  d_is_homemade : bool;
  d_quantity : option JS.numeric;
  d_unit : option string;
  d_date_added : option Z;
  d_expiry_date : option Z;
  d_image_path : option string
}.

(** The values [createItem] binds to [INSERT INTO items (...) VALUES
    (?, ..., ?)], with the key and the timestamps the table supplies. *)
Definition insert_values (d : item_data) (clk : clock) (rowid : Z)
    (title : string) : Item.t :=
  Item.mk rowid
    title
    (Some (JS.or_else JS.truthy_string (d_description d) ""))
    (JS.or_else JS.truthy_string (d_category d) "Uncategorized")
    (JS.or_null JS.truthy_string (d_location d))
    (JS.or_null JS.truthy_int (d_location_id d))
    (if d_is_homemade d then None
     else JS.or_null JS.truthy_string (d_brand d))
    (Some (if d_is_homemade d then 1 else 0))
    (JS.numeric_or (d_quantity d) 1)
    (JS.or_else JS.truthy_string (d_unit d) "pcs")
    (JS.or_else JS.truthy_date (d_date_added d) (js_today_utc clk))
    (JS.or_null JS.truthy_date (d_expiry_date d))
    (JS.or_null JS.truthy_string (d_image_path d))
    (datetime_now_localtime clk)
    (datetime_now_localtime clk).

(** [createItem]; sql.js throws when asked to bind an [undefined] title. *)
Definition createItem (d : item_data) (clk : clock) : M run_result :=
  fun db =>
    match d_title d with
    | None => (Thrown WrongApiUse, db)
    | Some title =>
        let rowid := next_rowid (seq_items db) (map Item.id (items db)) in
        let r := insert_values d clk rowid title in
        match items_constraints db r with
        | Some e => (Thrown e, db)
        | None =>
            (Returned (mkrun rowid 1),
             mkdb (locations db) (items db ++ [r]) (consumption_history db)
               rowid (seq_consumption_history db) rowid (foreign_keys db))
        end
    end.

(** [UPDATE items SET ... WHERE id = ?] on the rows of a table: every row
    the [WHERE] selects is replaced; one that breaks a constraint aborts
    the statement. *)
Fixpoint update_rows (db : database) (id : Z) (set : Item.t -> Item.t)
    (rows : list Item.t) : outcome (list Item.t * Z) :=
  match rows with
  | [] => Returned ([], 0)
  | r :: rows' =>
      if Item.id r =? id then
        match items_constraints db (set r) with
        | Some e => Thrown e
        | None =>
            match update_rows db id set rows' with
            | Returned (rs, n) => Returned (set r :: rs, n + 1)
            | Thrown e => Thrown e
            end
        end
      else
        match update_rows db id set rows' with
        | Returned (rs, n) => Returned (r :: rs, n)
        | Thrown e => Thrown e
        end
  end.

Definition run_update (id : Z) (set : Item.t -> Item.t) : M run_result :=
  fun db =>
    match update_rows db id set (items db) with
    | Thrown e => (Thrown e, db)
    | Returned (rs, n) =>
        (Returned (mkrun (last_insert_rowid db) n),
         mkdb (locations db) rs (consumption_history db) (seq_items db)
           (seq_consumption_history db) (last_insert_rowid db)
           (foreign_keys db))
    end.

(** The values [updateItem] binds to [UPDATE items SET ...]:
    [image_path = COALESCE(?, image_path)], and [updated_at] as the trigger
    [update_item_timestamp] leaves it. *)
Definition update_values (d : item_data) (clk : clock) (title : string)
    (date_added : Z) (old : Item.t) : Item.t :=
  Item.mk (Item.id old)
    title
    (Some (JS.or_else JS.truthy_string (d_description d) ""))
    (JS.or_else JS.truthy_string (d_category d) "Uncategorized")
    (JS.or_null JS.truthy_string (d_location d))
    (JS.or_null JS.truthy_int (d_location_id d))
    (if d_is_homemade d then None
     else JS.or_null JS.truthy_string (d_brand d))
    (Some (if d_is_homemade d then 1 else 0))
    (JS.numeric_or (d_quantity d) 1)
    (JS.or_else JS.truthy_string (d_unit d) "pcs")
    date_added
    (JS.or_null JS.truthy_date (d_expiry_date d))
    (match JS.or_null JS.truthy_string (d_image_path d) with
     | Some p => Some p
     | None => Item.image_path old
     end)
    (Item.created_at old)
    (datetime_now_localtime clk).

(** [updateItem]; [title] and [date_added] are bound as they come. *)
Definition updateItem (id : Z) (d : item_data) (clk : clock) : M run_result :=
  match d_title d, d_date_added d with
  | Some title, Some date_added =>
      run_update id (update_values d clk title date_added)
  | _, _ => throw WrongApiUse
  end.

(** [updateItemQuantity]. *)
Definition updateItemQuantity (id : Z) (quantity : Q) (clk : clock)
  : M run_result :=
  run_update id
    (fun old =>
       Item.set_updated_at (datetime_now_localtime clk)
         (Item.set_quantity quantity old)).

(** [deleteItem]: [DELETE FROM items WHERE id = ?]. When foreign keys are
    enforced, the rows of [consumption_history] that reference a deleted
    item take the action [ON DELETE SET NULL] on [item_id], and the rows so
    rewritten must pass that column's [NOT NULL]; when they are not
    enforced, the history is not touched. *)
Definition references (id : Z) (c : Consumption.t) : bool :=
  match Consumption.item_id c with Some i => i =? id | None => false end.

Definition on_delete_set_null (id : Z) (c : Consumption.t) : Consumption.t :=
  if references id c then Consumption.set_item_id None c else c.

Definition item_id_not_null (c : Consumption.t) : bool :=
  match Consumption.item_id c with Some _ => true | None => false end.

Definition deleteItem (id : Z) : M run_result :=
  fun db =>
    let deleted := filter (fun i => Item.id i =? id) (items db) in
    let remaining := filter (fun i => negb (Item.id i =? id)) (items db) in
    let result :=
      mkrun (last_insert_rowid db) (Z.of_nat (List.length deleted)) in
    match deleted with
    | [] => (Returned result, db)
    | _ :: _ =>
        if foreign_keys db then
          let rewritten :=
            map (on_delete_set_null id)
              (filter (references id) (consumption_history db)) in
          if forallb item_id_not_null rewritten then
            (Returned result,
             mkdb (locations db) remaining
               (map (on_delete_set_null id) (consumption_history db))
               (seq_items db) (seq_consumption_history db)
               (last_insert_rowid db) (foreign_keys db))
          else (Thrown (NotNullFailed "consumption_history.item_id"), db)
        else
          (Returned result,
           mkdb (locations db) remaining (consumption_history db)
             (seq_items db) (seq_consumption_history db)
             (last_insert_rowid db) (foreign_keys db))
    end.

(** *** Consumption history *)

(** [logConsumption]: [null] when the item is not there, otherwise the
    [INSERT INTO consumption_history] under the table's constraints
    ([CHECK(quantity_used > 0)], [CHECK(action IN (...))]; the foreign
    key holds as the item was just read). *)
Definition logConsumption (itemId : Z) (quantityUsed : Q) (action : string)
    (notes : string) (clk : clock) : M (option run_result) :=
  fun db =>
    match getItemById itemId db clk with
    | None => (Returned None, db)
    | Some item_row =>
        if Qle_bool quantityUsed 0
        then (Thrown (CheckFailed "quantity_used"), db)
        else if negb (mem_string action actions)
        then (Thrown (CheckFailed "action"), db)
        else
          let rowid :=
            next_rowid (seq_consumption_history db)
              (map Consumption.id (consumption_history db)) in
          let c :=
            Consumption.mk rowid (Some itemId)
              (Item.title (item item_row)) quantityUsed
              (Item.unit (item item_row)) action (Some notes)
              (datetime_now_localtime clk) in
          (Returned (Some (mkrun rowid 1)),
           mkdb (locations db) (items db) (consumption_history db ++ [c])
             (seq_items db) rowid rowid (foreign_keys db))
    end.

End Database.

(** ** [routes/items.js]: the form routes that write items *)
Module Routes.
Import Database.

(** What a handler answers. Redirect targets are named by the page they
    lead to; the query strings are not modelled. *)
Inductive response :=
| RedirectAddForm (error : string)
| RedirectAfterCreate (lastInsertRowid : Z)
| RedirectAfterDelete
| RedirectReturn
| RedirectHome
| Json (status : Z) (success : bool)
| JsonUsed (newQuantity : Q) (depleted : bool).

(** The fields of [req.body] that [POST /items/create] reads.
    [location_id] and [quantity] are the values [parseInt] and
    [parseFloat] give for the submitted text ([None] for a field that is
    empty, missing or not a number); [file] is the stored path of the
    uploaded image, if there is one. *)
Record create_body := mkcreate {
  title : option string;
  description : option string;
  category : option string;
  location : option string;
  location_id : option Z;
  brand : option string;
  is_homemade : option string;
  quantity : JS.number;
  unit : option string;
  date_added : option Z;
  expiry_date : option Z;
  file : option string
}.

Definition is_on (v : option string) : bool :=
  match v with
  | Some s => (s =? "on")%string || (s =? "1")%string
  | None => false
  end.

(** The [itemData] that [POST /items/create] builds from the form. *)
Definition itemData (body : create_body) (clk : clock) : item_data :=
  mkdata
    (title body)
    (Some (JS.or_else JS.truthy_string (description body) ""))
    (Some (JS.or_else JS.truthy_string (category body) "Uncategorized"))
    (JS.or_null JS.truthy_string (location body))
    (location_id body)
    (JS.or_null JS.truthy_string (brand body))
    (is_on (is_homemade body))
    (Some (JS.Number (JS.Num (JS.number_or (Some (quantity body)) 1))))
    (Some (JS.or_else JS.truthy_string (unit body) "pcs"))
    (Some (JS.or_else JS.truthy_date (date_added body) (js_today_utc clk)))
    (JS.or_null JS.truthy_date (expiry_date body))
    (file body).

(** [POST /items/create], after the upload middleware. *)
Definition post_items_create (upload_error : bool) (body : create_body)
    (clk : clock) (db : database) : response * database :=
  if upload_error then (RedirectAddForm "upload", db)
  else
    match createItem (itemData body clk) clk db with
    | (Returned result, db') =>
        (RedirectAfterCreate (lastInsertRowid result), db')
    | (Thrown _, db') => (RedirectAddForm "save", db')
    end.

(** [POST /items/delete/:id]. *)
Definition post_items_delete (id : Z) (clk : clock) (db : database)
  : response * database :=
  match getItemById id db clk with
  | Some _ =>
      match deleteItem id db with
      | (Returned _, db') => (RedirectAfterDelete, db')
      | (Thrown _, db') => (RedirectHome, db')
      end
  | None => (RedirectAfterDelete, db)
  end.

(** The body of [POST /items/use/:id] and [POST /items/discard/:id];
    [amount] is the value of [parseFloat(req.body.amount)], [json] tells
    whether the caller asked for JSON. *)
Record quick_body := mkquick {
  amount : JS.number;
  action : option string;
  notes : option string;
  json : bool
}.

(** [POST /items/use/:id]. *)
Definition post_items_use (id : Z) (body : quick_body) (clk : clock)
    (db : database) : response * database :=
  match getItemById id db clk with
  | None => (Json 404 false, db)
  | Some r =>
      let amount := JS.number_or (Some (amount body)) 1 in
      let newQuantity :=
        JS.Math_max 0 (Item.quantity (item r) - amount)%Q in
      match
        (logConsumption (Item.id (item r)) amount "used"
           (JS.or_else JS.truthy_string (notes body) "") clk ;;;
         updateItemQuantity (Item.id (item r)) newQuantity clk) db
      with
      | (Returned _, db') =>
          (if json body then JsonUsed newQuantity (Qeq_bool newQuantity 0)
           else RedirectReturn, db')
      | (Thrown _, db') =>
          (if json body then Json 500 false else RedirectHome, db')
      end
  end.

(** [POST /items/discard/:id]. *)
Definition post_items_discard (id : Z) (body : quick_body) (clk : clock)
    (db : database) : response * database :=
  match getItemById id db clk with
  | None => (Json 404 false, db)
  | Some r =>
      let action := JS.or_else JS.truthy_string (action body) "discarded" in
      match
        (logConsumption (Item.id (item r)) (Item.quantity (item r)) action
           (JS.or_else JS.truthy_string (notes body) "") clk ;;;
         updateItemQuantity (Item.id (item r)) 0 clk) db
      with
      | (Returned _, db') =>
          (if json body then Json 200 true else RedirectReturn, db')
      | (Thrown _, db') =>
          (if json body then Json 500 false else RedirectHome, db')
      end
  end.

End Routes.

(** ** Notions the statements use *)

(** The current local calendar date. *)
Definition today (clk : clock) : Z := localtime clk / ms_per_day.

(** The time of day of the local clock, in milliseconds since midnight. *)
Definition time_of_day (clk : clock) : Z := localtime clk mod ms_per_day.

(** Every row of [items] satisfies the constraints of its table, as SQLite
    guarantees of a store that was only written through them. *)
Definition consistent (db : database) : bool :=
  forallb
    (fun r =>
       match Database.items_constraints db r with
       | None => true
       | Some _ => false
       end)
    (items db).

(** The values of an item that the constraints of [items] look at are
    admissible: the unit, once defaulted, is one of the five; the quantity,
    once defaulted, is not negative; the location, if any, exists. *)
Definition acceptable (db : database) (d : Database.item_data) : bool :=
  Database.mem_string
    (JS.or_else JS.truthy_string (Database.d_unit d) "pcs") Database.units
  && Qle_bool 0 (JS.numeric_or (Database.d_quantity d) 1)
  && match JS.or_null JS.truthy_int (Database.d_location_id d) with
     | Some lid => existsb (fun l => Location.id l =? lid) (locations db)
     | None => true
     end.

(** A quantity that JavaScript takes for false: absent, [NaN], zero or
    the empty text. *)
Definition falsy_quantity (v : option JS.numeric) : Prop :=
  match v with
  | None | Some (JS.Number JS.NaN) | Some (JS.Text None) => True
  | Some (JS.Number (JS.Num q)) => (q == 0)%Q
  | Some (JS.Text (Some _)) => False
  end.

(** A quantity that is a text which reads as zero, as ["0"] does:
    JavaScript takes it for true, SQLite stores it as 0. *)
Definition text_zero (v : option JS.numeric) : Prop :=
  exists q, v = Some (JS.Text (Some q)) /\ (q == 0)%Q.



(** ** A small store to evaluate the operations on *)
Module Sample.

Definition freezer : Location.t :=
  Location.mk 1 "Freezer" "freezer" (Some "*") (Some "#81d4fa") (Some 1) (Some 1).

(** Noon of day 20000. *)
Definition noon : clock :=
  mkclock (20000 * 86400000 + 43200000) (20000 * 86400000 + 43200000).

Definition chicken : Item.t :=
  Item.mk 1 "Chicken" (Some "") "Meat" None (Some 1) None (Some 0) 3 "kg"
    20000 (Some 20002) None 1728000000 1728000000.

Definition salt : Item.t :=
  Item.mk 2 "Salt" (Some "") "Spices" None (Some 1) (Some "Saxa") (Some 0) 1
    "pcs" 20000 None None 1728000000 1728000000.

Definition empty_jar : Item.t :=
  Item.mk 3 "Jam" (Some "") "Condiments" None None None (Some 1) 0 "pcs"
    19990 (Some 20030) None 1727000000 1728000000.

Definition used_chicken : Consumption.t :=
  Consumption.mk 1 (Some 1) "Chicken" 1 "kg" "used" (Some "") 1728000000.

Definition store : database :=
  mkdb [freezer] [chicken; salt; empty_jar] [] 3 0 3 true.

(** The store after one use of the chicken, before and after the first
    save reopened the connection. *)
Definition store_with_history : database :=
  mkdb [freezer] [chicken; salt; empty_jar] [used_chicken] 3 1 1 true.

Definition store_with_history_saved : database :=
  mkdb [freezer] [chicken; salt; empty_jar] [used_chicken] 3 1 0 false.

(** A submitted form whose title field was left empty. *)
Definition untitled_form : Routes.create_body :=
  Routes.mkcreate (Some "") None None None (Some 1) None None (JS.Num 1)
    None None None None.

(** Homemade soup, submitted with a brand and a quantity of zero. *)
Definition soup : Database.item_data :=
  Database.mkdata (Some "Soup") None (Some "Leftovers") None (Some 1)
    (Some "Campbell") true (Some (JS.Number (JS.Num 0))) (Some "L")
    (Some 20000)
    (Some 20003) None.

(** Requests on the quick-action routes. *)
Definition use_one : Routes.quick_body :=
  Routes.mkquick (JS.Num 1) None None true.

Definition use_minus_one : Routes.quick_body :=
  Routes.mkquick (JS.Num (-1)) None None true.

Definition discard_it : Routes.quick_body :=
  Routes.mkquick JS.NaN (Some "discarded") None true.

End Sample.

(** ** The rest of the store: sorting, views, statistics, locations *)

(** [ORDER BY] on any result set: a stable insertion of each row before
    the first row that does not come before it. *)
Module Sorter.

Fixpoint insert_by {A} (leb : A -> A -> bool) (x : A) (l : list A) : list A :=
  match l with
  | [] => [x]
  | y :: l' => if leb x y then x :: l else y :: insert_by leb x l'
  end.

Fixpoint sort_by {A} (leb : A -> A -> bool) (l : list A) : list A :=
  match l with
  | [] => []
  | x :: l' => insert_by leb x (sort_by leb l')
  end.

(** [ASC] on a nullable integer column: [NULL] sorts first. *)
Definition leb_nullable (a b : option Z) : bool :=
  match a, b with
  | None, _ => true
  | Some _, None => false
  | Some x, Some y => x <=? y
  end.

End Sorter.

(** *** [database.js], LOCATIONS MANAGEMENT: the reads *)
Module Locations.

(** [ORDER BY sort_order ASC, name ASC]. *)
Definition order_leb (a b : Location.t) : bool :=
  match Location.sort_order a, Location.sort_order b with
  | None, None => String.leb (Location.name a) (Location.name b)
  | None, Some _ => true
  | Some _, None => false
  | Some x, Some y =>
      (x <? y) || ((x =? y) && String.leb (Location.name a) (Location.name b))
  end.

(** [WHERE is_visible = 1]. *)
Definition is_visible_1 (l : Location.t) : bool :=
  Sql.holds (Sql.cmp Z.eqb (Location.is_visible l) (Some 1)).

(** [getLocations(visibleOnly)]. *)
Definition getLocations (visibleOnly : bool) (db : database)
  : list Location.t :=
  Sorter.sort_by order_leb
    (if visibleOnly then filter is_visible_1 (locations db)
     else locations db).

(** [getLocationById]. *)
Definition getLocationById (id : Z) (db : database) : option Location.t :=
  find (fun l => Location.id l =? id) (locations db).

(** The rows of [SELECT location_id, COUNT( * ) ... WHERE location_id IS
    NOT NULL GROUP BY location_id]: one per distinct location id. *)
Fixpoint location_ids (rows : list Item.t) : list Z :=
  match rows with
  | [] => []
  | i :: rows' =>
      match Item.location_id i with
      | Some lid => lid :: location_ids rows'
      | None => location_ids rows'
      end
  end.

Definition count_in_location (lid : Z) (rows : list Item.t) : Z :=
  Z.of_nat
    (List.length
       (filter (fun i => Sql.holds (Sql.cmp Z.eqb (Item.location_id i)
                                      (Some lid))) rows)).

(** [getLocationCounts]: the object [counts], as the list of its
    properties [location_id: count]. *)
Definition getLocationCounts (db : database) : list (Z * Z) :=
  map (fun lid => (lid, count_in_location lid (items db)))
    (nodup Z.eq_dec (location_ids (items db))).

(** [counts[id]], [undefined] when there is no such property. *)
Definition property (counts : list (Z * Z)) (id : Z) : option Z :=
  option_map snd (find (fun kv => fst kv =? id) counts).

(** [counts[id] || 0]. *)
Definition property_or_0 (counts : list (Z * Z)) (id : Z) : Z :=
  JS.or_else JS.truthy_int (property counts id) 0.

End Locations.

(** *** The views of [schema.sql] *)
Module Views.

(** A row of [v_expired], [v_expiring_soon] or [v_low_stock]: [i.*], the
    name and icon of the joined location and, in the first two, the real
    number of days ([days_expired], [days_until_expiry]). *)
Record row := mkrow {
  item : Item.t;
  location_name : option string;
  location_icon : option string;
  days : option Q
}.

Definition joined_name (db : database) (i : Item.t) : option string :=
  option_map Location.name (Database.joined_location db i).

Definition joined_icon (db : database) (i : Item.t) : option string :=
  match Database.joined_location db i with
  | Some l => Location.icon l
  | None => None
  end.

(** [ORDER BY i.expiry_date ASC]. *)
Definition by_expiry_date (a b : Item.t) : bool :=
  Sorter.leb_nullable (Item.expiry_date a) (Item.expiry_date b).

(** [v_expired]. *)
Definition expired_where (clk : clock) (i : Item.t) : Sql.tri :=
  Sql.and3 (Sql.is_not_null (Item.expiry_date i))
    (Sql.cmp Z.ltb (Sql.date (Item.expiry_date i)) (date_now_localtime clk)).

Definition v_expired (db : database) (clk : clock) : list row :=
  map (fun i =>
         mkrow i (joined_name db i) (joined_icon db i)
           (option_map
              (fun e => ((localtime clk # 86400000) - inject_Z e)%Q)
              (Item.expiry_date i)))
    (Sorter.sort_by by_expiry_date
       (filter (fun i => Sql.holds (expired_where clk i)) (items db))).

(** [v_expiring_soon]. *)
Definition expiring_soon_where (clk : clock) (i : Item.t) : Sql.tri :=
  Sql.and3
    (Sql.and3 (Sql.is_not_null (Item.expiry_date i))
       (Sql.cmp Z.leb (date_now_localtime clk)
          (Sql.date (Item.expiry_date i))))
    (Sql.cmp Z.leb (Sql.date (Item.expiry_date i))
       (date_now_localtime_plus clk 3)).

Definition v_expiring_soon (db : database) (clk : clock) : list row :=
  map (fun i =>
         mkrow i (joined_name db i) (joined_icon db i)
           (option_map (fun e => Database.julianday_until e clk)
              (Item.expiry_date i)))
    (Sorter.sort_by by_expiry_date
       (filter (fun i => Sql.holds (expiring_soon_where clk i)) (items db))).

(** [v_low_stock]: [WHERE i.quantity <= 1 AND i.quantity > 0
    ORDER BY i.quantity ASC, i.title ASC]. *)
Definition low_stock_where (i : Item.t) : bool :=
  Qle_bool (Item.quantity i) 1 && negb (Qle_bool (Item.quantity i) 0).

Definition by_quantity_title (a b : Item.t) : bool :=
  negb (Qle_bool (Item.quantity b) (Item.quantity a))
  || (Qeq_bool (Item.quantity a) (Item.quantity b)
      && String.leb (Item.title a) (Item.title b)).

Definition v_low_stock (db : database) : list row :=
  map (fun i => mkrow i (joined_name db i) (joined_icon db i) None)
    (Sorter.sort_by by_quantity_title (filter low_stock_where (items db))).

(** [v_location_summary]: one row per visible location ([l.id] is the
    key the rows are grouped by), with the counts over the items joined to
    it, [ORDER BY l.sort_order ASC]. *)
Record summary := mksummary {
  location_id : Z;
  summary_name : string;
  icon : option string;
  type : string;
  color : option string;
  total_items : Z;
  expired_count : Z;
  expiring_soon_count : Z
}.

Definition joined_items (db : database) (l : Location.t) : list Item.t :=
  filter (fun i => Sql.holds (Sql.cmp Z.eqb (Item.location_id i)
                                (Some (Location.id l))))
    (items db).

Definition count (p : Item.t -> bool) (rows : list Item.t) : Z :=
  Z.of_nat (List.length (filter p rows)).

Definition v_location_summary (db : database) (clk : clock) : list summary :=
  map (fun l =>
         mksummary (Location.id l) (Location.name l) (Location.icon l)
           (Location.type l) (Location.color l)
           (count (fun _ => true) (joined_items db l))
           (count (fun i => Sql.holds (expired_where clk i))
              (joined_items db l))
           (count (fun i => Sql.holds (expiring_soon_where clk i))
              (joined_items db l)))
    (Sorter.sort_by
       (fun a b =>
          Sorter.leb_nullable (Location.sort_order a) (Location.sort_order b))
       (filter Locations.is_visible_1 (locations db))).

(** [v_recent_consumption]: the records of the last 30 days, grouped by
    title and unit, [ORDER BY total_consumed DESC]. *)
Record consumed := mkconsumed {
  item_title : string;
  total_consumed : Q;
  unit : string;
  consumption_events : Z;
  last_consumed : Z
}.

Definition same_group (title unit : string) (c : Consumption.t) : bool :=
  (Consumption.item_title c =? title)%string
  && (Consumption.unit c =? unit)%string.

(** [GROUP BY item_title, unit]: the distinct pairs of title and unit. *)
Fixpoint group_keys (rows : list Consumption.t) : list (string * string) :=
  match rows with
  | [] => []
  | c :: rows' =>
      let keys := group_keys rows' in
      if existsb (fun k => same_group (fst k) (snd k) c) keys then keys
      else (Consumption.item_title c, Consumption.unit c) :: keys
  end.

(** [SUM(quantity_used)] and [MAX(consumed_at)] over a group. *)
Definition sum_used (g : list Consumption.t) : Q :=
  fold_left (fun acc c => (acc + Consumption.quantity_used c)%Q) g 0%Q.

Definition max_consumed_at (g : list Consumption.t) : Z :=
  match g with
  | [] => 0
  | c :: g' =>
      fold_left (fun acc x => Z.max acc (Consumption.consumed_at x)) g'
        (Consumption.consumed_at c)
  end.

(** [consumed_at >= datetime('now', 'localtime', '-N days')]. *)
Definition in_last_days (days : Z) (clk : clock) (c : Consumption.t) : bool :=
  datetime_now_localtime clk - days * 86400 <=? Consumption.consumed_at c.

Definition v_recent_consumption (db : database) (clk : clock)
  : list consumed :=
  let recent := filter (in_last_days 30 clk) (consumption_history db) in
  Sorter.sort_by
    (fun a b => Qle_bool (total_consumed b) (total_consumed a))
    (map
       (fun k =>
          let g := filter (same_group (fst k) (snd k)) recent in
          mkconsumed (fst k) (sum_used g) (snd k) (Z.of_nat (List.length g))
            (max_consumed_at g))
       (group_keys recent)).

End Views.

(** *** [database.js], STATISTICS & DASHBOARD *)
Module Stats.

Definition getExpiredItems (db : database) (clk : clock) : list Views.row :=
  Views.v_expired db clk.

Definition getExpiringSoonItems (db : database) (clk : clock)
  : list Views.row :=
  Views.v_expiring_soon db clk.

Definition getLowStockItems (db : database) : list Views.row :=
  Views.v_low_stock db.

(** [stats.byLocation]: the counts summed per location type, as the list
    of the object's properties in the order they were created. *)
Fixpoint add_to_property (key : string) (n : Z) (obj : list (string * Z))
  : list (string * Z) :=
  match obj with
  | [] => [(key, 0 + n)]
  | (k, v) :: obj' =>
      if (k =? key)%string then (k, v + n) :: obj'
      else (k, v) :: add_to_property key n obj'
  end.

Record stats := mkstats {
  totalItems : Z;
  expiredCount : Z;
  expiringSoonCount : Z;
  lowStockCount : Z;
  locationSummary : list Views.summary;
  recentConsumption : list Views.consumed;
  locations_with_count : list (Location.t * Z);
  byLocation : list (string * Z)
}.

(** [getStats]. *)
Definition getStats (db : database) (clk : clock) : stats :=
  let locations := Locations.getLocations true db in
  let locationCounts := Locations.getLocationCounts db in
  mkstats
    (Z.of_nat (List.length (items db)))
    (Z.of_nat (List.length (Views.v_expired db clk)))
    (Z.of_nat (List.length (Views.v_expiring_soon db clk)))
    (Z.of_nat (List.length (Views.v_low_stock db)))
    (Views.v_location_summary db clk)
    (firstn 10 (Views.v_recent_consumption db clk))
    (map (fun loc =>
            (loc, Locations.property_or_0 locationCounts (Location.id loc)))
       locations)
    (fold_left
       (fun obj loc =>
          add_to_property (Location.type loc)
            (Locations.property_or_0 locationCounts (Location.id loc)) obj)
       locations []).

End Stats.

(** ** Notions the further statements use *)

(** An item passes the filters of [getItems] other than [expiryStatus]:
    each filter that is set (to a non-zero number, a non-empty text)
    holds of it. *)
Definition passes (f : Database.filters) (db : database) (i : Item.t) : Prop :=
  (forall v, Database.locationId f = Some v -> v <> 0 ->
             Item.location_id i = Some v)
  /\ (forall v, Database.location f = Some v -> v <> "" ->
                Item.location i = Some v
                \/ option_map Location.type (Database.joined_location db i)
                   = Some v)
  /\ (forall v, Database.category f = Some v -> v <> "" ->
                Item.category i = v)
  /\ (forall v, Database.search f = Some v -> v <> "" ->
                exists text,
                  (Some text = Some (Item.title i)
                   \/ Some text = Item.description i
                   \/ Some text = Item.brand i)
                  /\ Sql.like_match ("%" ++ v ++ "%") text = true).

(** The pattern that [getItems] builds from the search text is one that
    SQLite's [LIKE] takes: at most 50000 bytes long. *)
Definition within_like_limit (f : Database.filters) : Prop :=
  forall v, Database.search f = Some v ->
            Z.of_nat (String.length v) + 2 <= 50000.

(** An item is low on stock: some is left, at most one unit. *)
Definition low_on_stock (i : Item.t) : Prop :=
  (0 < Item.quantity i)%Q /\ (Item.quantity i <= 1)%Q.

Definition sum_values {K} (obj : list (K * Z)) : Z :=
  fold_right (fun kv acc => snd kv + acc) 0 obj.

(** The order of the location list: ascending sort order, a location
    without one first, and ascending name among equals. *)
Definition shown_before (a b : Location.t) : Prop :=
  match Location.sort_order a, Location.sort_order b with
  | Some x, Some y =>
      x < y
      \/ (x = y /\ String.leb (Location.name a) (Location.name b) = true)
  | None, Some _ => True
  | Some _, None => False
  | None, None => String.leb (Location.name a) (Location.name b) = true
  end.

(** The number of stored items placed at a location. *)
Definition items_at (lid : Z) (db : database) : Z :=
  Z.of_nat
    (List.length
       (filter
          (fun i =>
             match Item.location_id i with
             | Some l => l =? lid
             | None => false
             end)
          (items db))).

(** [obj[key] || 0] on an object with text keys. *)
Definition text_property_or_0 (obj : list (string * Z)) (key : string) : Z :=
  match find (fun kv => (fst kv =? key)%string) obj with
  | Some kv => snd kv
  | None => 0
  end.

(** The counts of the locations of one type, summed. *)
Definition total_of_type (t : string) (counted : list (Location.t * Z)) : Z :=
  fold_right
    (fun p acc =>
       (if (Location.type (fst p) =? t)%string then snd p else 0) + acc)
    0 counted.

(** *** [database.js], CONSUMPTION TRACKING: reading the history *)
Module History.

(** The [filters] argument of [getConsumptionHistory]; the numbers are
    those the routes obtain with [parseInt]. *)
Record filters := mkfilters {
  itemId : option Z;
  days : option Z;
  action : option string;
  limit : option Z
}.

Definition no_filters : filters := mkfilters None None None None.

(** SQLite keeps an instant as the milliseconds since Julian day 0, noon
    of 24 November 4714 BC; the clock counts them from 1970-01-01 00:00,
    which is Julian day 2440587.5. *)
Definition julian_ms (t : Z) : Z := t + 210866760000000.

(** [validJulianDay]: from Julian day 0 to the last millisecond of the
    year 9999. *)
Definition valid_julian_ms (j : Z) : bool :=
  (0 <=? j) && (j <=? 464269060799999).

(** The number of days from which on SQLite refuses the modifier
    ['NNN days']. *)
Definition days_limit : Z := 5373485.

(** [datetime('now', 'localtime', '-N days')], to the second, for the [N]
    interpolated into the text. A negative [N] makes the modifier read
    ['--5 days'], which SQLite does not accept, and so is an [N] from
    [days_limit] on: the result is [NULL]. It is [NULL] too when the
    instant [N] days back is not one SQLite represents, as it is for
    ['-5000000 days']. *)
Definition datetime_now_localtime_minus (clk : clock) (days : Z) : option Z :=
  if days <? 0 then None
  else if days_limit <=? days then None
  else if valid_julian_ms (julian_ms (localtime clk) - days * ms_per_day)
  then Some (datetime_now_localtime clk - days * 86400)
  else None.

(** The conditions appended to [WHERE 1=1], in order. *)
Definition conditions (f : filters) (clk : clock)
  : list (Consumption.t -> Sql.tri) :=
  (match itemId f with
   | Some v =>
       if JS.truthy_int v
       then [fun c => Sql.cmp Z.eqb (Consumption.item_id c) (Some v)]
       else []
   | None => []
   end)
  ++ (match days f with
      | Some v =>
          if JS.truthy_int v
          then [fun c =>
                  Sql.cmp Z.leb (datetime_now_localtime_minus clk v)
                    (Some (Consumption.consumed_at c))]
          else []
      | None => []
      end)
  ++ (match action f with
      | Some v =>
          if JS.truthy_string v
          then [fun c =>
                  Sql.cmp String.eqb (Some (Consumption.action c)) (Some v)]
          else []
      | None => []
      end).

Definition where_clause (conds : list (Consumption.t -> Sql.tri))
    (c : Consumption.t) : Sql.tri :=
  fold_left (fun acc cond => Sql.and3 acc (cond c)) conds (Some true).

(** [ORDER BY consumed_at DESC]. *)
Definition newest_first (a b : Consumption.t) : bool :=
  Consumption.consumed_at b <=? Consumption.consumed_at a.

(** [LIMIT n], appended when [filters.limit] is truthy; a negative [n] is
    no limit to SQLite. *)
Definition apply_limit {A} (limit : option Z) (rows : list A) : list A :=
  match limit with
  | Some n =>
      if JS.truthy_int n
      then if n <? 0 then rows else firstn (Z.to_nat n) rows
      else rows
  | None => rows
  end.

(** [getConsumptionHistory]. *)
Definition getConsumptionHistory (f : filters) (db : database) (clk : clock)
  : list Consumption.t :=
  apply_limit (limit f)
    (Sorter.sort_by newest_first
       (filter (fun c => Sql.holds (where_clause (conditions f clk) c))
          (consumption_history db))).

End History.

(** *** The quantity routes that remain: [POST /items/add-quantity/:id]
    and [PUT /api/items/:id/quantity] *)
Module Quantity.
Import Database.

Inductive response :=
| NotFound
| BadRequest
| ServerError
| Redirected
| RedirectedHome
| NewQuantity (newQuantity : Q)
| UpdatedItem (item : Database.row).

(** [POST /items/add-quantity/:id]. *)
Definition post_items_add_quantity (id : Z) (body : Routes.quick_body)
    (clk : clock) (db : database) : response * database :=
  match getItemById id db clk with
  | None => (NotFound, db)
  | Some r =>
      let amount := JS.number_or (Some (Routes.amount body)) 1 in
      let newQuantity := (Item.quantity (item r) + amount)%Q in
      match updateItemQuantity (Item.id (item r)) newQuantity clk db with
      | (Returned _, db') =>
          (if Routes.json body then NewQuantity newQuantity else Redirected,
           db')
      | (Thrown _, db') =>
          (if Routes.json body then ServerError else RedirectedHome, db')
      end
  end.

(** The JSON body of [PUT /api/items/:id/quantity]: [quantity] and
    [delta] are present when [typeof] gives ['number'] for them. *)
Record quantity_body := mkbody {
  quantity : option Q;
  delta : option Q;
  action : option string
}.

Definition with_quantity (q : Q) (r : Database.row) : Database.row :=
  Database.mkrow (Item.set_quantity q (item r)) (location_name r)
    (location_icon r) (location_type r) (location_color r)
    (expiry_status r) (days_until_expiry r).

(** [PUT /api/items/:id/quantity]. *)
Definition put_items_quantity (id : Z) (body : quantity_body) (clk : clock)
    (db : database) : response * database :=
  match getItemById id db clk with
  | None => (NotFound, db)
  | Some r =>
      match quantity body, delta body with
      | Some q, _ =>
          let newQuantity := JS.Math_max 0 q in
          match updateItemQuantity (Item.id (item r)) newQuantity clk db with
          | (Returned _, db') => (UpdatedItem (with_quantity newQuantity r), db')
          | (Thrown _, db') => (ServerError, db')
          end
      | None, Some d =>
          let newQuantity := JS.Math_max 0 (Item.quantity (item r) + d)%Q in
          match
            ((if negb (Qle_bool 0 d)
              then logConsumption (Item.id (item r)) (Qabs d)
                     (JS.or_else JS.truthy_string (action body) "used") ""
                     clk
              else ret None) ;;;
             updateItemQuantity (Item.id (item r)) newQuantity clk) db
          with
          | (Returned _, db') => (UpdatedItem (with_quantity newQuantity r), db')
          | (Thrown _, db') => (ServerError, db')
          end
      | None, None => (BadRequest, db)
      end
  end.

End Quantity.

(** The instant [v] days before now is one that SQLite computes: [v] is
    positive and below the limit of the modifier, and the instant is not
    before Julian day 0 nor after the year 9999. *)
Definition days_back_in_range (clk : clock) (v : Z) : Prop :=
  0 < v < History.days_limit
  /\ 0 <= History.julian_ms (localtime clk) - v * ms_per_day
       <= 464269060799999.

(** A record passes the filters of [getConsumptionHistory]: each filter
    that is set holds of it; a number of days that is negative, or that
    leads out of the range of SQLite's dates, lets no record pass. *)
Definition passes_history (f : History.filters) (clk : clock)
    (c : Consumption.t) : Prop :=
  (forall v, History.itemId f = Some v -> v <> 0 ->
             Consumption.item_id c = Some v)
  /\ (forall v, History.days f = Some v -> v <> 0 ->
                days_back_in_range clk v
                /\ datetime_now_localtime clk - v * 86400
                   <= Consumption.consumed_at c)
  /\ (forall v, History.action f = Some v -> v <> "" ->
                Consumption.action c = v).

(** The item [id] after its quantity was set to [q] at time [clk]. *)
Definition quantity_set (id : Z) (q : Q) (clk : clock) (i : Item.t) : Item.t :=
  if Item.id i =? id
  then Item.set_updated_at (datetime_now_localtime clk) (Item.set_quantity q i)
  else i.

(** Requests on the remaining quantity routes. *)
Module SampleQuantity.

Definition add_two : Routes.quick_body :=
  Routes.mkquick (JS.Num 2) None None true.

Definition set_to_five : Quantity.quantity_body :=
  Quantity.mkbody (Some 5%Q) None None.

Definition take_ten : Quantity.quantity_body :=
  Quantity.mkbody None (Some (-10)%Q) None.

End SampleQuantity.

(** *** [database.js], LOCATIONS MANAGEMENT: the writes *)
Module LocationWrites.
Import Database.

(** The store with the [sqlite_sequence] counter of [locations], which
    [createLocation] alone needs. *)
Record store := mkstore { tables : database; seq_locations : Z }.

Definition types : list string :=
  ["fridge"; "freezer"; "cupboard"; "spice"; "pantry"; "other"].

(** The constraints of table [locations] on a row about to be written:
    [CHECK(type IN (...))] and [CHECK(is_visible IN (0, 1))]. *)
Definition locations_constraints (l : Location.t) : option exception :=
  if negb (mem_string (Location.type l) types)
  then Some (CheckFailed "type")
  else if negb (match Location.is_visible l with
                | Some v => (v =? 0) || (v =? 1)
                | None => true
                end)
  then Some (CheckFailed "is_visible")
  else None.

(** The [location] argument of [createLocation] and [updateLocation];
    [l_is_visible] is the truth value of the property, when it is
    defined. *)
Record location_data := mklocation {
  l_name : option string;
  l_type : option string;
  l_icon : option string;
  l_color : option string;
  l_sort_order : option Z;
  l_is_visible : option bool
}.


(** [location.is_visible !== undefined ? (location.is_visible ? 1 : 0) : 1]. *)
Definition visible_flag (v : option bool) : Z :=
  match v with
  | Some b => if b then 1 else 0
  | None => 1
  end.


(** [UPDATE locations SET ... WHERE id = ?]. The timestamps of a
    location, which the trigger [update_location_timestamp] renews, are not
    among the columns of [Location.t]. *)
Fixpoint update_locations (id : Z) (set : Location.t -> Location.t)
    (rows : list Location.t) : outcome (list Location.t * Z) :=
  match rows with
  | [] => Returned ([], 0)
  | l :: rows' =>
      if Location.id l =? id then
        match locations_constraints (set l) with
        | Some e => Thrown e
        | None =>
            match update_locations id set rows' with
            | Returned (ls, n) => Returned (set l :: ls, n + 1)
            | Thrown e => Thrown e
            end
        end
      else
        match update_locations id set rows' with
        | Returned (ls, n) => Returned (l :: ls, n)
        | Thrown e => Thrown e
        end
  end.

Definition run_update_locations (id : Z) (set : Location.t -> Location.t)
  : M run_result :=
  fun db =>
    match update_locations id set (locations db) with
    | Thrown e => (Thrown e, db)
    | Returned (ls, n) =>
        (Returned (mkrun (last_insert_rowid db) n),
         mkdb ls (items db) (consumption_history db) (seq_items db)
           (seq_consumption_history db) (last_insert_rowid db)
           (foreign_keys db))
    end.

(** [updateLocation]. *)
Definition updateLocation (id : Z) (location : location_data) : M run_result :=
  match l_name location with
  | None => throw WrongApiUse
  | Some name =>
      run_update_locations id
        (fun old =>
           Location.mk (Location.id old)
             name
             (JS.or_else JS.truthy_string (l_type location) "other")
             (Some (JS.or_else JS.truthy_string (l_icon location) "📦"))
             (Some (JS.or_else JS.truthy_string (l_color location) "#666666"))
             (Some (JS.or_else JS.truthy_int (l_sort_order location) 0))
             (Some (visible_flag (l_is_visible location))))
  end.

(** An item taken off its location: [location_id = NULL], and
    [updated_at] as the trigger [update_item_timestamp] leaves it. *)
Definition detached (ts : Z) (i : Item.t) : Item.t :=
  Item.mk (Item.id i) (Item.title i) (Item.description i) (Item.category i)
    (Item.location i) None (Item.brand i) (Item.is_homemade i)
    (Item.quantity i) (Item.unit i) (Item.date_added i) (Item.expiry_date i)
    (Item.image_path i) (Item.created_at i) ts.

Definition placed_at (id : Z) (i : Item.t) : bool :=
  Sql.holds (Sql.cmp Z.eqb (Item.location_id i) (Some id)).

(** [UPDATE items SET location_id = NULL WHERE location_id = ?]. *)
Fixpoint detach_rows (db : database) (id : Z) (ts : Z) (rows : list Item.t)
  : outcome (list Item.t * Z) :=
  match rows with
  | [] => Returned ([], 0)
  | i :: rows' =>
      if placed_at id i then
        match items_constraints db (detached ts i) with
        | Some e => Thrown e
        | None =>
            match detach_rows db id ts rows' with
            | Returned (rs, n) => Returned (detached ts i :: rs, n + 1)
            | Thrown e => Thrown e
            end
        end
      else
        match detach_rows db id ts rows' with
        | Returned (rs, n) => Returned (i :: rs, n)
        | Thrown e => Thrown e
        end
  end.

Definition run_detach (id : Z) (clk : clock) : M run_result :=
  fun db =>
    match detach_rows db id (datetime_now_localtime clk) (items db) with
    | Thrown e => (Thrown e, db)
    | Returned (rs, n) =>
        (Returned (mkrun (last_insert_rowid db) n),
         mkdb (locations db) rs (consumption_history db) (seq_items db)
           (seq_consumption_history db) (last_insert_rowid db)
           (foreign_keys db))
    end.

(** [DELETE FROM locations WHERE id = ?]; while foreign keys are
    enforced, an item still placed there takes [ON DELETE SET NULL] (in
    [deleteLocation] the statement before has left no such item). *)
Definition run_delete_location (id : Z) : M run_result :=
  fun db =>
    (Returned
       (mkrun (last_insert_rowid db)
          (Z.of_nat
             (List.length
                (filter (fun l => Location.id l =? id) (locations db))))),
     mkdb (filter (fun l => negb (Location.id l =? id)) (locations db))
       (if foreign_keys db
        then map (fun i =>
                    if placed_at id i
                    then detached (Item.updated_at i) i
                    else i)
               (items db)
        else items db)
       (consumption_history db) (seq_items db) (seq_consumption_history db)
       (last_insert_rowid db) (foreign_keys db)).

(** [deleteLocation]. *)
Definition deleteLocation (id : Z) (clk : clock) : M run_result :=
  run_detach id clk ;;; run_delete_location id.

(** [reorderLocations]: [orderedIds.forEach((id, index) => run('UPDATE
    locations SET sort_order = ? WHERE id = ?', [index + 1, id]))]. *)
Definition with_sort_order (s : Z) (l : Location.t) : Location.t :=
  Location.mk (Location.id l) (Location.name l) (Location.type l)
    (Location.icon l) (Location.color l) (Some s) (Location.is_visible l).

Fixpoint reorder_from (index : Z) (orderedIds : list Z) : M unit :=
  match orderedIds with
  | [] => ret tt
  | id :: ids =>
      run_update_locations id (with_sort_order (index + 1)) ;;;
      reorder_from (index + 1) ids
  end.

Definition reorderLocations (orderedIds : list Z) : M unit :=
  reorder_from 0 orderedIds.

End LocationWrites.

(** Every row of [locations] satisfies the constraints of its table. *)
Definition locations_sound (db : database) : bool :=
  forallb
    (fun l =>
       match LocationWrites.locations_constraints l with
       | None => true
       | Some _ => false
       end)
    (locations db).

(** The index of [x] in [ids], counted from 0. *)
Fixpoint position (x : Z) (ids : list Z) : option Z :=
  match ids with
  | [] => None
  | y :: ids' =>
      if y =? x then Some 0 else option_map Z.succ (position x ids')
  end.


(** A second location and a second storage place for the samples. *)
Module SampleLocations.


Definition cellar : Location.t :=
  Location.mk 2 "Cellar" "other" (Some "*") (Some "#666666") (Some 2)
    (Some 0).

Definition house : database :=
  mkdb [Sample.freezer; cellar]
    [Sample.chicken; Sample.salt; Sample.empty_jar] [] 3 0 3 true.

Definition store : LocationWrites.store :=
  LocationWrites.mkstore Sample.store 1.

End SampleLocations.


(** The place of [x] in [ids] as a number, [-1] when it is not listed. *)
Definition place (ids : list Z) (x : Z) : Z :=
  match position x ids with
  | Some k => k
  | None => -1
  end.

(** A location as numbered by its place in [ids], counted from
    [index + 1]; a location that is not listed stays as it is. *)
Definition renumbered (index : Z) (ids : list Z) (l : Location.t)
  : Location.t :=
  match position (Location.id l) ids with
  | Some k => LocationWrites.with_sort_order (index + k + 1) l
  | None => l
  end.


(** *** [routes/items.js], BULK OPERATIONS *)
Module Bulk.
Import Database.

Inductive response :=
| BadRequest (message : string)
| ServerError
| DeletedCount (deletedCount : Z)
| UpdatedCount (updatedCount : Z).

(** [ids.forEach(id => { const result = db.deleteItem(id);
    if (result.changes > 0) deletedCount++; })]. *)
Fixpoint delete_each (ids : list Z) (deletedCount : Z) : M Z :=
  match ids with
  | [] => ret deletedCount
  | id :: ids' =>
      result <- deleteItem id ;;
      delete_each ids'
        (if 0 <? changes result then deletedCount + 1 else deletedCount)
  end.

(** [POST /api/items/bulk-delete]; [ids] is [None] when the body holds no
    array under that name. *)
Definition post_items_bulk_delete (ids : option (list Z)) (db : database)
  : response * database :=
  match ids with
  | None | Some [] => (BadRequest "ids array required", db)
  | Some ids =>
      match delete_each ids 0 db with
      | (Returned deletedCount, db') => (DeletedCount deletedCount, db')
      | (Thrown _, db') => (ServerError, db')
      end
  end.

(** The object [updates] of a bulk update, by the properties that
    [updateItem] reads: [None] for a property that is not there, otherwise
    its value as [updateItem] receives it. The body is JSON that the route
    does not check, so [quantity] can be a number or a text. *)
Record updates := mkupdates {
  u_title : option (option string);
  u_description : option (option string);
  u_category : option (option string);
  u_location : option (option string);
  u_location_id : option (option Z);
  u_brand : option (option string);
  u_is_homemade : option bool;
  u_quantity : option (option JS.numeric);
  u_unit : option (option string);
  u_date_added : option (option Z);
  u_expiry_date : option (option Z);
  u_image_path : option (option string)
}.

(** [obj.p] of [{ ...item, ...updates }]. *)
Definition spread_property {A} (item : A) (update : option A) : A :=
  match update with
  | Some v => v
  | None => item
  end.

(** [{ ...item, ...updates }] as [updateItem] reads it. *)
Definition spread (item : row) (u : updates) : item_data :=
  let i := Database.item item in
  mkdata
    (spread_property (Some (Item.title i)) (u_title u))
    (spread_property (Item.description i) (u_description u))
    (spread_property (Some (Item.category i)) (u_category u))
    (spread_property (Item.location i) (u_location u))
    (spread_property (Item.location_id i) (u_location_id u))
    (spread_property (Item.brand i) (u_brand u))
    (spread_property
       (match Item.is_homemade i with
        | Some h => JS.truthy_int h
        | None => false
        end)
       (u_is_homemade u))
    (spread_property (Some (JS.Number (JS.Num (Item.quantity i))))
       (u_quantity u))
    (spread_property (Some (Item.unit i)) (u_unit u))
    (spread_property (Some (Item.date_added i)) (u_date_added u))
    (spread_property (Item.expiry_date i) (u_expiry_date u))
    (spread_property (Item.image_path i) (u_image_path u)).

(** [ids.forEach(id => { const item = db.getItemById(id); if (item) {
    ... db.updateItem(id, updatedItem) ... } })]. *)
Fixpoint update_each (ids : list Z) (u : updates) (clk : clock)
    (updatedCount : Z) : M Z :=
  match ids with
  | [] => ret updatedCount
  | id :: ids' =>
      fun db =>
        match getItemById id db clk with
        | Some item =>
            (result <- updateItem id (spread item u) clk ;;
             update_each ids' u clk
               (if 0 <? changes result
                then updatedCount + 1 else updatedCount)) db
        | None => update_each ids' u clk updatedCount db
        end
  end.

(** [POST /api/items/bulk-update]; [u] is [None] when the body holds no
    object under [updates]. *)
Definition post_items_bulk_update (ids : option (list Z)) (u : option updates)
    (clk : clock) (db : database) : response * database :=
  match ids with
  | None | Some [] => (BadRequest "ids array required", db)
  | Some ids =>
      match u with
      | None => (BadRequest "updates object required", db)
      | Some u =>
          match update_each ids u clk 0 db with
          | (Returned updatedCount, db') => (UpdatedCount updatedCount, db')
          | (Thrown _, db') => (ServerError, db')
          end
      end
  end.

(** [{ quantity: v }]. *)
Definition with_quantity (v : JS.numeric) : updates :=
  mkupdates None None None None None None None (Some (Some v)) None None
    None None.

(** [{ location_id: l }], the request that moves items to a location. *)
Definition move_to (l : Z) : updates :=
  mkupdates None None None None (Some (Some l)) None None None None None
    None None.

End Bulk.

(** The items whose id is not among [ids]. *)
Definition not_listed (ids : list Z) (i : Item.t) : bool :=
  negb (existsb (Z.eqb (Item.id i)) ids).


(** Whether an item of that id is stored. *)
Definition stored (db : database) (clk : clock) (id : Z) : bool :=
  match Database.getItemById id db clk with
  | Some _ => true
  | None => false
  end.

(** The row [updateItem] writes over [old] when it is given the item read
    from the store with [location_id] replaced by [l]. *)
Definition moved (l : Z) (clk : clock) (db : database) (old : Item.t)
  : Item.t :=
  Database.update_values
    (Bulk.spread (Database.select db clk old) (Bulk.move_to l))
    clk (Item.title old) (Item.date_added old) old.


(** *** [routes/items.js], the location forms *)
Module LocationRoutes.
Import LocationWrites.

(** What a handler answers: JSON to a request that asks for it, otherwise
    a redirect to the locations page, with its [error] parameter. *)
Inductive response :=
| Json (status : Z) (success : bool) (message : string)
| RedirectLocations (error : option string).

Definition answer (json : bool) (status : Z) (success : bool)
    (message : string) (error : option string) : response :=
  if json then Json status success message else RedirectLocations error.

(** The fields of [req.body] that [POST /locations/update/:id] reads.
    [name] is the value of [name?.trim()]; [sort_order] is the value
    [parseInt] gives for the submitted text ([Some None] for a text that
    is not a number). *)
Record update_body := mkupdate {
  name : option string;
  type : option string;
  icon : option string;
  color : option string;
  is_visible : option string;
  sort_order : option (option Z)
}.

Definition or_existing (v : option string) (existing : option string)
  : option string :=
  match JS.or_null JS.truthy_string v with
  | Some s => Some s
  | None => existing
  end.

(** The object the update route hands to [updateLocation]. *)
Definition locationData (body : update_body) (existing : Location.t)
  : location_data :=
  mklocation
    (Some (JS.or_else JS.truthy_string (name body) (Location.name existing)))
    (Some (JS.or_else JS.truthy_string (type body) (Location.type existing)))
    (or_existing (icon body) (Location.icon existing))
    (or_existing (color body) (Location.color existing))
    (match sort_order body with
     | Some parsed => parsed
     | None => Location.sort_order existing
     end)
    (Some (match is_visible body with
           | Some s => (s =? "true")%string || (s =? "1")%string
           | None =>
               match Location.is_visible existing with
               | Some v => JS.truthy_int v
               | None => false
               end
           end)).

(** [POST /locations/update/:id]. *)
Definition post_locations_update (json : bool) (id : Z) (body : update_body)
    (db : database) : response * database :=
  match Locations.getLocationById id db with
  | None => (answer json 404 false "Location not found" (Some "not_found"), db)
  | Some existing =>
      match updateLocation id (locationData body existing) db with
      | (Returned _, db') =>
          (answer json 200 true "Location updated successfully" None, db')
      | (Thrown _, db') =>
          (answer json 500 false "Failed to update location"
             (Some "update_failed"), db')
      end
  end.

(** A form that was submitted with a new name only. *)
Definition rename (name : string) : update_body :=
  mkupdate (Some name) None None None None None.

End LocationRoutes.


(** *** [routes/items.js], [POST /items/update/:id] *)
Module UpdateRoute.
Import Database.

Inductive response :=
| RedirectEditForm (error : string)
| RedirectHome
| RedirectItem (id : Z).

(** The [itemData] that the route builds from the form, which has the
    fields of the form of [POST /items/create], and from the item as it
    is stored. *)
Definition itemData (body : Routes.create_body) (existingItem : row)
  : item_data :=
  mkdata
    (Routes.title body)
    (Some (JS.or_else JS.truthy_string (Routes.description body) ""))
    (Some (JS.or_else JS.truthy_string (Routes.category body) "Uncategorized"))
    (JS.or_null JS.truthy_string (Routes.location body))
    (Routes.location_id body)
    (JS.or_null JS.truthy_string (Routes.brand body))
    (Routes.is_on (Routes.is_homemade body))
    (Some (JS.Number (JS.Num (JS.number_or (Some (Routes.quantity body)) 1))))
    (Some (JS.or_else JS.truthy_string (Routes.unit body) "pcs"))
    (Some (JS.or_else JS.truthy_date (Routes.date_added body)
             (Item.date_added (item existingItem))))
    (JS.or_null JS.truthy_date (Routes.expiry_date body))
    (Routes.file body).

(** [POST /items/update/:id], after the upload middleware; the files of
    the images are not modelled. *)
Definition post_items_update (upload_error : bool) (id : Z)
    (body : Routes.create_body) (clk : clock) (db : database)
  : response * database :=
  if upload_error then (RedirectEditForm "upload", db)
  else
    match getItemById id db clk with
    | None => (RedirectHome, db)
    | Some existingItem =>
        match updateItem id (itemData body existingItem) clk db with
        | (Returned _, db') => (RedirectItem id, db')
        | (Thrown _, db') => (RedirectEditForm "save", db')
        end
    end.

(** An edit form on which only the title was changed: no date, no
    picture. *)
Definition retitle (title : string) : Routes.create_body :=
  Routes.mkcreate (Some title) None None None None None None (JS.Num 3)
    (Some "kg") None None None.

End UpdateRoute.


(** * Properties *)

(** ** Reading: the derived columns *)

Lemma select_item db clk i : Database.item (Database.select db clk i) = i.
Proof. reflexivity. Qed.

Lemma select_expiry_status db clk i :
  Database.expiry_status (Database.select db clk i)
  = Database.expiry_status_case clk i.
Proof. reflexivity. Qed.

Lemma select_days_until_expiry db clk i :
  Database.days_until_expiry (Database.select db clk i)
  = Database.days_until_expiry_case clk i.
Proof. reflexivity. Qed.

(** Every row [getItems] returns is the [SELECT] of some stored item. *)
Lemma getItems_rows f db clk r :
  In r (Database.getItems f db clk) ->
  exists i, r = Database.select db clk i.
Proof.
  unfold Database.getItems. intros H.
  apply in_map_iff in H. destruct H as [i [Hi _]]. exists i. now symmetry.
Qed.

Lemma getItemById_rows id db clk r :
  Database.getItemById id db clk = Some r ->
  exists i, r = Database.select db clk i /\ In i (items db) /\ Item.id i = id.
Proof.
  unfold Database.getItemById. intros H.
  destruct (find _ (items db)) as [i|] eqn:E; simpl in H; [|discriminate].
  injection H as <-. apply find_some in E. destruct E as [Hin Hid].
  exists i. repeat split; auto. now apply Z.eqb_eq.
Qed.

(** The [CASE] of [expiry_status], branch by branch. *)
Lemma expiry_status_case_cases clk i :
  match Item.expiry_date i with
  | None => Database.expiry_status_case clk i = "none"
  | Some e =>
      (e < today clk -> Database.expiry_status_case clk i = "expired")
      /\ (e = today clk -> Database.expiry_status_case clk i = "today")
      /\ (today clk < e <= today clk + 3 ->
          Database.expiry_status_case clk i = "soon")
      /\ (today clk + 3 < e -> Database.expiry_status_case clk i = "ok")
  end.
Proof.
  unfold Database.expiry_status_case, date_now_localtime,
    date_now_localtime_plus, Sql.date, today.
  destruct (Item.expiry_date i) as [e|]; simpl; [|reflexivity].
  set (t := localtime clk / ms_per_day).
  destruct (Z.ltb_spec e t), (Z.eqb_spec e t), (Z.leb_spec e (t + 3));
    repeat split; intros; try reflexivity; lia.
Qed.

(** C1. The derived [expiry_status] of a row, whether it comes from the
    item list or from the lookup of one item, is determined by the item's
    expiry date and the current local date: ["none"] without an expiry
    date, ["expired"] when the date is before today, ["today"] when it is
    today, ["soon"] when it is after today and at most three days ahead,
    ["ok"] when it is more than three days ahead. *)
Theorem expiry_status_rule :
  forall f id db clk r,
    In r (Database.getItems f db clk)
    \/ Database.getItemById id db clk = Some r ->
    match Item.expiry_date (Database.item r) with
    | None => Database.expiry_status r = "none"
    | Some e =>
        (e < today clk -> Database.expiry_status r = "expired")
        /\ (e = today clk -> Database.expiry_status r = "today")
        /\ (today clk < e <= today clk + 3 -> Database.expiry_status r = "soon")
        /\ (today clk + 3 < e -> Database.expiry_status r = "ok")
    end.
Proof.
  intros f id db clk r [H|H].
  - apply getItems_rows in H. destruct H as [i ->].
    rewrite select_item, select_expiry_status. apply expiry_status_case_cases.
  - apply getItemById_rows in H. destruct H as [i [-> _]].
    rewrite select_item, select_expiry_status. apply expiry_status_case_cases.
Qed.

Lemma expiry_status_rule_witness :
  Database.getItemById 1 Sample.store Sample.noon
  = Some (Database.select Sample.store Sample.noon Sample.chicken)
  /\ Database.expiry_status
       (Database.select Sample.store Sample.noon Sample.chicken) = "soon".
Proof.
  split; [reflexivity|].
  refine (proj1 (proj2 (proj2
    (expiry_status_rule Database.no_filters 1 Sample.store Sample.noon
       (Database.select Sample.store Sample.noon Sample.chicken)
       (or_intror eq_refl)))) _).
  vm_compute. split; [reflexivity | discriminate].
Defined.

(** The difference of the two Julian days, cast to an integer, is the
    quotient of the milliseconds that separate the clock from the midnight
    of the expiry date, rounded towards zero. *)
Lemma cast_integer_julianday_until e clk :
  Database.cast_integer (Database.julianday_until e clk)
  = Z.quot (e * ms_per_day - localtime clk) ms_per_day.
Proof.
  unfold Database.cast_integer, Database.julianday_until, ms_per_day.
  cbn [Qminus Qplus Qopp Qnum Qden inject_Z].
  rewrite Pos.mul_1_l. f_equal. lia.
Qed.

(** In terms of the calendar: the difference in days, less one as soon as
    the expiry date is ahead and the clock is past midnight. *)
Lemma days_until_expiry_calendar e clk :
  Z.quot (e * ms_per_day - localtime clk) ms_per_day
  = if (0 <? e - today clk) && (0 <? time_of_day clk)
    then e - today clk - 1
    else e - today clk.
Proof.
  unfold today, time_of_day.
  assert (Hms : 0 < ms_per_day) by (unfold ms_per_day; lia).
  pose proof (Z.div_mod (localtime clk) ms_per_day ltac:(lia)) as Hdm.
  pose proof (Z.mod_pos_bound (localtime clk) ms_per_day Hms) as Hb.
  set (t := localtime clk mod ms_per_day) in *.
  set (n := localtime clk / ms_per_day) in *.
  replace (e * ms_per_day - localtime clk)
    with ((e - n) * ms_per_day - t) by lia.
  set (d := e - n).
  pose proof (Z.quot_rem' (d * ms_per_day - t) ms_per_day) as Hq.
  destruct (Z.ltb_spec 0 d) as [Hd|Hd]; cbn [andb].
  - assert (0 <= d * ms_per_day - t) by nia.
    pose proof (Z.rem_bound_pos (d * ms_per_day - t) ms_per_day
                  ltac:(lia) Hms) as Hr.
    destruct (Z.ltb_spec 0 t); nia.
  - assert (d * ms_per_day - t <= 0) by nia.
    pose proof (Z.rem_nonpos (d * ms_per_day - t) ms_per_day
                  ltac:(lia) ltac:(lia)) as Hr.
    pose proof (Z.rem_bound_abs (d * ms_per_day - t) ms_per_day
                  ltac:(lia)) as Ha.
    nia.
Qed.

(** The derived [days_until_expiry]: null exactly without an expiry date;
    the calendar difference for a date that is today or past, or at
    midnight; one day less than the calendar difference otherwise. *)
Lemma days_until_expiry_case_value clk i :
  Database.days_until_expiry_case clk i
  = match Item.expiry_date i with
    | None => None
    | Some e =>
        Some (if (0 <? e - today clk) && (0 <? time_of_day clk)
              then e - today clk - 1
              else e - today clk)
    end.
Proof.
  unfold Database.days_until_expiry_case.
  destruct (Item.expiry_date i) as [e|]; [|reflexivity].
  now rewrite cast_integer_julianday_until, days_until_expiry_calendar.
Qed.

(** C7. At noon, an item that expires two calendar days ahead is given
    [days_until_expiry = 1], not 2: the subtraction keeps the time of day
    of the clock, and the cast drops the fraction. *)
Theorem days_until_expiry_at_noon :
  exists r,
    Database.getItemById 1 Sample.store Sample.noon = Some r
    /\ In r (Database.getItems Database.no_filters Sample.store Sample.noon)
    /\ Item.expiry_date (Database.item r) = Some (today Sample.noon + 2)
    /\ Database.days_until_expiry r = Some 1.
Proof.
  exists (Database.select Sample.store Sample.noon Sample.chicken).
  split; [reflexivity|]. split; [|split; reflexivity].
  vm_compute. left. reflexivity.
Qed.

(** ** Deleting an item that has consumption history *)

(** With foreign keys enforced, a row of [consumption_history] that
    references the item makes [deleteItem] throw, and the store is left as
    it was. *)
Lemma deleteItem_referenced id db i c :
  foreign_keys db = true ->
  In i (items db) -> Item.id i = id ->
  In c (consumption_history db) -> Consumption.item_id c = Some id ->
  Database.deleteItem id db
  = (Thrown (NotNullFailed "consumption_history.item_id"), db).
Proof.
  intros Hfk Hi Hid Hc Href. unfold Database.deleteItem. rewrite Hfk.
  destruct (filter _ (items db)) as [|x l] eqn:Ef.
  - assert (Hin : In i (filter (fun i0 => Item.id i0 =? id) (items db))).
    { apply filter_In. split; auto. now apply Z.eqb_eq. }
    rewrite Ef in Hin. destruct Hin.
  - destruct (forallb _ _) eqn:Eall; [|reflexivity].
    rewrite forallb_forall in Eall.
    assert (Hr : Database.references id c = true).
    { unfold Database.references. now rewrite Href, Z.eqb_refl. }
    assert (Hin : In (Database.on_delete_set_null id c)
                    (map (Database.on_delete_set_null id)
                       (filter (Database.references id)
                          (consumption_history db))))
      by (apply in_map, filter_In; auto).
    apply Eall in Hin. unfold Database.on_delete_set_null in Hin.
    rewrite Hr in Hin. discriminate Hin.
Qed.

(** Without the enforcement, [deleteItem] removes the item and leaves the
    history as it is: the records keep the id of the item that is gone. *)
Lemma deleteItem_unenforced id db :
  foreign_keys db = false ->
  consumption_history (snd (Database.deleteItem id db))
  = consumption_history db.
Proof.
  intros Hfk. unfold Database.deleteItem. rewrite Hfk.
  now destruct (filter _ (items db)).
Qed.

(** C5. Deleting the item of the sample store that has one consumption
    record does not leave that record with a null [item_id]. While foreign
    keys are enforced the statement throws on the [NOT NULL] of
    [consumption_history.item_id]: the item and the record stay as they
    were and the delete route answers with its error redirect. Once the
    connection was reopened by a save, the item is deleted and the record
    still carries the id of the deleted item. *)
Theorem deleteItem_with_history :
  Database.deleteItem 1 Sample.store_with_history
  = (Thrown (NotNullFailed "consumption_history.item_id"),
     Sample.store_with_history)
  /\ Routes.post_items_delete 1 Sample.noon Sample.store_with_history
     = (Routes.RedirectHome, Sample.store_with_history)
  /\ (exists res db',
        Database.deleteItem 1 Sample.store_with_history_saved
        = (Returned res, db')
        /\ Database.getItemById 1 db' Sample.noon = None
        /\ map Consumption.item_id (consumption_history db') = [Some 1]).
Proof.
  assert (H : Database.deleteItem 1 Sample.store_with_history
              = (Thrown (NotNullFailed "consumption_history.item_id"),
                 Sample.store_with_history)).
  { apply (deleteItem_referenced 1 _ Sample.chicken Sample.used_chicken);
      simpl; auto. }
  split; [exact H|]. split.
  - unfold Routes.post_items_delete. rewrite H. reflexivity.
  - eexists. eexists. split; [vm_compute; reflexivity|].
    split; reflexivity.
Qed.

(** ** The order of the item list *)

Section Ordering.

Lemma string_leb_iff a b :
  String.leb a b = true <-> a = b \/ String_as_OT.lt a b.
Proof.
  unfold String.leb. destruct (String.compare a b) eqn:E.
  - apply String_as_OT.cmp_eq in E. tauto.
  - apply String_as_OT.cmp_lt in E. tauto.
  - split; [discriminate|]. intros [->|H].
    + assert (String_as_OT.cmp b b = Eq) by now apply String_as_OT.cmp_eq.
      unfold String_as_OT.cmp in *. congruence.
    + apply String_as_OT.cmp_lt in H. unfold String_as_OT.cmp in *.
      congruence.
Qed.

Lemma string_leb_trans a b c :
  String.leb a b = true -> String.leb b c = true -> String.leb a c = true.
Proof.
  rewrite !string_leb_iff. intros [->|H1] [->|H2]; auto.
  right. eapply String_as_OT.lt_trans; eauto.
Qed.








End Ordering.



(** ** The [expiryStatus] filter *)

Lemma holds_and3 a b : Sql.holds (Sql.and3 a b) = Sql.holds a && Sql.holds b.
Proof. destruct a as [[|]|], b as [[|]|]; reflexivity. Qed.

(** A row passes [WHERE 1=1 AND c1 AND ...] when every condition holds. *)
Lemma where_clause_holds conds i :
  Sql.holds (Database.where_clause conds i)
  = forallb (fun c => Sql.holds (c i)) conds.
Proof.
  unfold Database.where_clause.
  assert (G : forall acc,
             Sql.holds (fold_left (fun a c => Sql.and3 a (c i)) conds acc)
             = Sql.holds acc && forallb (fun c => Sql.holds (c i)) conds).
  { induction conds as [|c conds IH]; intros acc; simpl.
    - now rewrite andb_true_r.
    - rewrite IH, holds_and3, andb_assoc. reflexivity. }
  now rewrite G.
Qed.











(** ** Use and discard: the consumption record and the new quantity *)

Lemma Math_max_0_nonneg x : (0 <= JS.Math_max 0 x)%Q.
Proof.
  unfold JS.Math_max. destruct (Qle_bool 0 x) eqn:E.
  - now apply Qle_bool_iff.
  - apply Qle_refl.
Qed.

Lemma Math_max_Qmax a b : (JS.Math_max a b == Qmax a b)%Q.
Proof.
  unfold JS.Math_max. destruct (Qle_bool a b) eqn:E.
  - apply Qle_bool_iff in E. symmetry. now apply Q.max_r.
  - assert (H : ~ (a <= b)%Q) by (rewrite <- Qle_bool_iff; congruence).
    symmetry. apply Q.max_l. apply Qnot_le_lt in H. now apply Qlt_le_weak.
Qed.

(** The default of 1 is never replaced by, and never yields, zero. *)
Lemma number_or_1_nonzero n : ~ (JS.number_or n 1 == 0)%Q.
Proof.
  unfold JS.number_or, JS.truthy_number.
  destruct n as [[|q]|]; try discriminate.
  destruct (Qeq_bool q 0) eqn:E; cbn [negb]; [discriminate|].
  now apply Qeq_bool_neq.
Qed.

Lemma number_or_falsy q : (q == 0)%Q -> JS.number_or (Some (JS.Num q)) 1 = 1%Q.
Proof.
  intros H. unfold JS.number_or, JS.truthy_number.
  now rewrite (Qeq_eq_bool _ _ H).
Qed.

Lemma number_or_truthy q :
  ~ (q == 0)%Q -> JS.number_or (Some (JS.Num q)) 1 = q.
Proof.
  intros H. unfold JS.number_or, JS.truthy_number.
  destruct (Qeq_bool q 0) eqn:E; [|reflexivity].
  now apply Qeq_bool_iff in E.
Qed.

(** A row passes the constraints of [items] when each of them holds. *)
Lemma items_constraints_None db r :
  Database.items_constraints db r = None <->
  match Item.is_homemade r with
  | Some h => (h =? 0) || (h =? 1)
  | None => true
  end = true
  /\ Qle_bool 0 (Item.quantity r) = true
  /\ Database.mem_string (Item.unit r) Database.units = true
  /\ match Item.location_id r with
     | Some lid =>
         negb (foreign_keys db)
         || existsb (fun l => Location.id l =? lid) (locations db)
     | None => true
     end = true.
Proof.
  unfold Database.items_constraints.
  destruct (match Item.is_homemade r with
            | Some h => (h =? 0) || (h =? 1)
            | None => true
            end); cbn [negb]; [|intuition discriminate].
  destruct (Qle_bool 0 (Item.quantity r)); cbn [negb];
    [|intuition discriminate].
  destruct (Database.mem_string (Item.unit r) Database.units); cbn [negb];
    [|intuition discriminate].
  destruct (Item.location_id r) as [lid|]; [|tauto].
  destruct (negb (foreign_keys db) || existsb _ (locations db));
    intuition discriminate.
Qed.

(** The constraints of [items] look at the store only for its locations,
    and at the row only for the four constrained columns. *)
Lemma items_constraints_set_quantity db db' q ts r :
  locations db' = locations db ->
  foreign_keys db' = foreign_keys db ->
  Database.items_constraints db r = None ->
  Qle_bool 0 q = true ->
  Database.items_constraints db'
    (Item.set_updated_at ts (Item.set_quantity q r)) = None.
Proof.
  rewrite !items_constraints_None. intros -> -> H Hq.
  cbn [Item.set_updated_at Item.set_quantity Item.is_homemade Item.quantity
       Item.unit Item.location_id]. tauto.
Qed.

Lemma consistent_row db r :
  consistent db = true -> In r (items db) ->
  Database.items_constraints db r = None.
Proof.
  unfold consistent. rewrite forallb_forall. intros H Hin.
  specialize (H r Hin). now destruct (Database.items_constraints db r).
Qed.

(** An [UPDATE] whose new rows pass the constraints rewrites exactly the
    rows of that id. *)
Lemma update_rows_returns db id set rows :
  (forall r, In r rows -> Item.id r = id ->
             Database.items_constraints db (set r) = None) ->
  exists n,
    Database.update_rows db id set rows
    = Returned (map (fun r => if Item.id r =? id then set r else r) rows, n).
Proof.
  induction rows as [|r rows IH]; intros H; simpl.
  - now exists 0.
  - destruct IH as [n IH]; [intros; apply H; simpl; auto|].
    rewrite IH. destruct (Z.eqb_spec (Item.id r) id) as [E|E].
    + rewrite (H r (or_introl eq_refl) E). now exists (n + 1).
    + now exists n.
Qed.

Lemma find_map_same_id id (set : Item.t -> Item.t) rows :
  (forall r, Item.id (set r) = Item.id r) ->
  find (fun i => Item.id i =? id)
    (map (fun r => if Item.id r =? id then set r else r) rows)
  = option_map set (find (fun i => Item.id i =? id) rows).
Proof.
  intros Hid. induction rows as [|r rows IH]; simpl; [reflexivity|].
  destruct (Z.eqb_spec (Item.id r) id) as [E|E].
  - rewrite Hid, E, Z.eqb_refl. reflexivity.
  - apply Z.eqb_neq in E. rewrite E. exact IH.
Qed.

(** What [logConsumption] followed by [updateItemQuantity] writes for an
    item that exists, when the amount logged is positive and the new
    quantity is not negative. *)
Lemma log_then_set_quantity id i clk db used action notes q :
  consistent db = true ->
  find (fun i => Item.id i =? id) (items db) = Some i ->
  Qle_bool used 0 = false ->
  Database.mem_string action Database.actions = true ->
  Qle_bool 0 q = true ->
  exists res,
    (Database.logConsumption id used action notes clk ;;;
     Database.updateItemQuantity id q clk) db
    = (Returned res,
       let rowid :=
         Database.next_rowid (seq_consumption_history db)
           (map Consumption.id (consumption_history db)) in
       mkdb (locations db)
         (map (fun r =>
                 if Item.id r =? id
                 then Item.set_updated_at (datetime_now_localtime clk)
                        (Item.set_quantity q r)
                 else r)
            (items db))
         (consumption_history db
          ++ [Consumption.mk rowid (Some id) (Item.title i) used (Item.unit i)
                action (Some notes) (datetime_now_localtime clk)])
         (seq_items db) rowid rowid (foreign_keys db)).
Proof.
  intros Hc Hfind Hused Haction Hq.
  unfold bind, Database.logConsumption, Database.getItemById.
  rewrite Hfind. cbn [option_map]. rewrite Hused, Haction. cbn [negb].
  unfold Database.updateItemQuantity, Database.run_update.
  cbn [items locations consumption_history seq_items
       seq_consumption_history last_insert_rowid].
  match goal with
  | |- context [Database.update_rows ?d id ?s (items db)] =>
      destruct (update_rows_returns d id s (items db)) as [n Hn]
  end.
  { intros r Hr _. apply items_constraints_set_quantity with (db := db);
      auto using consistent_row. }
  rewrite Hn. eexists. reflexivity.
Qed.

(** A non-positive amount is refused by [CHECK(quantity_used > 0)] before
    anything is written. *)
Lemma log_then_set_quantity_refused id i clk db used action notes q :
  find (fun i => Item.id i =? id) (items db) = Some i ->
  Qle_bool used 0 = true ->
  (Database.logConsumption id used action notes clk ;;;
   Database.updateItemQuantity id q clk) db
  = (Thrown (CheckFailed "quantity_used"), db).
Proof.
  intros Hfind Hused.
  unfold bind, Database.logConsumption, Database.getItemById.
  rewrite Hfind. cbn [option_map]. now rewrite Hused.
Qed.

Lemma getItemById_find id db clk r :
  Database.getItemById id db clk = Some r ->
  exists i,
    find (fun i => Item.id i =? id) (items db) = Some i
    /\ r = Database.select db clk i /\ Item.id i = id.
Proof.
  unfold Database.getItemById. intros H.
  destruct (find _ (items db)) as [i|] eqn:E; [|discriminate].
  injection H as <-. exists i. repeat split.
  apply find_some in E. now apply Z.eqb_eq.
Qed.

(** C3, as the code has it. On a store that satisfies its constraints:
    when the item does not exist, [POST /items/use/:id] answers 404 and
    writes nothing. When it exists, with [a] the amount of the request (1
    in place of a zero, missing or unreadable amount, the submitted number
    otherwise): if [a] is positive, exactly one record is appended, with
    action ["used"], [quantity_used = a] unclamped and the item's title and
    unit, and the item's quantity becomes [max(0, quantity - a)], which is
    not negative; if [a] is negative, [CHECK(quantity_used > 0)] refuses
    the record, nothing is written and the answer is the failure one. *)
Theorem use_appends_record_and_reduces :
  forall id body clk db,
    consistent db = true ->
    match Database.getItemById id db clk with
    | None =>
        Routes.post_items_use id body clk db = (Routes.Json 404 false, db)
    | Some r =>
        let a := JS.number_or (Some (Routes.amount body)) 1 in
        let q := Item.quantity (Database.item r) in
        (forall n, Routes.amount body = JS.Num n -> ~ (n == 0)%Q -> a = n)
        /\ ((0 < a)%Q ->
            exists db' c r',
              Routes.post_items_use id body clk db
              = (if Routes.json body
                 then Routes.JsonUsed (JS.Math_max 0 (q - a))
                        (Qeq_bool (JS.Math_max 0 (q - a)) 0)
                 else Routes.RedirectReturn, db')
              /\ consumption_history db' = consumption_history db ++ [c]
              /\ Consumption.item_id c = Some id
              /\ Consumption.action c = "used"
              /\ Consumption.quantity_used c = a
              /\ Consumption.item_title c = Item.title (Database.item r)
              /\ Consumption.unit c = Item.unit (Database.item r)
              /\ Database.getItemById id db' clk = Some r'
              /\ Item.quantity (Database.item r') = JS.Math_max 0 (q - a)
              /\ (Item.quantity (Database.item r') == Qmax 0 (q - a))%Q
              /\ (0 <= Item.quantity (Database.item r'))%Q)
        /\ ((a < 0)%Q ->
            Routes.post_items_use id body clk db
            = (if Routes.json body then Routes.Json 500 false
               else Routes.RedirectHome, db))
    end.
Proof.
  intros id body clk db Hc.
  destruct (Database.getItemById id db clk) as [r|] eqn:Hget.
  2:{ unfold Routes.post_items_use. now rewrite Hget. }
  destruct (getItemById_find _ _ _ _ Hget) as [i [Hfind [-> Hid]]].
  cbn zeta. rewrite select_item.
  split; [|split].
  - intros n Hn Hnz. rewrite Hn. now apply number_or_truthy.
  - intros Ha.
    set (a := JS.number_or (Some (Routes.amount body)) 1) in *.
    set (newq := JS.Math_max 0 (Item.quantity i - a)).
    assert (Hused : Qle_bool a 0 = false).
    { destruct (Qle_bool a 0) eqn:E; [|reflexivity].
      apply Qle_bool_iff in E. lra. }
    assert (Hq : Qle_bool 0 newq = true)
      by (apply Qle_bool_iff, Math_max_0_nonneg).
    destruct (log_then_set_quantity id i clk db a "used"
                (JS.or_else JS.truthy_string (Routes.notes body) "") newq
                Hc Hfind Hused eq_refl Hq) as [res Hrun].
    eexists. eexists. eexists.
    split.
    { unfold Routes.post_items_use. rewrite Hget.
      cbn zeta. rewrite select_item, Hid.
      fold a. fold newq. rewrite Hrun. reflexivity. }
    cbn [consumption_history Consumption.item_id Consumption.action
         Consumption.quantity_used Consumption.item_title Consumption.unit].
    repeat (split; [reflexivity|]).
    split.
    { unfold Database.getItemById. cbn [items].
      rewrite find_map_same_id by reflexivity.
      rewrite Hfind. reflexivity. }
    rewrite select_item.
    cbn [Item.set_updated_at Item.set_quantity Item.quantity].
    split; [reflexivity|].
    split; [apply Math_max_Qmax | apply Math_max_0_nonneg].
  - intros Ha.
    set (a := JS.number_or (Some (Routes.amount body)) 1) in *.
    assert (Hused : Qle_bool a 0 = true)
      by (apply Qle_bool_iff; lra).
    unfold Routes.post_items_use. rewrite Hget.
    cbn zeta. rewrite select_item, Hid. fold a.
    rewrite (log_then_set_quantity_refused id i clk db a _ _ _ Hfind Hused).
    reflexivity.
Qed.

Lemma use_appends_record_and_reduces_witness :
  consistent Sample.store = true
  /\ exists db' c r',
       Routes.post_items_use 1 Sample.use_one Sample.noon Sample.store
       = (Routes.JsonUsed
            (JS.Math_max 0 (3 - 1)) (Qeq_bool (JS.Math_max 0 (3 - 1)) 0), db')
       /\ consumption_history db' = [c]
       /\ Consumption.action c = "used"
       /\ Consumption.quantity_used c = 1%Q
       /\ Database.getItemById 1 db' Sample.noon = Some r'
       /\ (Item.quantity (Database.item r') == 2)%Q.
Proof.
  split; [reflexivity|].
  pose proof (use_appends_record_and_reduces 1 Sample.use_one Sample.noon
                Sample.store eq_refl) as H.
  change (Database.getItemById 1 Sample.store Sample.noon)
    with (Some (Database.select Sample.store Sample.noon Sample.chicken)) in H.
  cbv beta iota zeta in H. destruct H as [_ [H _]].
  destruct (H eq_refl)
    as [db' [c [r' [H1 [H2 [_ [H4 [H5 [_ [_ [H8 [H9 _]]]]]]]]]]]].
  exists db', c, r'.
  split; [exact H1|]. split; [exact H2|]. split; [exact H4|].
  split; [exact H5|]. split; [exact H8|].
  rewrite H9. reflexivity.
Defined.

(** C3 as stated fails for a negative amount: using [-1] of the chicken
    appends no record at all. *)
Lemma use_negative_amount_appends_nothing :
  ~ (exists c,
       consumption_history
         (snd (Routes.post_items_use 1 Sample.use_minus_one Sample.noon
                 Sample.store))
       = consumption_history Sample.store ++ [c]
       /\ Consumption.action c = "used"
       /\ Consumption.quantity_used c = (-1)%Q).
Proof.
  intros [c [H _]]. vm_compute in H. discriminate.
Qed.

(** C4, as the code has it. On a store that satisfies its constraints, for
    an item that exists and a request to discard it as ["discarded"] or
    ["expired"]: if the item's quantity is positive, one record is appended
    with that action, [quantity_used] equal to the whole quantity the item
    had, and the item's title and unit, and the item's quantity becomes 0;
    if the quantity is already 0, [CHECK(quantity_used > 0)] refuses the
    record, nothing is written and the answer is the failure one. *)
Theorem discard_appends_record_and_empties :
  forall id body clk db r kind,
    consistent db = true ->
    Database.getItemById id db clk = Some r ->
    In kind ["discarded"; "expired"] ->
    Routes.action body = Some kind ->
    let q := Item.quantity (Database.item r) in
    (0 <= q)%Q
    /\ ((0 < q)%Q ->
        exists db' c r',
          Routes.post_items_discard id body clk db
          = (if Routes.json body then Routes.Json 200 true
             else Routes.RedirectReturn, db')
          /\ consumption_history db' = consumption_history db ++ [c]
          /\ Consumption.item_id c = Some id
          /\ Consumption.action c = kind
          /\ Consumption.quantity_used c = q
          /\ Consumption.item_title c = Item.title (Database.item r)
          /\ Consumption.unit c = Item.unit (Database.item r)
          /\ Database.getItemById id db' clk = Some r'
          /\ Item.quantity (Database.item r') = 0%Q)
    /\ ((q == 0)%Q ->
        Routes.post_items_discard id body clk db
        = (if Routes.json body then Routes.Json 500 false
           else Routes.RedirectHome, db)).
Proof.
  intros id body clk db r kind Hc Hget Hkind Hact.
  destruct (getItemById_find _ _ _ _ Hget) as [i [Hfind [-> Hid]]].
  cbn zeta. rewrite select_item.
  assert (Haction : JS.or_else JS.truthy_string (Routes.action body)
                      "discarded" = kind).
  { rewrite Hact. simpl in Hkind. destruct Hkind as [<-|[<-|[]]]; reflexivity. }
  assert (Hmem : Database.mem_string kind Database.actions = true).
  { simpl in Hkind. destruct Hkind as [<-|[<-|[]]]; reflexivity. }
  assert (Hq0 : (0 <= Item.quantity i)%Q).
  { apply find_some in Hfind. destruct Hfind as [Hin _].
    pose proof (consistent_row db i Hc Hin) as Hi.
    apply items_constraints_None in Hi.
    apply Qle_bool_iff. tauto. }
  split; [exact Hq0|]. split.
  - intros Hq.
    assert (Hused : Qle_bool (Item.quantity i) 0 = false).
    { destruct (Qle_bool (Item.quantity i) 0) eqn:E; [|reflexivity].
      apply Qle_bool_iff in E. lra. }
    destruct (log_then_set_quantity id i clk db (Item.quantity i) kind
                (JS.or_else JS.truthy_string (Routes.notes body) "") 0
                Hc Hfind Hused Hmem eq_refl) as [res Hrun].
    eexists. eexists. eexists.
    split.
    { unfold Routes.post_items_discard. rewrite Hget.
      cbn zeta. rewrite select_item, Hid, Haction, Hrun. reflexivity. }
    cbn [consumption_history Consumption.item_id Consumption.action
         Consumption.quantity_used Consumption.item_title Consumption.unit].
    repeat (split; [reflexivity|]).
    split.
    { unfold Database.getItemById. cbn [items].
      rewrite find_map_same_id by reflexivity.
      rewrite Hfind. reflexivity. }
    reflexivity.
  - intros Hq.
    assert (Hused : Qle_bool (Item.quantity i) 0 = true)
      by (apply Qle_bool_iff; lra).
    unfold Routes.post_items_discard. rewrite Hget.
    cbn zeta. rewrite select_item, Hid, Haction.
    rewrite (log_then_set_quantity_refused id i clk db _ _ _ _ Hfind Hused).
    reflexivity.
Qed.

Lemma discard_appends_record_and_empties_witness :
  consistent Sample.store = true
  /\ exists db' c r',
       Routes.post_items_discard 1 Sample.discard_it Sample.noon Sample.store
       = (Routes.Json 200 true, db')
       /\ consumption_history db' = [c]
       /\ Consumption.action c = "discarded"
       /\ Consumption.quantity_used c = 3%Q
       /\ Database.getItemById 1 db' Sample.noon = Some r'
       /\ Item.quantity (Database.item r') = 0%Q.
Proof.
  split; [reflexivity|].
  destruct (discard_appends_record_and_empties 1 Sample.discard_it Sample.noon
              Sample.store
              (Database.select Sample.store Sample.noon Sample.chicken)
              "discarded" eq_refl eq_refl (or_introl eq_refl) eq_refl)
    as [_ [H _]].
  destruct (H eq_refl)
    as [db' [c [r' [H1 [H2 [_ [H4 [H5 [_ [_ [H8 H9]]]]]]]]]]].
  exists db', c, r'.
  split; [exact H1|]. split; [exact H2|]. split; [exact H4|].
  split; [exact H5|]. split; [exact H8|exact H9].
Defined.

(** C4 as stated fails for an item whose quantity is 0: discarding the
    empty jar appends no record. *)
Lemma discard_of_empty_item_appends_nothing :
  ~ (exists c,
       consumption_history
         (snd (Routes.post_items_discard 3 Sample.discard_it Sample.noon
                 Sample.store))
       = consumption_history Sample.store ++ [c]
       /\ Consumption.quantity_used c = 0%Q).
Proof.
  intros [c [H _]]. vm_compute in H. discriminate.
Qed.

(** ** Creating and updating: what is stored *)

Lemma insert_values_constraints db d clk rowid title :
  acceptable db d = true ->
  Database.items_constraints db (Database.insert_values d clk rowid title)
  = None.
Proof.
  unfold acceptable. rewrite !andb_true_iff. intros [[Hu Hq] Hl].
  apply items_constraints_None.
  cbn [Database.insert_values Item.is_homemade Item.quantity Item.unit
       Item.location_id].
  repeat split; auto.
  - now destruct (Database.d_is_homemade d).
  - destruct (JS.or_null JS.truthy_int (Database.d_location_id d));
      [rewrite Hl; apply orb_true_r | reflexivity].
Qed.

Lemma update_values_constraints db d clk title date_added old :
  acceptable db d = true ->
  Database.items_constraints db
    (Database.update_values d clk title date_added old) = None.
Proof.
  unfold acceptable. rewrite !andb_true_iff. intros [[Hu Hq] Hl].
  apply items_constraints_None.
  cbn [Database.update_values Item.is_homemade Item.quantity Item.unit
       Item.location_id].
  repeat split; auto.
  - now destruct (Database.d_is_homemade d).
  - destruct (JS.or_null JS.truthy_int (Database.d_location_id d));
      [rewrite Hl; apply orb_true_r | reflexivity].
Qed.

(** The key given to a new row is larger than every key of the table. *)
Lemma next_rowid_above seq ids x :
  In x ids -> x < Database.next_rowid seq ids.
Proof.
  unfold Database.next_rowid. induction ids as [|y ids IH]; simpl.
  - tauto.
  - intros [->|H]; [lia|]. specialize (IH H). lia.
Qed.

Lemma find_new_row rows r k :
  Item.id r = k ->
  (forall i, In i rows -> Item.id i < k) ->
  find (fun i => Item.id i =? k) (rows ++ [r]) = Some r.
Proof.
  intros <- H. induction rows as [|x rows IH]; simpl.
  - now rewrite Z.eqb_refl.
  - assert (Hx : Item.id x < Item.id r) by (apply H; simpl; auto).
    apply Z.lt_neq, Z.eqb_neq in Hx. rewrite Hx.
    apply IH. intros; apply H; simpl; auto.
Qed.

(** [createItem] on admissible values returns, and the new row can be read
    back under the key it returns. *)
Lemma createItem_returns d clk db title :
  Database.d_title d = Some title ->
  acceptable db d = true ->
  let rowid := Database.next_rowid (seq_items db) (map Item.id (items db)) in
  exists db',
    Database.createItem d clk db = (Returned (mkrun rowid 1), db')
    /\ Database.getItemById rowid db' clk
       = Some (Database.select db' clk
                 (Database.insert_values d clk rowid title)).
Proof.
  intros Ht Hacc rowid. unfold Database.createItem. rewrite Ht.
  fold rowid. rewrite (insert_values_constraints db d clk rowid title Hacc).
  eexists. split; [reflexivity|].
  unfold Database.getItemById. cbn [items].
  rewrite (find_new_row _ _ rowid); [reflexivity|reflexivity|].
  intros i Hi. apply next_rowid_above. now apply in_map.
Qed.

(** ** Creating an item with an empty title *)

(** A form without a title field is refused, and nothing is written: sql.js
    does not bind [undefined]. *)
Lemma create_without_title_refused body clk db :
  Routes.title body = None ->
  Routes.post_items_create false body clk db
  = (Routes.RedirectAddForm "save", db).
Proof.
  intros H. unfold Routes.post_items_create, Database.createItem.
  cbn [Routes.itemData Database.d_title]. now rewrite H.
Qed.

(** An empty title is a title like any other to [createItem]. *)
Lemma create_with_empty_title_returns d clk db :
  Database.d_title d = Some "" ->
  acceptable db d = true ->
  exists res db' r,
    Database.createItem d clk db = (Returned res, db')
    /\ Database.getItemById (lastInsertRowid res) db' clk = Some r
    /\ Item.title (Database.item r) = "".
Proof.
  intros Ht Hacc.
  destruct (createItem_returns d clk db "" Ht Hacc) as [db' [Hc Hg]].
  eexists. exists db'. eexists. split; [exact Hc|]. split; [exact Hg|].
  reflexivity.
Qed.

(** C6. Submitting the create form with an empty title is not rejected:
    [POST /items/create] answers with the redirect of a successful save,
    and the store holds one more item, whose title is empty. *)
Theorem create_with_empty_title_persists :
  exists db' r,
    Routes.post_items_create false Sample.untitled_form Sample.noon Sample.store
    = (Routes.RedirectAfterCreate 4, db')
    /\ List.length (items db') = S (List.length (items Sample.store))
    /\ Database.getItemById 4 db' Sample.noon = Some r
    /\ Item.title (Database.item r) = "".
Proof.
  eexists. eexists. split; [vm_compute; reflexivity|].
  split; [reflexivity|]. split; reflexivity.
Qed.

(** Whenever [createItem] returns, it has stored the values it bound. *)
Lemma createItem_returned d clk db res db' :
  Database.createItem d clk db = (Returned res, db') ->
  exists title,
    Database.d_title d = Some title
    /\ Database.getItemById (lastInsertRowid res) db' clk
       = Some (Database.select db' clk
                 (Database.insert_values d clk (lastInsertRowid res) title)).
Proof.
  unfold Database.createItem. intros H.
  destruct (Database.d_title d) as [title|]; [|discriminate].
  set (rowid := Database.next_rowid (seq_items db) (map Item.id (items db)))
    in *.
  destruct (Database.items_constraints db _); [discriminate|].
  injection H as <- <-. exists title. split; [reflexivity|].
  unfold Database.getItemById. cbn [items lastInsertRowid].
  rewrite (find_new_row _ _ rowid); [reflexivity|reflexivity|].
  intros i Hi. apply next_rowid_above. now apply in_map.
Qed.

(** [updateItem] on admissible values returns, and the row of that id
    reads back with the values bound. *)
Lemma updateItem_returns id d clk db title date_added old :
  Database.d_title d = Some title ->
  Database.d_date_added d = Some date_added ->
  acceptable db d = true ->
  find (fun i => Item.id i =? id) (items db) = Some old ->
  exists res db',
    Database.updateItem id d clk db = (Returned res, db')
    /\ Database.getItemById id db' clk
       = Some (Database.select db' clk
                 (Database.update_values d clk title date_added old)).
Proof.
  intros Ht Hd Hacc Hfind.
  unfold Database.updateItem, Database.run_update. rewrite Ht, Hd.
  destruct (update_rows_returns db id
              (Database.update_values d clk title date_added) (items db))
    as [n Hn].
  { intros r _ _. now apply update_values_constraints. }
  rewrite Hn. eexists. eexists. split; [reflexivity|].
  unfold Database.getItemById. cbn [items].
  rewrite find_map_same_id by reflexivity. now rewrite Hfind.
Qed.

(** Whenever [updateItem] returns, a row of that id reads back with the
    values bound. *)
Lemma updateItem_returned id d clk db res db' r :
  Database.updateItem id d clk db = (Returned res, db') ->
  Database.getItemById id db' clk = Some r ->
  exists title date_added old,
    Database.d_title d = Some title
    /\ Database.d_date_added d = Some date_added
    /\ r = Database.select db' clk
             (Database.update_values d clk title date_added old).
Proof.
  unfold Database.updateItem, Database.run_update. intros H Hget.
  destruct (Database.d_title d) as [title|]; [|discriminate].
  destruct (Database.d_date_added d) as [date_added|]; [|discriminate].
  destruct (Database.update_rows db id _ (items db)) as [[rs n]|e] eqn:Hu;
    [|discriminate].
  injection H as <- <-.
  exists title, date_added.
  assert (Hrs : rs = map (fun r => if Item.id r =? id
                                   then Database.update_values d clk title
                                          date_added r
                                   else r) (items db)).
  { clear Hget. revert rs n Hu.
    induction (items db) as [|x l IH]; simpl; intros rs n Hu.
    - now injection Hu as <- <-.
    - destruct (Item.id x =? id).
      + destruct (Database.items_constraints db _); [discriminate|].
        destruct (Database.update_rows db id _ l) as [[rs' n']|];
          [|discriminate].
        injection Hu as <- <-. f_equal. now apply (IH rs' n').
      + destruct (Database.update_rows db id _ l) as [[rs' n']|];
          [|discriminate].
        injection Hu as <- <-. f_equal. now apply (IH rs' n'). }
  unfold Database.getItemById in Hget. cbn [items] in Hget. subst rs.
  rewrite find_map_same_id in Hget by reflexivity.
  destruct (find _ (items db)) as [old|]; [|discriminate].
  injection Hget as <-. now exists old.
Qed.

(** C9. When the homemade flag is set, creating the item, or updating an
    existing one, with admissible values stores no brand, whatever brand
    was supplied: the operation returns, and the row read back has
    [is_homemade = 1] and [brand] null. *)
Theorem homemade_stores_no_brand :
  forall d clk db title,
    Database.d_is_homemade d = true ->
    Database.d_title d = Some title ->
    acceptable db d = true ->
    (exists res db' r,
       Database.createItem d clk db = (Returned res, db')
       /\ Database.getItemById (lastInsertRowid res) db' clk = Some r
       /\ Item.is_homemade (Database.item r) = Some 1
       /\ Item.brand (Database.item r) = None)
    /\ (forall id date_added old,
          Database.d_date_added d = Some date_added ->
          find (fun i => Item.id i =? id) (items db) = Some old ->
          exists res db' r,
            Database.updateItem id d clk db = (Returned res, db')
            /\ Database.getItemById id db' clk = Some r
            /\ Item.is_homemade (Database.item r) = Some 1
            /\ Item.brand (Database.item r) = None).
Proof.
  intros d clk db title Hh Ht Hacc. split.
  - destruct (createItem_returns d clk db title Ht Hacc) as [db' [Hc Hg]].
    eexists. exists db'. eexists. split; [exact Hc|].
    split; [exact Hg|]. rewrite select_item.
    cbn [Database.insert_values Item.is_homemade Item.brand].
    rewrite Hh. split; reflexivity.
  - intros id date_added old Hd Hfind.
    destruct (updateItem_returns id d clk db title date_added old
                Ht Hd Hacc Hfind) as [res [db' [Hu Hg]]].
    exists res, db'. eexists. split; [exact Hu|].
    split; [exact Hg|]. rewrite select_item.
    cbn [Database.update_values Item.is_homemade Item.brand].
    rewrite Hh. split; reflexivity.
Qed.

Lemma homemade_stores_no_brand_witness :
  Database.d_brand Sample.soup = Some "Campbell"
  /\ (exists res db' r,
        Database.createItem Sample.soup Sample.noon Sample.store
        = (Returned res, db')
        /\ Database.getItemById (lastInsertRowid res) db' Sample.noon = Some r
        /\ Item.is_homemade (Database.item r) = Some 1
        /\ Item.brand (Database.item r) = None)
  /\ (exists res db' r,
        Database.updateItem 2 Sample.soup Sample.noon Sample.store
        = (Returned res, db')
        /\ Database.getItemById 2 db' Sample.noon = Some r
        /\ Item.is_homemade (Database.item r) = Some 1
        /\ Item.brand (Database.item r) = None).
Proof.
  split; [reflexivity|].
  destruct (homemade_stores_no_brand Sample.soup Sample.noon Sample.store
              "Soup" eq_refl eq_refl eq_refl) as [Hc Hu].
  split; [exact Hc|].
  exact (Hu 2 20000 Sample.salt eq_refl eq_refl).
Defined.

Lemma number_or_idempotent n :
  JS.number_or (Some (JS.Num (JS.number_or n 1))) 1 = JS.number_or n 1.
Proof.
  apply number_or_truthy, number_or_1_nonzero.
Qed.

Lemma number_or_falsy_quantity v :
  falsy_quantity v -> JS.numeric_or v 1 = 1%Q.
Proof.
  destruct v as [[[|q]|[q|]]|]; simpl; try reflexivity; try tauto.
  apply number_or_falsy.
Qed.

Lemma numeric_or_1_zero v :
  (JS.numeric_or v 1 == 0)%Q <-> text_zero v.
Proof.
  unfold text_zero. split.
  - destruct v as [[n|[q|]]|]; cbn [JS.numeric_or]; intros H.
    + now apply (number_or_1_nonzero (Some n)) in H.
    + exists q. split; [reflexivity|exact H].
    + discriminate H.
    + discriminate H.
  - intros [q [-> H]]. exact H.
Qed.

(** C10, as the code has it. A falsy quantity (zero, absent, [NaN], the
    empty text) is stored as 1: with admissible values, [createItem] and
    [updateItem] return and the row read back has quantity 1, and so does
    [POST /items/create] when the submitted quantity parses to zero or to
    [NaN]. A row that [createItem] or [updateItem] has just written has
    quantity 0 exactly when the quantity given is a text that reads as
    zero, which JavaScript takes for true; with a number or without a
    quantity it never has, and no row that the create route has just
    written has quantity 0. *)
Theorem falsy_quantity_is_stored_as_one :
  (forall d clk db title,
     Database.d_title d = Some title ->
     acceptable db d = true ->
     falsy_quantity (Database.d_quantity d) ->
     (exists res db' r,
        Database.createItem d clk db = (Returned res, db')
        /\ Database.getItemById (lastInsertRowid res) db' clk = Some r
        /\ Item.quantity (Database.item r) = 1%Q)
     /\ (forall id date_added old,
           Database.d_date_added d = Some date_added ->
           find (fun i => Item.id i =? id) (items db) = Some old ->
           exists res db' r,
             Database.updateItem id d clk db = (Returned res, db')
             /\ Database.getItemById id db' clk = Some r
             /\ Item.quantity (Database.item r) = 1%Q))
  /\ (forall body clk db title,
        Routes.title body = Some title ->
        acceptable db (Routes.itemData body clk) = true ->
        falsy_quantity (Some (JS.Number (Routes.quantity body))) ->
        exists rowid db' r,
          Routes.post_items_create false body clk db
          = (Routes.RedirectAfterCreate rowid, db')
          /\ Database.getItemById rowid db' clk = Some r
          /\ Item.quantity (Database.item r) = 1%Q)
  /\ (forall d clk db res db' r,
        Database.createItem d clk db = (Returned res, db') ->
        Database.getItemById (lastInsertRowid res) db' clk = Some r ->
        ((Item.quantity (Database.item r) == 0)%Q
         <-> text_zero (Database.d_quantity d)))
  /\ (forall id d clk db res db' r,
        Database.updateItem id d clk db = (Returned res, db') ->
        Database.getItemById id db' clk = Some r ->
        ((Item.quantity (Database.item r) == 0)%Q
         <-> text_zero (Database.d_quantity d)))
  /\ (forall body clk db rowid db' r,
        Routes.post_items_create false body clk db
        = (Routes.RedirectAfterCreate rowid, db') ->
        Database.getItemById rowid db' clk = Some r ->
        ~ (Item.quantity (Database.item r) == 0)%Q).
Proof.
  split; [|split; [|split; [|split]]].
  - intros d clk db title Ht Hacc Hf. split.
    + destruct (createItem_returns d clk db title Ht Hacc) as [db' [Hc Hg]].
      eexists. exists db'. eexists. split; [exact Hc|].
      split; [exact Hg|]. rewrite select_item.
      cbn [Database.insert_values Item.quantity].
      now apply number_or_falsy_quantity.
    + intros id date_added old Hd Hfind.
      destruct (updateItem_returns id d clk db title date_added old
                  Ht Hd Hacc Hfind) as [res [db' [Hu Hg]]].
      exists res, db'. eexists. split; [exact Hu|].
      split; [exact Hg|]. rewrite select_item.
      cbn [Database.update_values Item.quantity].
      now apply number_or_falsy_quantity.
  - intros body clk db title Ht Hacc Hf.
    destruct (createItem_returns (Routes.itemData body clk) clk db title
                Ht Hacc) as [db' [Hc Hg]].
    eexists. exists db'. eexists. split.
    { unfold Routes.post_items_create. rewrite Hc. reflexivity. }
    split; [exact Hg|]. rewrite select_item.
    cbn [Database.insert_values Item.quantity Routes.itemData
         Database.d_quantity JS.numeric_or].
    rewrite number_or_idempotent.
    apply (number_or_falsy_quantity (Some (JS.Number (Routes.quantity body)))).
    exact Hf.
  - intros d clk db res db' r Hc Hg.
    destruct (createItem_returned d clk db res db' Hc) as [title [_ Hg']].
    rewrite Hg in Hg'. injection Hg' as ->. rewrite select_item.
    apply numeric_or_1_zero.
  - intros id d clk db res db' r Hu Hg.
    destruct (updateItem_returned id d clk db res db' r Hu Hg)
      as [title [da [old [_ [_ ->]]]]].
    rewrite select_item. apply numeric_or_1_zero.
  - intros body clk db rowid db' r Hroute Hg.
    unfold Routes.post_items_create in Hroute.
    destruct (Database.createItem (Routes.itemData body clk) clk db)
      as [[res|e] db1] eqn:Hc; [|discriminate].
    injection Hroute as <- <-.
    destruct (createItem_returned _ clk db res db1 Hc) as [title [_ Hg']].
    rewrite Hg in Hg'. injection Hg' as ->. rewrite select_item.
    cbn [Database.insert_values Item.quantity Routes.itemData
         Database.d_quantity JS.numeric_or].
    apply number_or_1_nonzero.
Qed.

Lemma falsy_quantity_is_stored_as_one_witness :
  Database.d_quantity Sample.soup = Some (JS.Number (JS.Num 0))
  /\ (exists res db' r,
        Database.createItem Sample.soup Sample.noon Sample.store
        = (Returned res, db')
        /\ Database.getItemById (lastInsertRowid res) db' Sample.noon = Some r
        /\ Item.quantity (Database.item r) = 1%Q)
  /\ (exists res db' r,
        Database.updateItem 2 Sample.soup Sample.noon Sample.store
        = (Returned res, db')
        /\ Database.getItemById 2 db' Sample.noon = Some r
        /\ Item.quantity (Database.item r) = 1%Q).
Proof.
  split; [reflexivity|].
  destruct (proj1 falsy_quantity_is_stored_as_one Sample.soup Sample.noon
              Sample.store "Soup" eq_refl eq_refl (Qeq_refl 0)) as [Hc Hu].
  split; [exact Hc|].
  exact (Hu 2 20000 Sample.salt eq_refl eq_refl).
Defined.

(** The claim as it was stated fails: [POST /api/items/bulk-update] hands
    [{ ...item, quantity: "0" }] to [updateItem], which stores 0. *)
Lemma text_zero_quantity_is_stored_as_zero :
  ~ (forall res db' r,
       Database.updateItem 1
         (Bulk.spread (Database.select Sample.store Sample.noon Sample.chicken)
            (Bulk.with_quantity (JS.Text (Some 0%Q))))
         Sample.noon Sample.store
       = (Returned res, db') ->
       Database.getItemById 1 db' Sample.noon = Some r ->
       ~ (Item.quantity (Database.item r) == 0)%Q)
  /\ exists db' r,
       Bulk.post_items_bulk_update (Some [1])
         (Some (Bulk.with_quantity (JS.Text (Some 0%Q))))
         Sample.noon Sample.store
       = (Bulk.UpdatedCount 1, db')
       /\ Database.getItemById 1 db' Sample.noon = Some r
       /\ (Item.quantity (Database.item r) == 0)%Q.
Proof.
  split.
  - intros H. eapply H; [reflexivity|reflexivity|reflexivity].
  - eexists. eexists. split; [reflexivity|]. split; reflexivity.
Qed.


(** * Further properties of the store *)

(** ** The sorter *)

Section SorterFacts.

Context {A : Type} (leb : A -> A -> bool).

Lemma insert_by_perm x l : Permutation (Sorter.insert_by leb x l) (x :: l).
Proof.
  induction l as [|y l IH]; simpl; [reflexivity|].
  destruct (leb x y); [reflexivity|].
  rewrite IH. apply perm_swap.
Qed.

Lemma sort_by_perm l : Permutation (Sorter.sort_by leb l) l.
Proof.
  induction l as [|x l IH]; simpl; [reflexivity|].
  rewrite insert_by_perm. now constructor.
Qed.

Lemma sort_by_In x l : In x (Sorter.sort_by leb l) <-> In x l.
Proof.
  split; apply Permutation_in; [|symmetry]; apply sort_by_perm.
Qed.


Hypothesis leb_total : forall a b, leb a b = true \/ leb b a = true.

Lemma insert_by_Sorted x l :
  Sorted (fun a b => leb a b = true) l ->
  Sorted (fun a b => leb a b = true) (Sorter.insert_by leb x l).
Proof.
  induction l as [|y l IH]; intros Hs; simpl.
  - repeat constructor.
  - destruct (leb x y) eqn:E.
    + constructor; [assumption|]. constructor. exact E.
    + inversion Hs as [|? ? Hs' Hhd]; subst. constructor; [auto|].
      assert (Hyx : leb y x = true)
        by (destruct (leb_total x y) as [H|H]; [congruence|exact H]).
      destruct l as [|z l]; simpl.
      * constructor. exact Hyx.
      * destruct (leb x z); constructor; auto. now inversion Hhd.
Qed.

Lemma sort_by_Sorted l :
  Sorted (fun a b => leb a b = true) (Sorter.sort_by leb l).
Proof.
  induction l; simpl; [constructor | now apply insert_by_Sorted].
Qed.

Hypothesis leb_trans :
  forall a b c, leb a b = true -> leb b c = true -> leb a c = true.

Lemma sort_by_StronglySorted l :
  StronglySorted (fun a b => leb a b = true) (Sorter.sort_by leb l).
Proof.
  apply Sorted_StronglySorted; [|apply sort_by_Sorted].
  intros a b c. apply leb_trans.
Qed.

Lemma filter_insert_by P x l :
  StronglySorted (fun a b => leb a b = true) l ->
  filter P (Sorter.insert_by leb x l)
  = if P x then Sorter.insert_by leb x (filter P l) else filter P l.
Proof.
  induction 1 as [|y l Hl IH Hall]; simpl.
  - destruct (P x); reflexivity.
  - destruct (leb x y) eqn:E; simpl.
    + destruct (P x) eqn:Px; [|reflexivity].
      assert (Hxl : Forall (fun z => leb x z = true) l).
      { rewrite Forall_forall in *. intros z Hz.
        eapply leb_trans; [exact E | auto]. }
      destruct (P y); simpl.
      * now rewrite E.
      * destruct (filter P l) as [|z fl] eqn:Ef; simpl; [reflexivity|].
        assert (Hz : In z (filter P l)) by (rewrite Ef; simpl; auto).
        apply filter_In in Hz. rewrite Forall_forall in Hxl.
        now rewrite (Hxl z (proj1 Hz)).
    + rewrite IH. destruct (P y) eqn:Py, (P x) eqn:Px; simpl;
        rewrite ?E; reflexivity.
Qed.

Lemma filter_sort_by P l :
  filter P (Sorter.sort_by leb l) = Sorter.sort_by leb (filter P l).
Proof.
  induction l as [|x l IH]; simpl; [reflexivity|].
  rewrite filter_insert_by by apply sort_by_StronglySorted.
  rewrite IH. destruct (P x); reflexivity.
Qed.

End SorterFacts.

(** The sorter of [getItems] is the general one at its [ORDER BY]. *)
Lemma Database_sort_by l :
  Database.sort l = Sorter.sort_by Database.order_leb l.
Proof.
  induction l as [|x l IH]; simpl; [reflexivity|]. rewrite IH.
  generalize (Sorter.sort_by Database.order_leb l). intros s.
  induction s as [|y s IHs]; simpl; [reflexivity|]. now rewrite IHs.
Qed.

(** ** Reading items: what the list contains *)

Lemma holds_or3 a b : Sql.holds (Sql.or3 a b) = Sql.holds a || Sql.holds b.
Proof. destruct a as [[|]|], b as [[|]|]; reflexivity. Qed.

Lemma holds_cmp_Z_eqb a v :
  Sql.holds (Sql.cmp Z.eqb a (Some v)) = true <-> a = Some v.
Proof.
  destruct a as [x|]; simpl; [|split; discriminate].
  destruct (Z.eqb_spec x v); split; congruence.
Qed.

Lemma holds_cmp_String_eqb a v :
  Sql.holds (Sql.cmp String.eqb a (Some v)) = true <-> a = Some v.
Proof.
  destruct a as [x|]; simpl; [|split; discriminate].
  destruct (String.eqb_spec x v); split; congruence.
Qed.

Lemma holds_like a pat :
  Sql.holds (Sql.like a pat) = true <->
  exists text, Some text = a /\ Sql.like_match pat text = true.
Proof.
  destruct a as [x|]; simpl.
  - split.
    + destruct (Sql.like_match pat x) eqn:E; [|discriminate].
      intros _. now exists x.
    + intros [t [[= ->] H]]. now rewrite H.
  - split; [discriminate|]. intros [t [[=] _]].
Qed.

Lemma truthy_int_iff v : JS.truthy_int v = true <-> v <> 0.
Proof.
  unfold JS.truthy_int. destruct (Z.eqb_spec v 0); simpl; split;
    congruence.
Qed.

Lemma truthy_string_iff v : JS.truthy_string v = true <-> v <> "".
Proof.
  unfold JS.truthy_string. destruct (String.eqb_spec v ""); simpl; split;
    congruence.
Qed.

(** The conditions of the filters other than [expiryStatus] hold of an
    item exactly when it passes them. *)
Lemma conditions_passes f db clk i :
  Database.expiryStatus f = None ->
  forallb (fun c => Sql.holds (c i)) (Database.conditions f db clk) = true
  <-> passes f db i.
Proof.
  intros He. unfold Database.conditions, passes. rewrite He, app_nil_r.
  rewrite !forallb_app, !andb_true_iff.
  assert (H1 : forallb (fun c : Item.t -> Sql.tri => Sql.holds (c i))
                 match Database.locationId f with
                 | Some v =>
                     if JS.truthy_int v
                     then [fun i => Sql.cmp Z.eqb (Item.location_id i) (Some v)]
                     else []
                 | None => []
                 end = true
               <-> (forall v, Database.locationId f = Some v -> v <> 0 ->
                              Item.location_id i = Some v)).
  { destruct (Database.locationId f) as [v|]; [|split; [discriminate|auto]].
    destruct (JS.truthy_int v) eqn:T; cbn [forallb].
    - rewrite andb_true_r, holds_cmp_Z_eqb. apply truthy_int_iff in T.
      split; [now intros H v' [= <-] _ | auto].
    - split; [|auto]. intros _ v' [= <-] Hv.
      apply truthy_int_iff in Hv. congruence. }
  assert (H2 : forallb (fun c : Item.t -> Sql.tri => Sql.holds (c i))
                 match Database.location f with
                 | Some v =>
                     if JS.truthy_string v
                     then [fun i =>
                             Sql.or3
                               (Sql.cmp String.eqb (Item.location i) (Some v))
                               (Sql.cmp String.eqb
                                  (option_map Location.type
                                     (Database.joined_location db i))
                                  (Some v))]
                     else []
                 | None => []
                 end = true
               <-> (forall v, Database.location f = Some v -> v <> "" ->
                              Item.location i = Some v
                              \/ option_map Location.type
                                   (Database.joined_location db i) = Some v)).
  { destruct (Database.location f) as [v|]; [|split; [discriminate|auto]].
    destruct (JS.truthy_string v) eqn:T; cbn [forallb].
    - rewrite andb_true_r, holds_or3, orb_true_iff, !holds_cmp_String_eqb.
      apply truthy_string_iff in T.
      split; [now intros H v' [= <-] _ | auto].
    - split; [|auto]. intros _ v' [= <-] Hv.
      apply truthy_string_iff in Hv. congruence. }
  assert (H3 : forallb (fun c : Item.t -> Sql.tri => Sql.holds (c i))
                 match Database.category f with
                 | Some v =>
                     if JS.truthy_string v
                     then [fun i =>
                             Sql.cmp String.eqb (Some (Item.category i))
                               (Some v)]
                     else []
                 | None => []
                 end = true
               <-> (forall v, Database.category f = Some v -> v <> "" ->
                              Item.category i = v)).
  { destruct (Database.category f) as [v|]; [|split; [discriminate|auto]].
    destruct (JS.truthy_string v) eqn:T; cbn [forallb].
    - rewrite andb_true_r, holds_cmp_String_eqb.
      apply truthy_string_iff in T.
      split; [intros [= H] v' [= <-] _; exact H
             | intros H; f_equal; auto].
    - split; [|auto]. intros _ v' [= <-] Hv.
      apply truthy_string_iff in Hv. congruence. }
  assert (H4 : forallb (fun c : Item.t -> Sql.tri => Sql.holds (c i))
                 match Database.search f with
                 | Some v =>
                     if JS.truthy_string v
                     then
                       let searchTerm := ("%" ++ v ++ "%")%string in
                       [fun i =>
                          Sql.or3
                            (Sql.or3
                               (Sql.like (Some (Item.title i)) searchTerm)
                               (Sql.like (Item.description i) searchTerm))
                            (Sql.like (Item.brand i) searchTerm)]
                     else []
                 | None => []
                 end = true
               <-> (forall v, Database.search f = Some v -> v <> "" ->
                      exists text,
                        (Some text = Some (Item.title i)
                         \/ Some text = Item.description i
                         \/ Some text = Item.brand i)
                        /\ Sql.like_match ("%" ++ v ++ "%") text = true)).
  { destruct (Database.search f) as [v|]; [|split; [discriminate|auto]].
    destruct (JS.truthy_string v) eqn:T; cbn zeta; cbn [forallb].
    - rewrite andb_true_r, !holds_or3, !orb_true_iff, !holds_like.
      apply truthy_string_iff in T. split.
      + intros H v' [= <-] _.
        destruct H as [[[t [Ht Hl]]|[t [Ht Hl]]]|[t [Ht Hl]]];
          exists t; auto.
      + intros H. destruct (H v eq_refl T) as [t [[Ht|[Ht|Ht]] Hl]];
          [left; left|left; right|right]; exists t; auto.
    - split; [|auto]. intros _ v' [= <-] Hv.
      apply truthy_string_iff in Hv. congruence. }
  tauto.
Qed.

(** X1. Without an [expiryStatus] filter, and with a search text short
    enough for [LIKE], a row is in the list of [getItems] exactly when it
    is the [SELECT] of a stored item that passes every filter that is set;
    the search text is matched character by character, [_] standing for
    one character of any number of bytes. *)
Theorem getItems_rows_pass_filters :
  forall f db clk r,
    Database.expiryStatus f = None ->
    within_like_limit f ->
    In r (Database.getItems f db clk)
    <-> exists i,
          In i (items db) /\ r = Database.select db clk i /\ passes f db i.
Proof.
  intros f db clk r He _. unfold Database.getItems.
  rewrite in_map_iff. split.
  - intros [i [Hr Hi]]. rewrite Database_sort_by in Hi.
    apply sort_by_In, filter_In in Hi. destruct Hi as [Hin Hw].
    rewrite where_clause_holds in Hw. exists i.
    split; [exact Hin|]. split; [now symmetry|].
    now apply (conditions_passes f db clk).
  - intros [i [Hin [Hr Hp]]]. exists i. split; [auto|].
    rewrite Database_sort_by. apply sort_by_In, filter_In. split; [auto|].
    rewrite where_clause_holds. now apply conditions_passes.
Qed.

Lemma getItems_rows_pass_filters_witness :
  within_like_limit (Database.mkfilters None None (Some "Meat") (Some "h_c") None)
  /\ In (Database.select Sample.store Sample.noon Sample.chicken)
       (Database.getItems
          (Database.mkfilters None None (Some "Meat") (Some "h_c") None)
          Sample.store Sample.noon).
Proof.
  assert (Hlimit : within_like_limit
                     (Database.mkfilters None None (Some "Meat") (Some "h_c")
                        None)).
  { intros v [= <-]. simpl. lia. }
  split; [exact Hlimit|].
  apply (getItems_rows_pass_filters
           (Database.mkfilters None None (Some "Meat") (Some "h_c") None)
           Sample.store Sample.noon _ eq_refl Hlimit).
  exists Sample.chicken. split; [simpl; auto|]. split; [reflexivity|].
  unfold passes; cbn [Database.locationId Database.location
                      Database.category Database.search].
  split; [discriminate|]. split; [discriminate|]. split.
  - now intros v [= <-] _.
  - intros v [= <-] _. exists "Chicken". split; [left; reflexivity|].
    reflexivity.
Defined.

(** X2. With no filter at all, [getItems] lists every stored item, each
    once. *)
Theorem getItems_no_filters_lists_all :
  forall db clk,
    Permutation
      (map Database.item (Database.getItems Database.no_filters db clk))
      (items db).
Proof.
  intros db clk. unfold Database.getItems.
  rewrite map_map. cbn. rewrite map_id, Database_sort_by, sort_by_perm.
  assert (H : filter (fun _ : Item.t => true) (items db) = items db).
  { induction (items db) as [|x l IH]; simpl; congruence. }
  rewrite H. reflexivity.
Qed.

(** ** The alert views and the statistics *)

Lemma views_items {B} (g : Item.t -> B) (h : B -> Item.t) l :
  (forall i, h (g i) = i) -> map h (map g l) = l.
Proof.
  intros H. rewrite map_map. rewrite <- (map_id l) at 2.
  apply map_ext. exact H.
Qed.

Lemma v_expired_items db clk :
  map Views.item (Views.v_expired db clk)
  = Sorter.sort_by Views.by_expiry_date
      (filter (fun i => Sql.holds (Views.expired_where clk i)) (items db)).
Proof. unfold Views.v_expired. now apply views_items. Qed.

Lemma v_expiring_soon_items db clk :
  map Views.item (Views.v_expiring_soon db clk)
  = Sorter.sort_by Views.by_expiry_date
      (filter (fun i => Sql.holds (Views.expiring_soon_where clk i))
         (items db)).
Proof. unfold Views.v_expiring_soon. now apply views_items. Qed.

Lemma v_low_stock_items db :
  map Views.item (Views.v_low_stock db)
  = Sorter.sort_by Views.by_quantity_title
      (filter Views.low_stock_where (items db)).
Proof. unfold Views.v_low_stock. now apply views_items. Qed.

(** The conditions of the two alert views, in terms of the status the
    [CASE] of [getItems] gives the same item. *)
Lemma expired_where_status clk i :
  Sql.holds (Views.expired_where clk i)
  = (Database.expiry_status_case clk i =? "expired")%string.
Proof.
  unfold Views.expired_where, Database.expiry_status_case,
    date_now_localtime, date_now_localtime_plus, Sql.date.
  set (t := localtime clk / ms_per_day).
  destruct (Item.expiry_date i) as [e|]; [|reflexivity].
  cbn [Sql.is_null Sql.is_not_null Sql.cmp Sql.and3 Sql.holds].
  destruct (Z.ltb_spec e t), (Z.eqb_spec e t), (Z.leb_spec e (t + 3));
    try reflexivity; lia.
Qed.

Lemma expiring_soon_where_status clk i :
  Sql.holds (Views.expiring_soon_where clk i)
  = (Database.expiry_status_case clk i =? "today")%string
    || (Database.expiry_status_case clk i =? "soon")%string.
Proof.
  unfold Views.expiring_soon_where, Database.expiry_status_case,
    date_now_localtime, date_now_localtime_plus, Sql.date.
  set (t := localtime clk / ms_per_day).
  destruct (Item.expiry_date i) as [e|]; [|reflexivity].
  cbn [Sql.is_null Sql.is_not_null Sql.cmp Sql.and3 Sql.holds].
  destruct (Z.ltb_spec e t), (Z.eqb_spec e t), (Z.leb_spec e (t + 3)),
    (Z.leb_spec t e); try reflexivity; lia.
Qed.

(** X3. The alert lists agree with the status shown in the item list:
    [getExpiredItems] holds exactly the stored items whose status is
    ["expired"], and [getExpiringSoonItems] exactly those whose status is
    ["today"] or ["soon"]. *)
Theorem alert_views_agree_with_status :
  forall db clk i,
    (In i (map Views.item (Stats.getExpiredItems db clk))
     <-> In i (items db) /\ Database.expiry_status_case clk i = "expired")
    /\ (In i (map Views.item (Stats.getExpiringSoonItems db clk))
        <-> In i (items db)
            /\ (Database.expiry_status_case clk i = "today"
                \/ Database.expiry_status_case clk i = "soon")).
Proof.
  intros db clk i. unfold Stats.getExpiredItems, Stats.getExpiringSoonItems.
  rewrite v_expired_items, v_expiring_soon_items, !sort_by_In, !filter_In.
  rewrite expired_where_status, expiring_soon_where_status.
  rewrite orb_true_iff, !String.eqb_eq. tauto.
Qed.




Lemma low_stock_where_iff i :
  Views.low_stock_where i = true <-> low_on_stock i.
Proof.
  unfold Views.low_stock_where, low_on_stock.
  rewrite andb_true_iff, negb_true_iff, Qle_bool_iff.
  split; intros [H1 H2]; split; auto.
  - destruct (Qlt_le_dec 0 (Item.quantity i)) as [H|H]; [exact H|].
    apply Qle_bool_iff in H. congruence.
  - destruct (Qle_bool (Item.quantity i) 0) eqn:E; [|reflexivity].
    apply Qle_bool_iff in E. lra.
Qed.

Lemma v_low_stock_In db i :
  In i (map Views.item (Views.v_low_stock db))
  <-> In i (items db) /\ low_on_stock i.
Proof.
  now rewrite v_low_stock_items, sort_by_In, filter_In, low_stock_where_iff.
Qed.

(** X5. [getLowStockItems] holds exactly the stored items of which some is
    left but at most one unit: an item whose quantity is 0 is not low on
    stock. *)
Theorem low_stock_items :
  forall db i,
    In i (map Views.item (Stats.getLowStockItems db))
    <-> In i (items db) /\ (0 < Item.quantity i)%Q /\ (Item.quantity i <= 1)%Q.
Proof.
  intros db i. unfold Stats.getLowStockItems. apply v_low_stock_In.
Qed.

Lemma find_unique_id id rows i0 i :
  NoDup (map Item.id rows) ->
  find (fun x => Item.id x =? id) rows = Some i0 ->
  In i rows -> Item.id i = id -> i = i0.
Proof.
  induction rows as [|x rows IH]; simpl; [discriminate|].
  intros Hnd Hfind Hin Hid. inversion Hnd as [|? ? Hx Hnd']; subst.
  destruct (Z.eqb_spec (Item.id x) (Item.id i)) as [E|E].
  - injection Hfind as <-. destruct Hin as [->|Hin]; [reflexivity|].
    exfalso. apply Hx. rewrite E. now apply in_map.
  - destruct Hin as [->|Hin]; [congruence|]. now apply IH.
Qed.

(** X6. Once an item was discarded (as ["discarded"] or ["expired"]), it
    is not in the low-stock list, whatever its quantity was and whether or
    not the record could be written. *)
Theorem discarded_item_is_not_low_stock :
  forall id body clk db r kind,
    consistent db = true ->
    NoDup (map Item.id (items db)) ->
    Database.getItemById id db clk = Some r ->
    In kind ["discarded"; "expired"] ->
    Routes.action body = Some kind ->
    forall i,
      In i (map Views.item
              (Stats.getLowStockItems
                 (snd (Routes.post_items_discard id body clk db)))) ->
      Item.id i <> id.
Proof.
  intros id body clk db r kind Hc Hnd Hget Hkind Hact i Hi Hid.
  apply v_low_stock_In in Hi. destruct Hi as [Hin [Hpos _]].
  destruct (getItemById_find _ _ _ _ Hget) as [i0 [Hfind [-> Hid0]]].
  assert (Haction : JS.or_else JS.truthy_string (Routes.action body)
                      "discarded" = kind).
  { rewrite Hact. simpl in Hkind. destruct Hkind as [<-|[<-|[]]]; reflexivity. }
  assert (Hmem : Database.mem_string kind Database.actions = true).
  { simpl in Hkind. destruct Hkind as [<-|[<-|[]]]; reflexivity. }
  unfold Routes.post_items_discard in Hin. rewrite Hget in Hin.
  cbn zeta in Hin. rewrite select_item, Hid0, Haction in Hin.
  destruct (Qle_bool (Item.quantity i0) 0) eqn:Hused.
  - rewrite (log_then_set_quantity_refused id i0 clk db _ _ _ _ Hfind Hused)
      in Hin.
    cbn [snd] in Hin.
    assert (i = i0) by (eapply find_unique_id; eauto). subst i.
    apply Qle_bool_iff in Hused. lra.
  - destruct (log_then_set_quantity id i0 clk db (Item.quantity i0) kind
                (JS.or_else JS.truthy_string (Routes.notes body) "") 0
                Hc Hfind Hused Hmem eq_refl) as [res Hrun].
    rewrite Hrun in Hin. cbn [snd items] in Hin.
    apply in_map_iff in Hin. destruct Hin as [x [Hx _]].
    destruct (Z.eqb_spec (Item.id x) id) as [E|E].
    + subst i. cbn in Hpos. lra.
    + subst i. contradiction.
Qed.

Lemma discarded_item_is_not_low_stock_witness :
  consistent Sample.store = true
  /\ NoDup (map Item.id (items Sample.store))
  /\ forall i,
       In i (map Views.item
               (Stats.getLowStockItems
                  (snd (Routes.post_items_discard 2 Sample.discard_it
                          Sample.noon Sample.store)))) ->
       Item.id i <> 2.
Proof.
  assert (Hnd : NoDup (map Item.id (items Sample.store))).
  { simpl. repeat constructor; simpl; intuition discriminate. }
  split; [reflexivity|]. split; [exact Hnd|].
  exact (discarded_item_is_not_low_stock 2 Sample.discard_it Sample.noon
           Sample.store
           (Database.select Sample.store Sample.noon Sample.salt)
           "discarded" eq_refl Hnd eq_refl (or_introl eq_refl) eq_refl).
Defined.

(** ** Locations: the list and the counts *)

Lemma locations_order_leb_iff a b :
  Locations.order_leb a b = true <-> shown_before a b.
Proof.
  unfold Locations.order_leb, shown_before.
  destruct (Location.sort_order a) as [x|], (Location.sort_order b) as [y|];
    try tauto; try (split; [discriminate|tauto]).
  rewrite orb_true_iff, andb_true_iff, Z.ltb_lt, Z.eqb_eq. tauto.
Qed.

Lemma locations_order_leb_total a b :
  Locations.order_leb a b = true \/ Locations.order_leb b a = true.
Proof.
  rewrite !locations_order_leb_iff. unfold shown_before.
  destruct (Location.sort_order a) as [x|], (Location.sort_order b) as [y|];
    auto using String.leb_total.
  destruct (String.leb_total (Location.name a) (Location.name b));
    destruct (Z.lt_total x y) as [?|[?|?]]; auto.
Qed.

Lemma locations_order_leb_trans a b c :
  Locations.order_leb a b = true -> Locations.order_leb b c = true ->
  Locations.order_leb a c = true.
Proof.
  rewrite !locations_order_leb_iff. unfold shown_before.
  destruct (Location.sort_order a) as [x|], (Location.sort_order b) as [y|],
    (Location.sort_order c) as [z|]; try tauto.
  - intros [?|[? ?]] [?|[? ?]]; try (left; lia).
    right. split; [lia|]. eapply string_leb_trans; eauto.
  - apply string_leb_trans.
Qed.

Lemma StronglySorted_impl {A} (R S : A -> A -> Prop) (l : list A) :
  (forall a b, R a b -> S a b) -> StronglySorted R l -> StronglySorted S l.
Proof.
  intros H. induction 1 as [|a l Hl IH Hall]; constructor; auto.
  eapply Forall_impl; [|exact Hall]. auto.
Qed.

(** X7. [getLocations] lists every location once, in ascending sort order
    and then name; the visible-only list is that list without the hidden
    locations, in the same order. *)
Theorem getLocations_order_and_visibility :
  forall db,
    Permutation (Locations.getLocations false db) (locations db)
    /\ StronglySorted shown_before (Locations.getLocations false db)
    /\ Locations.getLocations true db
       = filter Locations.is_visible_1 (Locations.getLocations false db).
Proof.
  intros db. unfold Locations.getLocations. split; [apply sort_by_perm|].
  split.
  - apply StronglySorted_impl
      with (R := fun a b => Locations.order_leb a b = true).
    + intros a b. apply locations_order_leb_iff.
    + apply sort_by_StronglySorted;
        [apply locations_order_leb_total | apply locations_order_leb_trans].
  - symmetry. apply filter_sort_by;
      [apply locations_order_leb_total | apply locations_order_leb_trans].
Qed.

Lemma count_in_location_items_at lid db :
  Locations.count_in_location lid (items db) = items_at lid db.
Proof.
  unfold Locations.count_in_location, items_at. do 2 f_equal.
  apply filter_ext. intros i.
  destruct (Item.location_id i) as [l|]; simpl;
    [now destruct (l =? lid) | reflexivity].
Qed.

Lemma location_ids_In lid rows :
  In lid (Locations.location_ids rows)
  <-> exists i, In i rows /\ Item.location_id i = Some lid.
Proof.
  induction rows as [|x rows IH]; simpl.
  - split; [tauto | intros [i [[] _]]].
  - destruct (Item.location_id x) as [l|] eqn:E; simpl; rewrite IH.
    + split.
      * intros [->|[i [Hi Hl]]]; [exists x; auto | exists i; auto].
      * intros [i [[->|Hi] Hl]]; [left; congruence | right; exists i; auto].
    + split.
      * intros [i [Hi Hl]]. exists i; auto.
      * intros [i [[->|Hi] Hl]]; [congruence | exists i; auto].
Qed.

Lemma count_in_location_absent lid rows :
  ~ In lid (Locations.location_ids rows) ->
  Locations.count_in_location lid rows = 0.
Proof.
  intros H. unfold Locations.count_in_location.
  induction rows as [|x rows IH]; simpl; [reflexivity|].
  simpl in H. destruct (Item.location_id x) as [l|] eqn:E; simpl.
  - destruct (Z.eqb_spec l lid) as [->|Hne]; simpl.
    + exfalso. apply H. simpl. auto.
    + apply IH. intros Hin. apply H. simpl. auto.
  - now apply IH.
Qed.

Lemma find_key_map (g : Z -> Z) lid keys :
  find (fun kv : Z * Z => fst kv =? lid) (map (fun k => (k, g k)) keys)
  = if in_dec Z.eq_dec lid keys then Some (lid, g lid) else None.
Proof.
  induction keys as [|k keys IH]; simpl; [reflexivity|].
  destruct (Z.eqb_spec k lid) as [->|Hne].
  - destruct (Z.eq_dec lid lid); [reflexivity|congruence].
  - rewrite IH. destruct (Z.eq_dec k lid); [congruence|].
    now destruct (in_dec Z.eq_dec lid keys).
Qed.

Lemma property_or_0_getLocationCounts lid db :
  Locations.property_or_0 (Locations.getLocationCounts db) lid
  = items_at lid db.
Proof.
  rewrite <- count_in_location_items_at.
  unfold Locations.property_or_0, Locations.property,
    Locations.getLocationCounts.
  rewrite find_key_map.
  destruct (in_dec Z.eq_dec lid (nodup Z.eq_dec _)) as [Hin|Hnin]; simpl.
  - unfold JS.truthy_int.
    destruct (Z.eqb_spec (Locations.count_in_location lid (items db)) 0);
      simpl; congruence.
  - symmetry. apply count_in_location_absent.
    intros H. apply Hnin. now apply nodup_In.
Qed.

Lemma filter_all {A} (l : list A) : filter (fun _ => true) l = l.
Proof. induction l as [|x l IH]; simpl; congruence. Qed.

Lemma filter_length_le {A} (p : A -> bool) l :
  (List.length (filter p l) <= List.length l)%nat.
Proof.
  induction l as [|x l IH]; simpl; [lia|]. destruct (p x); simpl; lia.
Qed.

Lemma two_filters_length_le {A} (p q : A -> bool) l :
  (forall x, p x = true -> q x = false) ->
  (List.length (filter p l) + List.length (filter q l) <= List.length l)%nat.
Proof.
  intros H. induction l as [|x l IH]; simpl; [lia|].
  destruct (p x) eqn:Px; [rewrite (H x Px)|destruct (q x)]; simpl; lia.
Qed.

(** X8. The count [getLocationCounts] reports for a location, read as
    [counts[id] || 0], is the number of items placed there (0 for a
    location without items); the per-location summary of [getStats]
    reports the same number as [total_items], and its expired and
    expiring-soon counts together never exceed it. *)
Theorem location_counts_agree :
  forall db clk,
    (forall lid,
       Locations.property_or_0 (Locations.getLocationCounts db) lid
       = items_at lid db)
    /\ (forall s,
          In s (Stats.locationSummary (Stats.getStats db clk)) ->
          Views.total_items s = items_at (Views.location_id s) db
          /\ 0 <= Views.expired_count s
          /\ 0 <= Views.expiring_soon_count s
          /\ Views.expired_count s + Views.expiring_soon_count s
             <= Views.total_items s)
    /\ (forall loc n,
          In (loc, n) (Stats.locations_with_count (Stats.getStats db clk)) ->
          n = items_at (Location.id loc) db).
Proof.
  intros db clk. split; [intros; apply property_or_0_getLocationCounts|].
  split.
  - cbn [Stats.getStats Stats.locationSummary]. unfold Views.v_location_summary.
    intros s Hs. apply in_map_iff in Hs. destruct Hs as [l [<- _]].
    cbn [Views.total_items Views.location_id Views.expired_count
         Views.expiring_soon_count].
    unfold Views.count. split.
    + rewrite <- count_in_location_items_at.
      unfold Locations.count_in_location, Views.joined_items.
      now rewrite filter_all.
    + split; [lia|]. split; [lia|].
      pose proof (two_filters_length_le
                    (fun i => Sql.holds (Views.expired_where clk i))
                    (fun i => Sql.holds (Views.expiring_soon_where clk i))
                    (Views.joined_items db l)) as H.
      rewrite filter_all.
      enough (List.length
                (filter (fun i => Sql.holds (Views.expired_where clk i))
                   (Views.joined_items db l))
              + List.length
                  (filter (fun i => Sql.holds (Views.expiring_soon_where clk i))
                     (Views.joined_items db l))
              <= List.length (Views.joined_items db l))%nat by lia.
      apply H. intros i Hi.
      rewrite expired_where_status in Hi.
      rewrite expiring_soon_where_status.
      apply String.eqb_eq in Hi. now rewrite Hi.
  - cbn [Stats.getStats Stats.locations_with_count].
    intros loc n H. apply in_map_iff in H. destruct H as [l [[= <- <-] _]].
    apply property_or_0_getLocationCounts.
Qed.

Lemma location_counts_agree_witness :
  In (Sample.freezer, 2)
    (Stats.locations_with_count (Stats.getStats Sample.store Sample.noon))
  /\ 2 = items_at (Location.id Sample.freezer) Sample.store.
Proof.
  assert (H : In (Sample.freezer, 2)
                (Stats.locations_with_count
                   (Stats.getStats Sample.store Sample.noon)))
    by (left; reflexivity).
  split; [exact H|].
  exact (proj2 (proj2 (location_counts_agree Sample.store Sample.noon))
           Sample.freezer 2 H).
Defined.

Lemma text_property_add key n obj k :
  text_property_or_0 (Stats.add_to_property key n obj) k
  = text_property_or_0 obj k + (if (key =? k)%string then n else 0).
Proof.
  unfold text_property_or_0.
  induction obj as [|[k0 v] obj IH]; simpl.
  - destruct (String.eqb_spec key k); simpl; lia.
  - destruct (String.eqb_spec k0 key) as [->|Hne]; simpl.
    + destruct (String.eqb_spec key k); simpl; lia.
    + destruct (String.eqb_spec k0 k) as [->|Hne']; simpl.
      * destruct (String.eqb_spec key k); [congruence|lia].
      * exact IH.
Qed.

(** X9. [stats.byLocation] holds, under each location type, the sum of
    the item counts of the visible locations of that type. *)
Theorem byLocation_sums_by_type :
  forall db clk t,
    text_property_or_0 (Stats.byLocation (Stats.getStats db clk)) t
    = total_of_type t (Stats.locations_with_count (Stats.getStats db clk)).
Proof.
  intros db clk t. cbn [Stats.getStats Stats.byLocation
                        Stats.locations_with_count].
  set (cnt := fun loc =>
                Locations.property_or_0 (Locations.getLocationCounts db)
                  (Location.id loc)).
  assert (G : forall locs obj,
             text_property_or_0
               (fold_left
                  (fun o loc =>
                     Stats.add_to_property (Location.type loc) (cnt loc) o)
                  locs obj) t
             = text_property_or_0 obj t
               + total_of_type t (map (fun loc => (loc, cnt loc)) locs)).
  { induction locs as [|l locs IH]; intros obj; simpl; [lia|].
    rewrite IH, text_property_add. lia. }
  rewrite G. reflexivity.
Qed.

(** ** The consumption history *)

Lemma history_where_holds conds c :
  Sql.holds (History.where_clause conds c)
  = forallb (fun cond => Sql.holds (cond c)) conds.
Proof.
  unfold History.where_clause.
  assert (G : forall acc,
             Sql.holds (fold_left (fun a cond => Sql.and3 a (cond c)) conds acc)
             = Sql.holds acc && forallb (fun cond => Sql.holds (cond c)) conds).
  { induction conds as [|x conds IH]; intros acc; simpl.
    - now rewrite andb_true_r.
    - rewrite IH, holds_and3, andb_assoc. reflexivity. }
  now rewrite G.
Qed.

(** [datetime('now', 'localtime', '-N days')] is a date exactly when the
    instant [N] days back is in range. *)
Lemma datetime_minus_spec clk v :
  v <> 0 ->
  (days_back_in_range clk v
   /\ History.datetime_now_localtime_minus clk v
      = Some (datetime_now_localtime clk - v * 86400))
  \/ (~ days_back_in_range clk v
      /\ History.datetime_now_localtime_minus clk v = None).
Proof.
  intros Hv. unfold History.datetime_now_localtime_minus, days_back_in_range,
    History.valid_julian_ms.
  destruct (Z.ltb_spec v 0); [right; split; [lia|reflexivity]|].
  destruct (Z.leb_spec History.days_limit v);
    [right; split; [lia|reflexivity]|].
  destruct (Z.leb_spec 0 (History.julian_ms (localtime clk) - v * ms_per_day));
    cbn [andb]; [|right; split; [lia|reflexivity]].
  destruct (Z.leb_spec (History.julian_ms (localtime clk) - v * ms_per_day)
              464269060799999);
    [left; split; [lia|reflexivity] | right; split; [lia|reflexivity]].
Qed.

Lemma history_conditions_passes f clk c :
  forallb (fun cond => Sql.holds (cond c)) (History.conditions f clk) = true
  <-> passes_history f clk c.
Proof.
  unfold History.conditions, passes_history.
  rewrite !forallb_app, !andb_true_iff.
  assert (H1 : forallb (fun cond : Consumption.t -> Sql.tri =>
                          Sql.holds (cond c))
                 match History.itemId f with
                 | Some v =>
                     if JS.truthy_int v
                     then [fun c => Sql.cmp Z.eqb (Consumption.item_id c)
                                      (Some v)]
                     else []
                 | None => []
                 end = true
               <-> (forall v, History.itemId f = Some v -> v <> 0 ->
                              Consumption.item_id c = Some v)).
  { destruct (History.itemId f) as [v|]; [|split; [discriminate|auto]].
    destruct (JS.truthy_int v) eqn:T; cbn [forallb].
    - rewrite andb_true_r, holds_cmp_Z_eqb. apply truthy_int_iff in T.
      split; [now intros H v' [= <-] _ | auto].
    - split; [|auto]. intros _ v' [= <-] Hv.
      apply truthy_int_iff in Hv. congruence. }
  assert (H2 : forallb (fun cond : Consumption.t -> Sql.tri =>
                          Sql.holds (cond c))
                 match History.days f with
                 | Some v =>
                     if JS.truthy_int v
                     then [fun c =>
                             Sql.cmp Z.leb
                               (History.datetime_now_localtime_minus clk v)
                               (Some (Consumption.consumed_at c))]
                     else []
                 | None => []
                 end = true
               <-> (forall v, History.days f = Some v -> v <> 0 ->
                              days_back_in_range clk v
                              /\ datetime_now_localtime clk - v * 86400
                                 <= Consumption.consumed_at c)).
  { destruct (History.days f) as [v|]; [|split; [discriminate|auto]].
    destruct (JS.truthy_int v) eqn:T; cbn [forallb].
    - rewrite andb_true_r. apply truthy_int_iff in T.
      destruct (datetime_minus_spec clk v T) as [[Hin ->]|[Hout ->]];
        cbn [Sql.cmp Sql.holds].
      + destruct (Z.leb_spec (datetime_now_localtime clk - v * 86400)
                    (Consumption.consumed_at c)); split; try discriminate.
        * intros _ v' [= <-] _. split; [exact Hin|lia].
        * reflexivity.
        * intros H'. destruct (H' v eq_refl T). lia.
      + split; [discriminate|]. intros H'.
        destruct (H' v eq_refl T). contradiction.
    - split; [|auto]. intros _ v' [= <-] Hv.
      apply truthy_int_iff in Hv. congruence. }
  assert (H3 : forallb (fun cond : Consumption.t -> Sql.tri =>
                          Sql.holds (cond c))
                 match History.action f with
                 | Some v =>
                     if JS.truthy_string v
                     then [fun c =>
                             Sql.cmp String.eqb (Some (Consumption.action c))
                               (Some v)]
                     else []
                 | None => []
                 end = true
               <-> (forall v, History.action f = Some v -> v <> "" ->
                              Consumption.action c = v)).
  { destruct (History.action f) as [v|]; [|split; [discriminate|auto]].
    destruct (JS.truthy_string v) eqn:T; cbn [forallb].
    - rewrite andb_true_r, holds_cmp_String_eqb.
      apply truthy_string_iff in T.
      split; [intros [= H] v' [= <-] _; exact H
             | intros H; f_equal; auto].
    - split; [|auto]. intros _ v' [= <-] Hv.
      apply truthy_string_iff in Hv. congruence. }
  tauto.
Qed.

Lemma In_firstn {A} n (l : list A) x : In x (firstn n l) -> In x l.
Proof.
  revert n. induction l as [|y l IH]; intros n; destruct n; simpl; try tauto.
  intros [->|H]; [auto | right; eauto].
Qed.




Lemma StronglySorted_firstn {A} (R : A -> A -> Prop) n l :
  StronglySorted R l -> StronglySorted R (firstn n l).
Proof.
  intros H. revert n. induction H as [|a l Hl IH Hall]; intros n.
  - rewrite firstn_nil. constructor.
  - destruct n as [|n]; simpl; constructor; [apply IH|].
    rewrite Forall_forall in *. intros x Hx. apply Hall.
    eapply In_firstn; eauto.
Qed.

(** X11. [getConsumptionHistory] returns the records newest first: no
    record is followed by one consumed later. *)
Theorem getConsumptionHistory_newest_first :
  forall f db clk,
    StronglySorted
      (fun a b => Consumption.consumed_at b <= Consumption.consumed_at a)
      (History.getConsumptionHistory f db clk).
Proof.
  intros f db clk. unfold History.getConsumptionHistory.
  assert (S : StronglySorted
                (fun a b =>
                   Consumption.consumed_at b <= Consumption.consumed_at a)
                (Sorter.sort_by History.newest_first
                   (filter
                      (fun c =>
                         Sql.holds
                           (History.where_clause
                              (History.conditions f clk) c))
                      (consumption_history db)))).
  { apply StronglySorted_impl
      with (R := fun a b => History.newest_first a b = true).
    - intros a b H. unfold History.newest_first in H. lia.
    - apply sort_by_StronglySorted; unfold History.newest_first.
      + intros a b. lia.
      + intros a b c. lia. }
  unfold History.apply_limit. destruct (History.limit f) as [n|]; [|exact S].
  destruct (JS.truthy_int n); [|exact S]. destruct (n <? 0); [exact S|].
  now apply StronglySorted_firstn.
Qed.

(** ** Setting, adding and adjusting a quantity *)

Lemma select_same_locations db db' clk i :
  locations db' = locations db ->
  Database.select db' clk i = Database.select db clk i.
Proof.
  intros H. unfold Database.select, Database.joined_location. now rewrite H.
Qed.

Lemma getItemById_same_tables db db' clk id :
  locations db' = locations db -> items db' = items db ->
  Database.getItemById id db' clk = Database.getItemById id db clk.
Proof.
  intros Hl Hi. unfold Database.getItemById. rewrite Hi.
  destruct (find _ (items db)); simpl; [|reflexivity].
  now rewrite (select_same_locations db db').
Qed.

Lemma find_map_other_id id id' (set : Item.t -> Item.t) rows :
  id' <> id ->
  (forall r, Item.id (set r) = Item.id r) ->
  find (fun i => Item.id i =? id')
    (map (fun r => if Item.id r =? id then set r else r) rows)
  = find (fun i => Item.id i =? id') rows.
Proof.
  intros Hne Hid. induction rows as [|r rows IH]; simpl; [reflexivity|].
  destruct (Z.eqb_spec (Item.id r) id) as [E|E].
  - rewrite Hid. destruct (Z.eqb_spec (Item.id r) id'); [congruence|exact IH].
  - destruct (Item.id r =? id'); [reflexivity|exact IH].
Qed.

(** [updateItemQuantity] with a quantity that is not negative rewrites the
    rows of that id, and nothing else. *)
Lemma updateItemQuantity_returns id q clk db :
  consistent db = true ->
  Qle_bool 0 q = true ->
  exists n,
    Database.updateItemQuantity id q clk db
    = (Returned (mkrun (last_insert_rowid db) n),
       mkdb (locations db) (map (quantity_set id q clk) (items db))
         (consumption_history db) (seq_items db)
         (seq_consumption_history db) (last_insert_rowid db)
         (foreign_keys db)).
Proof.
  intros Hc Hq. unfold Database.updateItemQuantity, Database.run_update.
  match goal with
  | |- context [Database.update_rows db id ?s (items db)] =>
      destruct (update_rows_returns db id s (items db)) as [n Hn]
  end.
  { intros r Hr _. apply items_constraints_set_quantity with (db := db);
      auto using consistent_row. }
  rewrite Hn. exists n. reflexivity.
Qed.

Lemma update_rows_quantity_refused db id q ts rows i :
  find (fun i => Item.id i =? id) rows = Some i ->
  (forall r, In r rows -> Database.items_constraints db r = None) ->
  Qle_bool 0 q = false ->
  Database.update_rows db id
    (fun old => Item.set_updated_at ts (Item.set_quantity q old)) rows
  = Thrown (CheckFailed "quantity").
Proof.
  intros Hfind Hall Hq.
  induction rows as [|r rows IH]; simpl in *; [discriminate|].
  destruct (Item.id r =? id) eqn:E.
  - assert (Hr : Database.items_constraints db r = None)
      by (apply Hall; auto).
    apply items_constraints_None in Hr. destruct Hr as [Hh _].
    unfold Database.items_constraints.
    cbn [Item.set_updated_at Item.set_quantity Item.is_homemade
         Item.quantity].
    rewrite Hh, Hq. reflexivity.
  - rewrite IH; auto.
Qed.

(** With a negative quantity it throws on [CHECK(quantity >= 0)] as soon
    as there is a row of that id. *)
Lemma updateItemQuantity_refused id q clk db i :
  consistent db = true ->
  find (fun i => Item.id i =? id) (items db) = Some i ->
  Qle_bool 0 q = false ->
  Database.updateItemQuantity id q clk db
  = (Thrown (CheckFailed "quantity"), db).
Proof.
  intros Hc Hfind Hq. unfold Database.updateItemQuantity, Database.run_update.
  rewrite (update_rows_quantity_refused db id q _ (items db) i Hfind); auto.
  intros r Hr. now apply consistent_row.
Qed.

Lemma Qle_bool_false_lt a b : Qle_bool a b = false <-> (b < a)%Q.
Proof.
  split.
  - intros H. apply Qnot_le_lt. intros Hle. apply Qle_bool_iff in Hle.
    congruence.
  - intros H. destruct (Qle_bool a b) eqn:E; [|reflexivity].
    apply Qle_bool_iff in E. lra.
Qed.

Lemma getItemById_quantity_set id q clk db db' i :
  locations db' = locations db ->
  items db' = map (quantity_set id q clk) (items db) ->
  find (fun i => Item.id i =? id) (items db) = Some i ->
  Database.getItemById id db' clk
  = Some (Database.select db clk
            (Item.set_updated_at (datetime_now_localtime clk)
               (Item.set_quantity q i)))
  /\ forall id', id' <> id ->
       Database.getItemById id' db' clk = Database.getItemById id' db clk.
Proof.
  intros Hl Hi Hfind. unfold Database.getItemById. rewrite Hi.
  unfold quantity_set. split.
  - rewrite find_map_same_id by reflexivity. rewrite Hfind. cbn [option_map].
    now rewrite (select_same_locations db db').
  - intros id' Hne. rewrite find_map_other_id by (auto; reflexivity).
    destruct (find (fun i0 => Item.id i0 =? id') (items db));
      cbn [option_map]; [|reflexivity].
    now rewrite (select_same_locations db db').
Qed.

(** X12. [updateItemQuantity] overwrites the quantity of the item and
    stamps it, and touches nothing else: the other items, the locations
    and the consumption history are as before. A negative quantity is
    refused by [CHECK(quantity >= 0)] and nothing is written. *)
Theorem updateItemQuantity_overwrites :
  forall id q clk db i,
    consistent db = true ->
    find (fun i => Item.id i =? id) (items db) = Some i ->
    ((0 <= q)%Q ->
     exists res db',
       Database.updateItemQuantity id q clk db = (Returned res, db')
       /\ Database.getItemById id db' clk
          = Some (Database.select db clk
                    (Item.set_updated_at (datetime_now_localtime clk)
                       (Item.set_quantity q i)))
       /\ (forall id', id' <> id ->
             Database.getItemById id' db' clk
             = Database.getItemById id' db clk)
       /\ consumption_history db' = consumption_history db
       /\ locations db' = locations db)
    /\ ((q < 0)%Q ->
        Database.updateItemQuantity id q clk db
        = (Thrown (CheckFailed "quantity"), db)).
Proof.
  intros id q clk db i Hc Hfind. split.
  - intros Hq. apply Qle_bool_iff in Hq.
    destruct (updateItemQuantity_returns id q clk db Hc Hq) as [n Hn].
    eexists. eexists. split; [exact Hn|].
    destruct (getItemById_quantity_set id q clk db
                (mkdb (locations db) (map (quantity_set id q clk) (items db))
                   (consumption_history db) (seq_items db)
                   (seq_consumption_history db) (last_insert_rowid db)
                   (foreign_keys db)) i eq_refl eq_refl Hfind) as [H1 H2].
    repeat split; auto.
  - intros Hq. apply (updateItemQuantity_refused id q clk db i Hc Hfind).
    now apply Qle_bool_false_lt.
Qed.

Lemma updateItemQuantity_overwrites_witness :
  consistent Sample.store = true
  /\ exists res db',
       Database.updateItemQuantity 1 7 Sample.noon Sample.store
       = (Returned res, db')
       /\ Database.getItemById 1 db' Sample.noon
          = Some (Database.select Sample.store Sample.noon
                    (Item.set_updated_at (datetime_now_localtime Sample.noon)
                       (Item.set_quantity 7 Sample.chicken))).
Proof.
  split; [reflexivity|].
  destruct (updateItemQuantity_overwrites 1 7 Sample.noon Sample.store
              Sample.chicken eq_refl eq_refl) as [H _].
  destruct (H ltac:(discriminate)) as [res [db' [H1 [H2 _]]]].
  exists res, db'. split; [exact H1 | exact H2].
Defined.

(** X13. [POST /items/add-quantity/:id] never writes a consumption
    record. For an item that exists it sets the quantity to the current
    one plus the amount (1 in place of a zero, missing or unreadable
    amount); a negative amount that would take the quantity below zero is
    refused and nothing is written. For an item that does not exist it
    answers not-found and writes nothing. *)
Theorem add_quantity_sets_sum_without_record :
  forall id body clk db,
    consistent db = true ->
    consumption_history
      (snd (Quantity.post_items_add_quantity id body clk db))
    = consumption_history db
    /\ match Database.getItemById id db clk with
       | None =>
           Quantity.post_items_add_quantity id body clk db
           = (Quantity.NotFound, db)
       | Some r =>
           let a := JS.number_or (Some (Routes.amount body)) 1 in
           let q := Item.quantity (Database.item r) in
           ((0 <= q + a)%Q ->
            exists db' r',
              Quantity.post_items_add_quantity id body clk db
              = (if Routes.json body then Quantity.NewQuantity (q + a)
                 else Quantity.Redirected, db')
              /\ Database.getItemById id db' clk = Some r'
              /\ Item.quantity (Database.item r') = (q + a)%Q)
           /\ ((q + a < 0)%Q ->
               Quantity.post_items_add_quantity id body clk db
               = (if Routes.json body then Quantity.ServerError
                  else Quantity.RedirectedHome, db))
       end.
Proof.
  intros id body clk db Hc. unfold Quantity.post_items_add_quantity.
  destruct (Database.getItemById id db clk) as [r|] eqn:Hget;
    [|split; reflexivity].
  destruct (getItemById_find _ _ _ _ Hget) as [i [Hfind [-> Hid]]].
  cbn zeta. rewrite select_item, Hid.
  set (a := JS.number_or (Some (Routes.amount body)) 1).
  destruct (Qle_bool 0 (Item.quantity i + a)) eqn:Hq.
  - destruct (updateItemQuantity_returns id (Item.quantity i + a) clk db
                Hc Hq) as [n Hn].
    rewrite Hn. split; [reflexivity|]. split.
    + intros _. eexists. eexists. split; [reflexivity|].
      match goal with
      | |- Database.getItemById id ?d clk = _ /\ _ =>
          destruct (getItemById_quantity_set id (Item.quantity i + a) clk db
                      d i eq_refl eq_refl Hfind) as [H1 _]
      end.
      split; [exact H1|]. reflexivity.
    + intros Hneg. apply Qle_bool_iff in Hq. lra.
  - rewrite (updateItemQuantity_refused id _ clk db i Hc Hfind Hq).
    split; [reflexivity|]. split.
    + intros Hpos. apply Qle_bool_iff in Hpos. congruence.
    + reflexivity.
Qed.

Lemma add_quantity_sets_sum_without_record_witness :
  consistent Sample.store = true
  /\ consumption_history
       (snd (Quantity.post_items_add_quantity 1 SampleQuantity.add_two
               Sample.noon Sample.store))
     = consumption_history Sample.store.
Proof.
  split; [reflexivity|].
  exact (proj1 (add_quantity_sets_sum_without_record 1 SampleQuantity.add_two
                  Sample.noon Sample.store eq_refl)).
Defined.

Lemma Qabs_negative_pos d : (d < 0)%Q -> Qle_bool (Qabs d) 0 = false.
Proof.
  intros H. apply Qle_bool_false_lt.
  rewrite (Qabs_neg d) by lra. lra.
Qed.

Lemma log_then_set_quantity_bad_action id i clk db used action notes q :
  find (fun i => Item.id i =? id) (items db) = Some i ->
  Qle_bool used 0 = false ->
  Database.mem_string action Database.actions = false ->
  (Database.logConsumption id used action notes clk ;;;
   Database.updateItemQuantity id q clk) db
  = (Thrown (CheckFailed "action"), db).
Proof.
  intros Hfind Hused Hact.
  unfold bind, Database.logConsumption, Database.getItemById.
  rewrite Hfind. cbn [option_map]. now rewrite Hused, Hact.
Qed.

(** X14. [PUT /api/items/:id/quantity] with an absolute quantity stores
    that quantity, or 0 in place of a negative one, writes no consumption
    record and answers with the item at its new quantity. Without a
    numeric [quantity] or [delta] it answers bad-request, and for an item
    that does not exist not-found; in both cases nothing is written. *)
Theorem put_quantity_absolute :
  forall id body clk db,
    consistent db = true ->
    match Database.getItemById id db clk with
    | None =>
        Quantity.put_items_quantity id body clk db = (Quantity.NotFound, db)
    | Some r =>
        (forall n,
           Quantity.quantity body = Some n ->
           exists db' r',
             Quantity.put_items_quantity id body clk db
             = (Quantity.UpdatedItem
                  (Quantity.with_quantity (JS.Math_max 0 n) r), db')
             /\ Database.getItemById id db' clk = Some r'
             /\ Item.quantity (Database.item r') = JS.Math_max 0 n
             /\ (Item.quantity (Database.item r') == Qmax 0 n)%Q
             /\ consumption_history db' = consumption_history db)
        /\ (Quantity.quantity body = None -> Quantity.delta body = None ->
            Quantity.put_items_quantity id body clk db
            = (Quantity.BadRequest, db))
    end.
Proof.
  intros id body clk db Hc. unfold Quantity.put_items_quantity.
  destruct (Database.getItemById id db clk) as [r|] eqn:Hget;
    [|reflexivity].
  destruct (getItemById_find _ _ _ _ Hget) as [i [Hfind [-> Hid]]].
  split.
  - intros n Hn. rewrite Hn, select_item, Hid.
    assert (Hq : Qle_bool 0 (JS.Math_max 0 n) = true)
      by (apply Qle_bool_iff, Math_max_0_nonneg).
    destruct (updateItemQuantity_returns id (JS.Math_max 0 n) clk db Hc Hq)
      as [k Hk].
    rewrite Hk. eexists. eexists. split; [reflexivity|].
    match goal with
    | |- Database.getItemById id ?d clk = _ /\ _ =>
        destruct (getItemById_quantity_set id (JS.Math_max 0 n) clk db
                    d i eq_refl eq_refl Hfind) as [H1 _]
    end.
    split; [exact H1|]. rewrite select_item.
    cbn [Item.set_updated_at Item.set_quantity Item.quantity
         consumption_history].
    repeat split. apply Math_max_Qmax.
  - intros Hn Hd. now rewrite Hn, Hd.
Qed.

Lemma put_quantity_absolute_witness :
  consistent Sample.store = true
  /\ exists db' r',
       Quantity.put_items_quantity 1 SampleQuantity.set_to_five Sample.noon
         Sample.store
       = (Quantity.UpdatedItem
            (Quantity.with_quantity (JS.Math_max 0 5)
               (Database.select Sample.store Sample.noon Sample.chicken)),
          db')
       /\ Database.getItemById 1 db' Sample.noon = Some r'
       /\ Item.quantity (Database.item r') = JS.Math_max 0 5.
Proof.
  split; [reflexivity|].
  pose proof (put_quantity_absolute 1 SampleQuantity.set_to_five Sample.noon
                Sample.store eq_refl) as H.
  change (Database.getItemById 1 Sample.store Sample.noon)
    with (Some (Database.select Sample.store Sample.noon Sample.chicken)) in H.
  cbv beta iota in H. destruct H as [H _].
  destruct (H 5%Q eq_refl) as [db' [r' [H1 [H2 [H3 _]]]]].
  exists db', r'. split; [exact H1|]. split; [exact H2|exact H3].
Defined.

(** X15. [PUT /api/items/:id/quantity] with a [delta]: the quantity
    becomes [max(0, quantity + delta)]. An increase writes no record. A
    decrease first appends one record, with [quantity_used = |delta|] as
    requested (not clamped to what was left) and the action sent, or
    ["used"] without one; when that action is not one the table accepts,
    nothing is written at all and the answer is the failure one. *)
Theorem put_quantity_delta :
  forall id body clk db r d,
    consistent db = true ->
    Database.getItemById id db clk = Some r ->
    Quantity.quantity body = None ->
    Quantity.delta body = Some d ->
    let q := Item.quantity (Database.item r) in
    let action := JS.or_else JS.truthy_string (Quantity.action body) "used" in
    ((0 <= d)%Q ->
     exists db' r',
       Quantity.put_items_quantity id body clk db
       = (Quantity.UpdatedItem
            (Quantity.with_quantity (JS.Math_max 0 (q + d)) r), db')
       /\ Database.getItemById id db' clk = Some r'
       /\ Item.quantity (Database.item r') = JS.Math_max 0 (q + d)
       /\ consumption_history db' = consumption_history db)
    /\ ((d < 0)%Q ->
        Database.mem_string action Database.actions = true ->
        exists db' c r',
          Quantity.put_items_quantity id body clk db
          = (Quantity.UpdatedItem
               (Quantity.with_quantity (JS.Math_max 0 (q + d)) r), db')
          /\ consumption_history db' = consumption_history db ++ [c]
          /\ Consumption.item_id c = Some id
          /\ Consumption.quantity_used c = Qabs d
          /\ Consumption.action c = action
          /\ Database.getItemById id db' clk = Some r'
          /\ Item.quantity (Database.item r') = JS.Math_max 0 (q + d)
          /\ (0 <= Item.quantity (Database.item r'))%Q)
    /\ ((d < 0)%Q ->
        Database.mem_string action Database.actions = false ->
        Quantity.put_items_quantity id body clk db
        = (Quantity.ServerError, db)).
Proof.
  intros id body clk db r d Hc Hget Hn Hd.
  destruct (getItemById_find _ _ _ _ Hget) as [i [Hfind [-> Hid]]].
  cbn zeta. rewrite select_item.
  unfold Quantity.put_items_quantity. rewrite Hget, Hn, Hd.
  rewrite select_item, Hid.
  set (newq := JS.Math_max 0 (Item.quantity i + d)).
  assert (Hq : Qle_bool 0 newq = true)
    by (apply Qle_bool_iff, Math_max_0_nonneg).
  split; [|split].
  - intros Hpos. apply Qle_bool_iff in Hpos. rewrite Hpos. cbn [negb].
    unfold bind, ret.
    destruct (updateItemQuantity_returns id newq clk db Hc Hq) as [k Hk].
    rewrite Hk. eexists. eexists. split; [reflexivity|].
    match goal with
    | |- Database.getItemById id ?x clk = _ /\ _ =>
        destruct (getItemById_quantity_set id newq clk db
                    x i eq_refl eq_refl Hfind) as [H1 _]
    end.
    split; [exact H1|]. rewrite select_item. split; reflexivity.
  - intros Hneg Hact.
    assert (Hd0 : Qle_bool 0 d = false) by now apply Qle_bool_false_lt.
    rewrite Hd0. cbn [negb].
    destruct (log_then_set_quantity id i clk db (Qabs d) _ "" newq
                Hc Hfind (Qabs_negative_pos d Hneg) Hact Hq) as [res Hrun].
    rewrite Hrun. eexists. eexists. eexists. split; [reflexivity|].
    cbn [consumption_history Consumption.item_id Consumption.action
         Consumption.quantity_used].
    repeat (split; [reflexivity|]).
    split.
    { unfold Database.getItemById. cbn [items].
      rewrite find_map_same_id by reflexivity.
      rewrite Hfind. reflexivity. }
    rewrite select_item.
    cbn [Item.set_updated_at Item.set_quantity Item.quantity].
    split; [reflexivity | apply Math_max_0_nonneg].
  - intros Hneg Hact.
    assert (Hd0 : Qle_bool 0 d = false) by now apply Qle_bool_false_lt.
    rewrite Hd0. cbn [negb].
    rewrite (log_then_set_quantity_bad_action id i clk db (Qabs d) _ "" newq
               Hfind (Qabs_negative_pos d Hneg) Hact).
    reflexivity.
Qed.

Lemma put_quantity_delta_witness :
  consistent Sample.store = true
  /\ exists db' c r',
       Quantity.put_items_quantity 1 SampleQuantity.take_ten Sample.noon
         Sample.store
       = (Quantity.UpdatedItem
            (Quantity.with_quantity (JS.Math_max 0 (3 + -10))
               (Database.select Sample.store Sample.noon Sample.chicken)),
          db')
       /\ consumption_history db' = [c]
       /\ Consumption.quantity_used c = Qabs (-10)
       /\ Database.getItemById 1 db' Sample.noon = Some r'
       /\ Item.quantity (Database.item r') = JS.Math_max 0 (3 + -10).
Proof.
  split; [reflexivity|].
  destruct (put_quantity_delta 1 SampleQuantity.take_ten Sample.noon
              Sample.store
              (Database.select Sample.store Sample.noon Sample.chicken)
              (-10)%Q eq_refl eq_refl eq_refl eq_refl) as [_ [H _]].
  destruct (H eq_refl eq_refl)
    as [db' [c [r' [H1 [H2 [_ [H4 [_ [H6 [H7 _]]]]]]]]]].
  exists db', c, r'.
  split; [exact H1|]. split; [exact H2|]. split; [exact H4|].
  split; [exact H6|exact H7].
Defined.

(** ** Deleting an item *)

Lemma on_delete_set_null_unreferenced id history :
  forallb Database.item_id_not_null
    (map (Database.on_delete_set_null id)
       (filter (Database.references id) history)) = true ->
  map (Database.on_delete_set_null id) history = history.
Proof.
  induction history as [|c history IH]; simpl; [reflexivity|].
  destruct (Database.references id c) eqn:E; simpl.
  - unfold Database.on_delete_set_null at 1. rewrite E. simpl. discriminate.
  - intros H. unfold Database.on_delete_set_null at 1. rewrite E.
    now rewrite IH.
Qed.

Lemma find_filter_removed id rows :
  find (fun i => Item.id i =? id)
    (filter (fun i => negb (Item.id i =? id)) rows) = None.
Proof.
  induction rows as [|r rows IH]; simpl; [reflexivity|].
  destruct (Item.id r =? id) eqn:E; simpl; [exact IH|]. now rewrite E.
Qed.

Lemma find_filter_kept id id' rows :
  id' <> id ->
  find (fun i => Item.id i =? id')
    (filter (fun i => negb (Item.id i =? id)) rows)
  = find (fun i => Item.id i =? id') rows.
Proof.
  intros Hne. induction rows as [|r rows IH]; simpl; [reflexivity|].
  destruct (Z.eqb_spec (Item.id r) id) as [E|E]; simpl.
  - destruct (Z.eqb_spec (Item.id r) id'); [congruence|exact IH].
  - destruct (Item.id r =? id'); [reflexivity|exact IH].
Qed.

Lemma filter_nil_iff {A} (p : A -> bool) l :
  filter p l = [] <-> forall x, In x l -> p x = false.
Proof.
  induction l as [|y l IH]; simpl.
  - split; [intros _ x [] | reflexivity].
  - destruct (p y) eqn:E.
    + split; [discriminate|]. intros H.
      specialize (H y (or_introl eq_refl)). congruence.
    + rewrite IH. split.
      * intros H x [<-|Hx]; auto.
      * intros H x Hx. apply H. auto.
Qed.

(** X16. [deleteItem] never changes the consumption history, whether it
    returns or throws. When it returns, the item is gone and every other
    item reads as before. It returns whenever foreign keys are not
    enforced, or no record references the item. *)
Theorem deleteItem_removes_only_the_item :
  forall id clk db,
    consumption_history (snd (Database.deleteItem id db))
    = consumption_history db
    /\ (forall res db',
          Database.deleteItem id db = (Returned res, db') ->
          Database.getItemById id db' clk = None
          /\ (forall id', id' <> id ->
                Database.getItemById id' db' clk
                = Database.getItemById id' db clk)
          /\ locations db' = locations db)
    /\ (foreign_keys db = false
        \/ (forall c, In c (consumption_history db) ->
                      Consumption.item_id c <> Some id) ->
        exists res db', Database.deleteItem id db = (Returned res, db')).
Proof.
  intros id clk db. unfold Database.deleteItem.
  destruct (filter (fun i => Item.id i =? id) (items db)) as [|x l] eqn:Ef.
  - split; [reflexivity|]. split.
    + intros res db' [= <- <-].
      assert (Hnone : find (fun i => Item.id i =? id) (items db) = None).
      { destruct (find _ (items db)) as [i|] eqn:E; [|reflexivity].
        apply find_some in E.
        assert (Hin : In i (filter (fun i => Item.id i =? id) (items db)))
          by (apply filter_In; tauto).
        rewrite Ef in Hin. destruct Hin. }
      unfold Database.getItemById. rewrite Hnone. auto.
    + intros _. eexists. eexists. reflexivity.
  - destruct (foreign_keys db) eqn:Hfk.
    + destruct (forallb _ _) eqn:Hall.
      * pose proof (on_delete_set_null_unreferenced id _ Hall) as Hsame.
        rewrite Hsame. split; [reflexivity|]. split.
        -- intros res db' [= <- <-]. unfold Database.getItemById.
           cbn [items locations]. rewrite find_filter_removed.
           split; [reflexivity|]. split; [|reflexivity].
           intros id' Hne. rewrite find_filter_kept by exact Hne.
           destruct (find (fun i => Item.id i =? id') (items db));
             reflexivity.
        -- intros _. eexists. eexists. reflexivity.
      * split; [reflexivity|]. split; [discriminate|].
        intros [Hoff|Hnoref]; [discriminate|].
        exfalso.
        assert (Hnil : filter (Database.references id)
                         (consumption_history db) = []).
        { apply filter_nil_iff. intros c Hc. unfold Database.references.
          specialize (Hnoref c Hc).
          destruct (Consumption.item_id c) as [k|]; [|reflexivity].
          destruct (Z.eqb_spec k id); [congruence|reflexivity]. }
        rewrite Hnil in Hall. discriminate.
    + split; [reflexivity|]. split.
      * intros res db' [= <- <-]. unfold Database.getItemById.
        cbn [items locations]. rewrite find_filter_removed.
        split; [reflexivity|]. split; [|reflexivity].
        intros id' Hne. rewrite find_filter_kept by exact Hne.
        destruct (find (fun i => Item.id i =? id') (items db));
          reflexivity.
      * intros _. eexists. eexists. reflexivity.
Qed.

Lemma deleteItem_removes_only_the_item_witness :
  (forall c, In c (consumption_history Sample.store) ->
             Consumption.item_id c <> Some 2)
  /\ exists res db',
       Database.deleteItem 2 Sample.store = (Returned res, db')
       /\ Database.getItemById 2 db' Sample.noon = None.
Proof.
  assert (H : forall c, In c (consumption_history Sample.store) ->
                        Consumption.item_id c <> Some 2)
    by (intros c []).
  split; [exact H|].
  destruct (deleteItem_removes_only_the_item 2 Sample.noon Sample.store)
    as [_ [Hret Hex]].
  destruct (Hex (or_intror H)) as [res [db' Hd]].
  exists res, db'. split; [exact Hd|].
  exact (proj1 (Hret res db' Hd)).
Defined.

(** ** What every write keeps *)

Lemma consistent_iff db :
  consistent db = true
  <-> forall r, In r (items db) -> Database.items_constraints db r = None.
Proof.
  unfold consistent. rewrite forallb_forall. split; intros H r Hr.
  - specialize (H r Hr). now destruct (Database.items_constraints db r).
  - now rewrite (H r Hr).
Qed.

Lemma items_constraints_same_store db db' r :
  locations db' = locations db ->
  foreign_keys db' = foreign_keys db ->
  Database.items_constraints db' r = Database.items_constraints db r.
Proof.
  intros Hl Hf. unfold Database.items_constraints. now rewrite Hl, Hf.
Qed.

Lemma update_rows_Returned db id set rows rs n :
  Database.update_rows db id set rows = Returned (rs, n) ->
  rs = map (fun r => if Item.id r =? id then set r else r) rows
  /\ forall r, In r rows -> Item.id r = id ->
               Database.items_constraints db (set r) = None.
Proof.
  revert rs n. induction rows as [|x rows IH]; simpl; intros rs n H.
  - injection H as <- <-. split; [reflexivity | intros r []].
  - destruct (Z.eqb_spec (Item.id x) id) as [E|E].
    + destruct (Database.items_constraints db (set x)) eqn:Hx;
        [discriminate|].
      destruct (Database.update_rows db id set rows) as [[rs' n']|];
        [|discriminate].
      injection H as <- <-. destruct (IH rs' n' eq_refl) as [-> Hall].
      split; [reflexivity|]. intros r [<-|Hr] Hid; auto.
    + destruct (Database.update_rows db id set rows) as [[rs' n']|];
        [|discriminate].
      injection H as <- <-. destruct (IH rs' n' eq_refl) as [-> Hall].
      split; [reflexivity|]. intros r [<-|Hr] Hid; [congruence|auto].
Qed.

Lemma run_update_keeps id set db :
  (forall r, Item.id (set r) = Item.id r) ->
  consistent db = true ->
  NoDup (map Item.id (items db)) ->
  consistent (snd (Database.run_update id set db)) = true
  /\ NoDup (map Item.id (items (snd (Database.run_update id set db)))).
Proof.
  intros Hid Hc Hnd. unfold Database.run_update.
  destruct (Database.update_rows db id set (items db)) as [[rs n]|e] eqn:Hu;
    cbn [snd]; [|auto].
  apply update_rows_Returned in Hu. destruct Hu as [-> Hall]. split.
  - apply consistent_iff. cbn [items]. intros r Hr.
    rewrite (items_constraints_same_store db) by reflexivity.
    apply in_map_iff in Hr. destruct Hr as [x [<- Hx]].
    destruct (Z.eqb_spec (Item.id x) id); [auto|].
    now apply consistent_row.
  - cbn [items]. rewrite map_map.
    erewrite map_ext; [exact Hnd|].
    intros x. cbn. destruct (Item.id x =? id); [apply Hid|reflexivity].
Qed.

(** X17. The writes on items keep the table sound: if every stored item
    satisfies the constraints of [items] (quantity not negative, a known
    unit, the homemade flag 0 or 1, an existing location while foreign
    keys are enforced) and the ids are distinct, the same holds after
    [createItem], [updateItem], [updateItemQuantity], [deleteItem] and
    [logConsumption], whether they return or throw. *)
Theorem item_writes_keep_table_sound :
  forall clk db,
    consistent db = true ->
    NoDup (map Item.id (items db)) ->
    forall db',
      (exists d, db' = snd (Database.createItem d clk db))
      \/ (exists id d, db' = snd (Database.updateItem id d clk db))
      \/ (exists id q, db' = snd (Database.updateItemQuantity id q clk db))
      \/ (exists id, db' = snd (Database.deleteItem id db))
      \/ (exists id used action notes,
            db' = snd (Database.logConsumption id used action notes clk db)) ->
      consistent db' = true /\ NoDup (map Item.id (items db')).
Proof.
  intros clk db Hc Hnd db'
    [[d ->]|[[id [d ->]]|[[id [q ->]]|[[id ->]|[id [u [a [n ->]]]]]]]].
  - unfold Database.createItem.
    destruct (Database.d_title d) as [title|]; cbn [snd]; [|auto].
    set (rowid := Database.next_rowid (seq_items db) (map Item.id (items db))).
    destruct (Database.items_constraints db
                (Database.insert_values d clk rowid title)) eqn:Hr;
      cbn [snd]; [auto|].
    split.
    + apply consistent_iff. cbn [items]. intros r Hin.
      rewrite (items_constraints_same_store db) by reflexivity.
      apply in_app_iff in Hin. destruct Hin as [Hin|[<-|[]]]; [|exact Hr].
      now apply consistent_row.
    + cbn [items]. rewrite map_app. cbn [map Database.insert_values Item.id].
      apply NoDup_app; [exact Hnd | repeat constructor; intros [] |].
      intros x Hx [<-|[]].
      pose proof (next_rowid_above (seq_items db) _ _ Hx). lia.
  - unfold Database.updateItem.
    destruct (Database.d_title d) as [title|]; [|cbn; auto].
    destruct (Database.d_date_added d) as [da|]; [|cbn; auto].
    now apply run_update_keeps.
  - unfold Database.updateItemQuantity. now apply run_update_keeps.
  - unfold Database.deleteItem.
    assert (K : forall h,
               consistent
                 (mkdb (locations db)
                    (filter (fun i => negb (Item.id i =? id)) (items db))
                    h (seq_items db) (seq_consumption_history db)
                    (last_insert_rowid db) (foreign_keys db)) = true
               /\ NoDup
                    (map Item.id
                       (filter (fun i => negb (Item.id i =? id)) (items db)))).
    { intros h. split.
      - apply consistent_iff. cbn [items]. intros r Hr.
        rewrite (items_constraints_same_store db) by reflexivity.
        apply filter_In in Hr. now apply consistent_row.
      - clear Hc. induction (items db) as [|x l IH]; simpl; [constructor|].
        inversion Hnd as [|? ? Hx Hnd']; subst.
        destruct (Item.id x =? id); simpl; [auto|].
        constructor; [|auto]. intros Hin. apply Hx.
        apply in_map_iff in Hin. destruct Hin as [y [Hy Hin]].
        apply filter_In in Hin. rewrite <- Hy. apply in_map. tauto. }
    destruct (filter (fun i => Item.id i =? id) (items db)); cbn [snd];
      [auto|].
    destruct (foreign_keys db) eqn:Hfk.
    + destruct (forallb _ _); cbn [snd]; [apply K|auto].
    + apply K.
  - unfold Database.logConsumption.
    destruct (Database.getItemById id db clk); cbn [snd]; [|auto].
    destruct (Qle_bool u 0); cbn [snd]; [auto|].
    destruct (negb _); cbn [snd]; [auto|].
    split; [|exact Hnd].
    apply consistent_iff. cbn [items]. intros x Hx.
    rewrite (items_constraints_same_store db) by reflexivity.
    now apply consistent_row.
Qed.

Lemma item_writes_keep_table_sound_witness :
  consistent Sample.store = true
  /\ NoDup (map Item.id (items Sample.store))
  /\ consistent (snd (Database.createItem Sample.soup Sample.noon Sample.store))
     = true.
Proof.
  assert (Hnd : NoDup (map Item.id (items Sample.store))).
  { simpl. repeat constructor; simpl; intuition discriminate. }
  split; [reflexivity|]. split; [exact Hnd|].
  exact (proj1 (item_writes_keep_table_sound Sample.noon Sample.store
                  eq_refl Hnd _ (or_introl (ex_intro _ Sample.soup eq_refl)))).
Defined.

(** X18. What [POST /items/use/:id] logs can be read back: after a use
    with a positive amount, the history of that item lists a record with
    the amount used, the action ["used"] and the item's title and unit. *)
Theorem use_is_listed_in_history :
  forall id body clk db r,
    consistent db = true ->
    Database.getItemById id db clk = Some r ->
    (0 < JS.number_or (Some (Routes.amount body)) 1)%Q ->
    exists c,
      In c (History.getConsumptionHistory
              (History.mkfilters (Some id) None None None)
              (snd (Routes.post_items_use id body clk db)) clk)
      /\ Consumption.quantity_used c
         = JS.number_or (Some (Routes.amount body)) 1
      /\ Consumption.action c = "used"
      /\ Consumption.item_title c = Item.title (Database.item r)
      /\ Consumption.unit c = Item.unit (Database.item r).
Proof.
  intros id body clk db r Hc Hget Ha.
  destruct (getItemById_find _ _ _ _ Hget) as [i [Hfind [-> Hid]]].
  set (a := JS.number_or (Some (Routes.amount body)) 1) in *.
  set (newq := JS.Math_max 0 (Item.quantity i - a)).
  assert (Hused : Qle_bool a 0 = false) by now apply Qle_bool_false_lt.
  assert (Hq : Qle_bool 0 newq = true)
    by (apply Qle_bool_iff, Math_max_0_nonneg).
  destruct (log_then_set_quantity id i clk db a "used"
              (JS.or_else JS.truthy_string (Routes.notes body) "") newq
              Hc Hfind Hused eq_refl Hq) as [res Hrun].
  unfold Routes.post_items_use. rewrite Hget.
  cbn zeta. rewrite select_item, Hid. fold a. fold newq. rewrite Hrun.
  cbn [snd]. eexists. split.
  - unfold History.getConsumptionHistory. cbn [History.limit History.apply_limit].
    apply sort_by_In, filter_In. cbn [consumption_history]. split.
    + apply in_app_iff. right. left. reflexivity.
    + rewrite history_where_holds. apply history_conditions_passes.
      unfold passes_history. cbn. repeat split; try discriminate.
      now intros v [= <-] _.
  - cbn. repeat split.
Qed.

Lemma use_is_listed_in_history_witness :
  consistent Sample.store = true
  /\ exists c,
       In c (History.getConsumptionHistory
               (History.mkfilters (Some 1) None None None)
               (snd (Routes.post_items_use 1 Sample.use_one Sample.noon
                       Sample.store)) Sample.noon)
       /\ Consumption.quantity_used c = 1%Q.
Proof.
  split; [reflexivity|].
  destruct (use_is_listed_in_history 1 Sample.use_one Sample.noon Sample.store
              (Database.select Sample.store Sample.noon Sample.chicken)
              eq_refl eq_refl eq_refl) as [c [H1 [H2 _]]].
  exists c. split; [exact H1 | exact H2].
Defined.

(** ** Location writes *)

Lemma placed_at_iff id i :
  LocationWrites.placed_at id i = true <-> Item.location_id i = Some id.
Proof. apply holds_cmp_Z_eqb. Qed.

Lemma detached_constraints db ts i :
  Database.items_constraints db i = None ->
  Database.items_constraints db (LocationWrites.detached ts i) = None.
Proof.
  rewrite !items_constraints_None. simpl. tauto.
Qed.

Lemma detach_rows_returns db id ts rows :
  (forall i, In i rows -> Database.items_constraints db i = None) ->
  LocationWrites.detach_rows db id ts rows
  = Returned
      (map (fun i => if LocationWrites.placed_at id i
                     then LocationWrites.detached ts i else i) rows,
       Z.of_nat (List.length (filter (LocationWrites.placed_at id) rows))).
Proof.
  induction rows as [|i rows IH]; intros H; simpl; [reflexivity|].
  rewrite IH by (intros; apply H; simpl; auto).
  destruct (LocationWrites.placed_at id i); [|reflexivity].
  rewrite detached_constraints by (apply H; simpl; auto).
  simpl. do 2 f_equal. lia.
Qed.

Lemma map_unplaced id (f : Item.t -> Item.t) rows :
  (forall i, In i rows -> LocationWrites.placed_at id i = false) ->
  map (fun i => if LocationWrites.placed_at id i then f i else i) rows = rows.
Proof.
  induction rows as [|i rows IH]; intros H; simpl; [reflexivity|].
  rewrite (H i) by (simpl; auto). f_equal. apply IH. intros; apply H; simpl; auto.
Qed.

Lemma find_location_removed id rows :
  find (fun l => Location.id l =? id)
    (filter (fun l => negb (Location.id l =? id)) rows) = None.
Proof.
  induction rows as [|r rows IH]; simpl; [reflexivity|].
  destruct (Location.id r =? id) eqn:E; simpl; [exact IH|]. now rewrite E.
Qed.

Lemma existsb_location_kept id lid rows :
  lid <> id ->
  existsb (fun l => Location.id l =? lid)
    (filter (fun l => negb (Location.id l =? id)) rows)
  = existsb (fun l => Location.id l =? lid) rows.
Proof.
  intros Hne. induction rows as [|r rows IH]; simpl; [reflexivity|].
  destruct (Z.eqb_spec (Location.id r) id) as [E|E]; simpl.
  - destruct (Z.eqb_spec (Location.id r) lid); [congruence|exact IH].
  - now rewrite IH.
Qed.

Lemma deleteLocation_store id clk db :
  consistent db = true ->
  LocationWrites.deleteLocation id clk db
  = (Returned
       (mkrun (last_insert_rowid db)
          (Z.of_nat
             (List.length
                (filter (fun l => Location.id l =? id) (locations db))))),
     mkdb (filter (fun l => negb (Location.id l =? id)) (locations db))
       (map (fun i => if LocationWrites.placed_at id i
                      then LocationWrites.detached (datetime_now_localtime clk) i
                      else i) (items db))
       (consumption_history db) (seq_items db) (seq_consumption_history db)
       (last_insert_rowid db) (foreign_keys db)).
Proof.
  intros Hc. rewrite consistent_iff in Hc.
  unfold LocationWrites.deleteLocation, bind, LocationWrites.run_detach.
  rewrite detach_rows_returns by exact Hc.
  unfold LocationWrites.run_delete_location. simpl.
  do 2 f_equal.
  destruct (foreign_keys db); [|reflexivity].
  apply map_unplaced. intros i Hi. apply in_map_iff in Hi.
  destruct Hi as [j [<- _]].
  destruct (LocationWrites.placed_at id j) eqn:E; [reflexivity|exact E].
Qed.

(** X19. [deleteLocation] on a sound store always returns; afterwards the
    location cannot be read any more, no item has been deleted, no item
    refers to the location, the items that were elsewhere are unchanged,
    the other locations and the history are as before, and the store is
    still sound. *)
Theorem deleteLocation_detaches_items :
  forall id clk db,
    consistent db = true ->
    exists res,
      fst (LocationWrites.deleteLocation id clk db) = Returned res
      /\ let db' := snd (LocationWrites.deleteLocation id clk db) in
         Locations.getLocationById id db' = None
         /\ (forall id', id' <> id ->
               Locations.getLocationById id' db'
               = Locations.getLocationById id' db)
         /\ map Item.id (items db') = map Item.id (items db)
         /\ (forall i, In i (items db') -> Item.location_id i <> Some id)
         /\ (forall i, In i (items db) -> Item.location_id i <> Some id ->
               In i (items db'))
         /\ consumption_history db' = consumption_history db
         /\ consistent db' = true.
Proof.
  intros id clk db Hc. rewrite (deleteLocation_store id clk db Hc).
  eexists. split; [reflexivity|]. cbn [snd fst].
  unfold Locations.getLocationById. cbn [locations items consumption_history].
  split; [apply find_location_removed|].
  split.
  { intros id' Hne. induction (locations db) as [|r rows IH]; simpl;
      [reflexivity|].
    destruct (Z.eqb_spec (Location.id r) id) as [E|E]; simpl.
    - destruct (Z.eqb_spec (Location.id r) id'); [congruence|exact IH].
    - destruct (Location.id r =? id'); [reflexivity|exact IH]. }
  split.
  { rewrite map_map. apply map_ext. intros i.
    now destruct (LocationWrites.placed_at id i). }
  split.
  { intros i Hi. apply in_map_iff in Hi. destruct Hi as [j [<- Hj]].
    destruct (LocationWrites.placed_at id j) eqn:E; [discriminate|].
    intros H. apply placed_at_iff in H. congruence. }
  split.
  { intros i Hi Hne. apply in_map_iff. exists i. split; [|exact Hi].
    destruct (LocationWrites.placed_at id i) eqn:E; [|reflexivity].
    apply placed_at_iff in E. contradiction. }
  split; [reflexivity|].
  rewrite consistent_iff in *. cbn [items]. intros r Hr.
  apply in_map_iff in Hr. destruct Hr as [j [<- Hj]].
  specialize (Hc j Hj).
  destruct (LocationWrites.placed_at id j) eqn:E.
  - apply items_constraints_None. apply items_constraints_None in Hc.
    simpl. tauto.
  - apply items_constraints_None. apply items_constraints_None in Hc.
    cbn [locations foreign_keys].
    destruct Hc as (H1 & H2 & H3 & H4). repeat (split; [assumption|]).
    destruct (Item.location_id j) as [lid|] eqn:El; [|reflexivity].
    rewrite existsb_location_kept; [exact H4|].
    intros Heq. rewrite Heq in El. apply placed_at_iff in El. congruence.
Qed.

Lemma deleteLocation_detaches_items_witness :
  exists res,
    fst (LocationWrites.deleteLocation 1 Sample.noon Sample.store)
    = Returned res
    /\ consistent
         (snd (LocationWrites.deleteLocation 1 Sample.noon Sample.store))
       = true.
Proof.
  destruct (deleteLocation_detaches_items 1 Sample.noon Sample.store
              eq_refl) as [res [H1 H2]].
  exists res. split; [exact H1|]. apply H2.
Defined.

Lemma or_else_truthy_int_0 m : JS.or_else JS.truthy_int (Some m) 0 = m.
Proof.
  unfold JS.or_else, JS.truthy_int.
  destruct (Z.eqb_spec m 0); simpl; congruence.
Qed.









Lemma locations_sound_iff db :
  locations_sound db = true
  <-> forall l, In l (locations db) ->
                LocationWrites.locations_constraints l = None.
Proof.
  unfold locations_sound. rewrite forallb_forall. split; intros H l Hl.
  - specialize (H l Hl).
    now destruct (LocationWrites.locations_constraints l).
  - now rewrite (H l Hl).
Qed.

Lemma update_locations_returns id set rows :
  (forall l, In l rows -> LocationWrites.locations_constraints (set l) = None) ->
  LocationWrites.update_locations id set rows
  = Returned
      (map (fun l => if Location.id l =? id then set l else l) rows,
       Z.of_nat (List.length (filter (fun l => Location.id l =? id) rows))).
Proof.
  induction rows as [|l rows IH]; intros H; simpl; [reflexivity|].
  rewrite IH by (intros; apply H; simpl; auto).
  destruct (Location.id l =? id); [|reflexivity].
  rewrite H by (simpl; auto). simpl. do 2 f_equal. lia.
Qed.

Lemma position_nonneg x ids k : position x ids = Some k -> 0 <= k.
Proof.
  revert k. induction ids as [|y ids IH]; simpl; intros k; [discriminate|].
  destruct (y =? x); [intros [= <-]; lia|].
  destruct (position x ids) as [k'|]; simpl; [|discriminate].
  intros [= <-]. specialize (IH k' eq_refl). lia.
Qed.

Lemma position_In x ids : In x ids -> exists k, position x ids = Some k.
Proof.
  induction ids as [|y ids IH]; simpl; [tauto|].
  intros H. destruct (Z.eqb_spec y x) as [E|E]; [eauto|].
  destruct H as [H|H]; [contradiction|].
  destruct (IH H) as [k ->]. simpl. eauto.
Qed.

Lemma position_None x ids : ~ In x ids -> position x ids = None.
Proof.
  induction ids as [|y ids IH]; simpl; [reflexivity|].
  intros H. destruct (Z.eqb_spec y x) as [E|E]; [tauto|].
  rewrite IH by tauto. reflexivity.
Qed.

Lemma position_nth_error ids k x :
  NoDup ids -> nth_error ids k = Some x -> position x ids = Some (Z.of_nat k).
Proof.
  revert k. induction ids as [|y ids IH]; intros k Hnd Hk.
  - destruct k; discriminate.
  - inversion Hnd as [|? ? Hy Hnd']; subst. destruct k as [|k]; simpl in *.
    + injection Hk as ->. now rewrite Z.eqb_refl.
    + destruct (Z.eqb_spec y x) as [E|E].
      * subst. exfalso. apply Hy. eapply nth_error_In; eauto.
      * rewrite (IH k Hnd' Hk). simpl. f_equal. lia.
Qed.

Lemma position_inj ids a b k :
  position a ids = Some k -> position b ids = Some k -> a = b.
Proof.
  revert k. induction ids as [|y ids IH]; simpl; intros k; [discriminate|].
  destruct (Z.eqb_spec y a) as [Ea|Ea], (Z.eqb_spec y b) as [Eb|Eb].
  - congruence.
  - intros [= <-]. destruct (position b ids) as [k'|] eqn:E; simpl;
      [|discriminate].
    apply position_nonneg in E. intros [= H]. lia.
  - destruct (position a ids) as [k'|] eqn:E; simpl; [|discriminate].
    apply position_nonneg in E. intros [= <-] [= H]. lia.
  - destruct (position a ids) as [ka|] eqn:E1; simpl; [|discriminate].
    destruct (position b ids) as [kb|] eqn:E2; simpl; [|intros _; discriminate].
    intros [= <-] [= H]. apply (IH ka); [reflexivity|]. f_equal. lia.
Qed.

Lemma renumbered_id index ids l :
  Location.id (renumbered index ids l) = Location.id l.
Proof.
  unfold renumbered. now destruct (position (Location.id l) ids).
Qed.

Lemma renumbered_step index y ids l :
  ~ In y ids ->
  renumbered (index + 1) ids
    (if Location.id l =? y
     then LocationWrites.with_sort_order (index + 1) l else l)
  = renumbered index (y :: ids) l.
Proof.
  intros Hy. unfold renumbered. simpl position.
  destruct (Z.eqb_spec (Location.id l) y) as [E|E].
  - cbn [LocationWrites.with_sort_order Location.id].
    rewrite E, Z.eqb_refl, (position_None y ids Hy).
    unfold LocationWrites.with_sort_order. do 2 f_equal. lia.
  - destruct (Z.eqb_spec y (Location.id l)) as [E'|_]; [congruence|].
    destruct (position (Location.id l) ids) as [k|]; simpl; [|reflexivity].
    unfold LocationWrites.with_sort_order. do 2 f_equal. lia.
Qed.

Lemma reorder_from_store ids :
  NoDup ids ->
  forall index db,
    locations_sound db = true ->
    LocationWrites.reorder_from index ids db
    = (Returned tt,
       mkdb (map (renumbered index ids) (locations db)) (items db)
         (consumption_history db) (seq_items db) (seq_consumption_history db)
         (last_insert_rowid db) (foreign_keys db)).
Proof.
  induction 1 as [|y ids Hy Hnd IH]; intros index db Hs.
  - simpl. unfold ret, renumbered. simpl. rewrite map_id. now destruct db.
  - cbn [LocationWrites.reorder_from]. unfold bind.
    unfold LocationWrites.run_update_locations.
    rewrite locations_sound_iff in Hs.
    rewrite update_locations_returns by (intros l Hl; apply (Hs l Hl)).
    rewrite IH.
    + cbn [locations items consumption_history seq_items
             seq_consumption_history last_insert_rowid foreign_keys].
      rewrite map_map. do 2 f_equal. apply map_ext. intros l.
      now apply renumbered_step.
    + apply locations_sound_iff. cbn [locations]. intros l Hl.
      apply in_map_iff in Hl. destruct Hl as [l0 [<- Hl0]].
      destruct (Location.id l0 =? y); apply (Hs l0 Hl0).
Qed.

Lemma find_location_map id (f : Location.t -> Location.t) rows :
  (forall l, Location.id (f l) = Location.id l) ->
  find (fun l => Location.id l =? id) (map f rows)
  = option_map f (find (fun l => Location.id l =? id) rows).
Proof.
  intros Hf. induction rows as [|l rows IH]; simpl; [reflexivity|].
  rewrite Hf. destruct (Location.id l =? id); [reflexivity|exact IH].
Qed.

Lemma find_location_id id rows l :
  find (fun l => Location.id l =? id) rows = Some l -> Location.id l = id.
Proof.
  intros H. apply find_some in H. now apply Z.eqb_eq.
Qed.

(** X21. [reorderLocations] on a list of distinct ids returns and
    numbers the locations by their place in the list: the location whose
    id stands at index [k] is read back with sort order [k + 1] and
    otherwise unchanged, a location that is not listed is read back
    unchanged, and no item is touched. *)
Theorem reorderLocations_numbers_by_place :
  forall ids db,
    NoDup ids ->
    locations_sound db = true ->
    fst (LocationWrites.reorderLocations ids db) = Returned tt
    /\ let db' := snd (LocationWrites.reorderLocations ids db) in
       (forall k id l,
          nth_error ids k = Some id ->
          Locations.getLocationById id db = Some l ->
          Locations.getLocationById id db'
          = Some (LocationWrites.with_sort_order (Z.of_nat k + 1) l))
       /\ (forall id, ~ In id ids ->
             Locations.getLocationById id db'
             = Locations.getLocationById id db)
       /\ items db' = items db.
Proof.
  intros ids db Hnd Hs. unfold LocationWrites.reorderLocations.
  rewrite (reorder_from_store ids Hnd 0 db Hs). cbn [fst snd].
  split; [reflexivity|]. unfold Locations.getLocationById. cbn [locations items].
  split; [|split; [|reflexivity]].
  - intros k id l Hk Hl.
    rewrite find_location_map by (intros; apply renumbered_id).
    rewrite Hl. simpl. unfold renumbered.
    rewrite (find_location_id _ _ _ Hl), (position_nth_error ids k id Hnd Hk).
    reflexivity.
  - intros id Hid.
    rewrite find_location_map by (intros; apply renumbered_id).
    destruct (find _ (locations db)) as [l|] eqn:Hl; [|reflexivity].
    simpl. unfold renumbered.
    rewrite (find_location_id _ _ _ Hl), (position_None id ids Hid).
    reflexivity.
Qed.

Lemma reorderLocations_numbers_by_place_witness :
  NoDup [2; 1]
  /\ Locations.getLocationById 1
       (snd (LocationWrites.reorderLocations [2; 1] SampleLocations.house))
     = Some (LocationWrites.with_sort_order 2 Sample.freezer).
Proof.
  assert (Hnd : NoDup [2; 1]).
  { constructor; [simpl; intros [H|[]]; discriminate|].
    constructor; [simpl; tauto|constructor]. }
  split; [exact Hnd|].
  destruct (reorderLocations_numbers_by_place [2; 1] SampleLocations.house
              Hnd eq_refl) as [_ [H _]].
  exact (H 1%nat 1 Sample.freezer eq_refl eq_refl).
Defined.

Lemma StronglySorted_impl_In {A} (R S : A -> A -> Prop) (l : list A) :
  (forall a b, In a l -> In b l -> R a b -> S a b) ->
  StronglySorted R l -> StronglySorted S l.
Proof.
  intros H Hl. induction Hl as [|a l Hl IH Hall]; constructor.
  - apply IH. intros; apply H; simpl; auto.
  - rewrite Forall_forall in *. intros b Hb.
    apply H; simpl; auto.
Qed.

Lemma StronglySorted_map {A B} (f : A -> B) (R : B -> B -> Prop) l :
  StronglySorted (fun a b => R (f a) (f b)) l -> StronglySorted R (map f l).
Proof.
  induction 1 as [|a l Hl IH Hall]; simpl; constructor; [exact IH|].
  rewrite Forall_forall in *. intros b Hb. apply in_map_iff in Hb.
  destruct Hb as [x [<- Hx]]. auto.
Qed.

(** Two lists of numbers in ascending order of an injective key hold the
    same numbers only if they are the same list. *)
Lemma sorted_by_key_unique (key : Z -> Z) l1 :
  forall l2,
    StronglySorted (fun a b => key a <= key b) l1 ->
    StronglySorted (fun a b => key a <= key b) l2 ->
    Permutation l1 l2 ->
    (forall a b, In a l1 -> In b l1 -> key a = key b -> a = b) ->
    l1 = l2.
Proof.
  induction l1 as [|a l1 IH]; intros l2 H1 H2 Hp Hinj.
  - apply Permutation_nil in Hp. now subst.
  - destruct l2 as [|b l2].
    { symmetry in Hp. apply Permutation_nil in Hp. discriminate. }
    inversion H1 as [|? ? H1' Ha]; subst.
    inversion H2 as [|? ? H2' Hb]; subst.
    rewrite Forall_forall in Ha, Hb.
    assert (E : a = b).
    { destruct (Z.eq_dec a b) as [E|E]; [exact E|].
      assert (Hab : In a (b :: l2))
        by (eapply Permutation_in; [exact Hp|simpl; auto]).
      assert (Hba : In b (a :: l1))
        by (eapply Permutation_in; [symmetry; exact Hp|simpl; auto]).
      destruct Hab as [Hab|Hab]; [congruence|].
      destruct Hba as [Hba|Hba]; [congruence|].
      apply Hinj; simpl; auto.
      specialize (Ha b Hba). specialize (Hb a Hab). lia. }
    subst b. f_equal. apply IH; auto.
    + eapply Permutation_cons_inv; eauto.
    + intros; apply Hinj; simpl; auto.
Qed.

Lemma place_cons y ids x :
  In x ids -> y <> x -> place (y :: ids) x = place ids x + 1.
Proof.
  intros Hx Hne. unfold place. simpl.
  destruct (Z.eqb_spec y x); [contradiction|].
  destruct (position_In x ids Hx) as [k ->]. simpl. lia.
Qed.

Lemma ids_sorted_by_place ids :
  NoDup ids ->
  StronglySorted (fun a b => place ids a <= place ids b) ids.
Proof.
  induction 1 as [|y ids Hy Hnd IH]; constructor.
  - eapply StronglySorted_impl_In; [|exact IH]. cbv beta.
    intros a b Ha Hb Hab.
    rewrite !place_cons; auto; try (intros ->; contradiction). lia.
  - apply Forall_forall. intros b Hb.
    rewrite (place_cons y ids b Hb) by (intros ->; contradiction).
    unfold place at 1. simpl. rewrite Z.eqb_refl.
    unfold place. destruct (position_In b ids Hb) as [k Hk]. rewrite Hk.
    apply position_nonneg in Hk. lia.
Qed.

Lemma place_inj ids a b :
  In a ids -> In b ids -> place ids a = place ids b -> a = b.
Proof.
  intros Ha Hb. unfold place.
  destruct (position_In a ids Ha) as [ka Hka].
  destruct (position_In b ids Hb) as [kb Hkb].
  rewrite Hka, Hkb. intros ->. eapply position_inj; eauto.
Qed.

Lemma renumbered_sort_order ids l :
  In (Location.id l) ids ->
  Location.sort_order (renumbered 0 ids l)
  = Some (place ids (Location.id (renumbered 0 ids l)) + 1).
Proof.
  intros Hl. rewrite renumbered_id. unfold renumbered, place.
  destruct (position_In _ ids Hl) as [k ->]. reflexivity.
Qed.

(** X22. When [reorderLocations] is given every location id once, the
    location list that [getLocations] returns afterwards is in the order
    given. *)
Theorem reorderLocations_sets_listing_order :
  forall ids db,
    NoDup ids ->
    Permutation ids (map Location.id (locations db)) ->
    locations_sound db = true ->
    map Location.id
      (Locations.getLocations false
         (snd (LocationWrites.reorderLocations ids db)))
    = ids.
Proof.
  intros ids db Hnd Hp Hs. unfold LocationWrites.reorderLocations.
  rewrite (reorder_from_store ids Hnd 0 db Hs). cbn [snd].
  unfold Locations.getLocations. cbn [locations].
  set (rows := map (renumbered 0 ids) (locations db)).
  assert (Hrows : forall l, In l rows ->
            In (Location.id l) ids
            /\ Location.sort_order l = Some (place ids (Location.id l) + 1)).
  { intros l Hl. apply in_map_iff in Hl. destruct Hl as [l0 [<- Hl0]].
    assert (Hin : In (Location.id l0) ids).
    { eapply Permutation_in; [symmetry; exact Hp|]. now apply in_map. }
    split; [now rewrite renumbered_id|now apply renumbered_sort_order]. }
  assert (Hperm : Permutation (map Location.id (Sorter.sort_by Locations.order_leb rows)) ids).
  { rewrite (Permutation_map Location.id (sort_by_perm Locations.order_leb rows)).
    unfold rows. rewrite map_map.
    rewrite (map_ext _ Location.id) by (intros; apply renumbered_id).
    now symmetry. }
  apply (sorted_by_key_unique (place ids)).
  - apply StronglySorted_map.
    eapply StronglySorted_impl_In;
      [|apply (sort_by_StronglySorted Locations.order_leb
                 locations_order_leb_total locations_order_leb_trans)].
    cbv beta. intros a b Ha Hb Hab.
    apply sort_by_In in Ha, Hb.
    destruct (Hrows a Ha) as [_ Sa]. destruct (Hrows b Hb) as [_ Sb].
    apply locations_order_leb_iff in Hab. unfold shown_before in Hab.
    rewrite Sa, Sb in Hab. lia.
  - now apply ids_sorted_by_place.
  - exact Hperm.
  - intros a b Ha Hb. apply place_inj; eapply Permutation_in; eauto.
Qed.

Lemma reorderLocations_sets_listing_order_witness :
  map Location.id
    (Locations.getLocations false
       (snd (LocationWrites.reorderLocations [2; 1] SampleLocations.house)))
  = [2; 1].
Proof.
  apply reorderLocations_sets_listing_order;
    [|apply perm_swap|reflexivity].
  constructor; [simpl; intros [H|[]]; discriminate|].
  constructor; [simpl; tauto|constructor].
Defined.

(** ** Bulk operations *)

Lemma filter_true {A} (p : A -> bool) l :
  (forall x, In x l -> p x = true) -> filter p l = l.
Proof.
  induction l as [|x l IH]; intros H; simpl; [reflexivity|].
  rewrite (H x) by (simpl; auto). f_equal. apply IH.
  intros; apply H; simpl; auto.
Qed.

Lemma filter_length_split {A} (p : A -> bool) l :
  (List.length (filter p l) + List.length (filter (fun x => negb (p x)) l)
   = List.length l)%nat.
Proof.
  induction l as [|x l IH]; simpl; [reflexivity|].
  destruct (p x); simpl; lia.
Qed.

Lemma filter_filter {A} (p q : A -> bool) l :
  filter p (filter q l) = filter (fun x => q x && p x) l.
Proof.
  induction l as [|x l IH]; simpl; [reflexivity|].
  destruct (q x); simpl; [|exact IH]. destruct (p x); now rewrite IH.
Qed.

Lemma NoDup_map_filter {A B} (f : A -> B) (p : A -> bool) l :
  NoDup (map f l) -> NoDup (map f (filter p l)).
Proof.
  induction l as [|x l IH]; simpl; intros H; [constructor|].
  inversion H as [|? ? Hx Hnd]; subst.
  destruct (p x); simpl; [|auto]. constructor; [|auto].
  intros Hin. apply Hx. apply in_map_iff in Hin.
  destruct Hin as [y [Hy Hin]]. apply filter_In in Hin.
  apply in_map_iff. exists y. tauto.
Qed.

Lemma unique_id_filter_length id rows :
  NoDup (map Item.id rows) ->
  (List.length (filter (fun i => (Item.id i =? id)%Z) rows) <= 1)%nat.
Proof.
  induction rows as [|x rows IH]; simpl; intros H; [lia|].
  inversion H as [|? ? Hx Hnd]; subst.
  destruct (Z.eqb_spec (Item.id x) id) as [E|E]; [|auto].
  assert (Hnil : filter (fun i => Item.id i =? id) rows = []).
  { apply filter_nil_iff. intros y Hy. apply Z.eqb_neq. intros Ey.
    apply Hx. rewrite E, <- Ey. now apply in_map. }
  rewrite Hnil. simpl. lia.
Qed.

Lemma find_filter_by_id (p : Z -> bool) id rows :
  find (fun i => Item.id i =? id) (filter (fun i => p (Item.id i)) rows)
  = if p id then find (fun i => Item.id i =? id) rows else None.
Proof.
  induction rows as [|x rows IH]; simpl; [now destruct (p id)|].
  destruct (Z.eqb_spec (Item.id x) id) as [E|E].
  - rewrite E. destruct (p id) eqn:Hp; simpl.
    + rewrite E, Z.eqb_refl. reflexivity.
    + exact IH.
  - destruct (p (Item.id x)); simpl; [|exact IH].
    destruct (Z.eqb_spec (Item.id x) id); [contradiction|exact IH].
Qed.

(** [deleteItem] of an item that no record references, or while foreign
    keys are not enforced. *)
Lemma deleteItem_unreferenced id db :
  foreign_keys db = false
  \/ (forall c, In c (consumption_history db) ->
                Consumption.item_id c <> Some id) ->
  exists db1,
    Database.deleteItem id db
    = (Returned
         (mkrun (last_insert_rowid db)
            (Z.of_nat
               (List.length
                  (filter (fun i => Item.id i =? id) (items db))))),
       db1)
    /\ items db1 = filter (fun i => negb (Item.id i =? id)) (items db)
    /\ locations db1 = locations db
    /\ consumption_history db1 = consumption_history db
    /\ foreign_keys db1 = foreign_keys db.
Proof.
  intros H. unfold Database.deleteItem.
  destruct (filter (fun i => Item.id i =? id) (items db)) as [|x l] eqn:Ef.
  - exists db. repeat split; try reflexivity.
    symmetry. apply filter_true. intros y Hy.
    rewrite filter_nil_iff in Ef. now rewrite (Ef y Hy).
  - destruct (foreign_keys db) eqn:Hfk.
    + destruct H as [H|H]; [discriminate|].
      assert (Hnil : filter (Database.references id)
                       (consumption_history db) = []).
      { apply filter_nil_iff. intros c Hc. unfold Database.references.
        specialize (H c Hc).
        destruct (Consumption.item_id c) as [i|]; [|reflexivity].
        apply Z.eqb_neq. congruence. }
      rewrite Hnil. simpl.
      eexists. split; [reflexivity|]. cbn [items locations consumption_history foreign_keys].
      repeat split; try reflexivity.
      rewrite <- (map_id (consumption_history db)) at 2.
      apply map_ext_in. intros c Hc. unfold Database.on_delete_set_null.
      rewrite filter_nil_iff in Hnil. now rewrite (Hnil c Hc).
    + eexists. split; [reflexivity|]. repeat split; reflexivity.
Qed.

Lemma not_listed_cons id ids i :
  not_listed (id :: ids) i = negb (Item.id i =? id) && not_listed ids i.
Proof. unfold not_listed. simpl. now rewrite negb_orb. Qed.

(** Deleting, one after the other, items that no record references. *)
Lemma delete_each_unreferenced ids :
  forall n db,
    NoDup (map Item.id (items db)) ->
    foreign_keys db = false
    \/ (forall c, In c (consumption_history db) ->
        forall id, In id ids -> Consumption.item_id c <> Some id) ->
    exists n' db',
      Bulk.delete_each ids n db = (Returned n', db')
      /\ items db' = filter (not_listed ids) (items db)
      /\ n' = n + Z.of_nat (List.length (items db))
                - Z.of_nat (List.length (items db'))
      /\ locations db' = locations db
      /\ consumption_history db' = consumption_history db
      /\ foreign_keys db' = foreign_keys db.
Proof.
  induction ids as [|id ids IH]; intros n db Hnd H.
  - exists n, db. simpl. unfold ret. repeat split; try reflexivity.
    + symmetry. apply filter_true. reflexivity.
    + lia.
  - destruct (deleteItem_unreferenced id db) as [db1 (E & Hi & Hl & Hh & Hf)].
    { destruct H as [H|H]; [now left|right].
      intros c Hc. apply (H c Hc). simpl; auto. }
    destruct (IH (if 0 <? Z.of_nat (List.length
                                      (filter (fun i => Item.id i =? id)
                                         (items db)))
                  then n + 1 else n) db1)
      as [n' [db' (E' & Hi' & Hn' & Hl' & Hh' & Hf')]].
    { rewrite Hi. now apply NoDup_map_filter. }
    { rewrite Hf, Hh. destruct H as [H|H]; [now left|right].
      intros c Hc x Hx. apply (H c Hc). simpl; auto. }
    exists n', db'. cbn [Bulk.delete_each]. unfold bind. rewrite E.
    cbn [changes]. rewrite E'. split; [reflexivity|].
    split.
    { rewrite Hi', Hi, filter_filter. apply filter_ext. intros i.
      now rewrite not_listed_cons. }
    split.
    { rewrite Hn', Hi.
      pose proof (filter_length_split (fun i => Item.id i =? id) (items db))
        as Hsplit.
      pose proof (unique_id_filter_length id (items db) Hnd) as Hone.
      set (a := List.length (filter (fun i => Item.id i =? id) (items db)))
        in *.
      destruct (Z.ltb_spec 0 (Z.of_nat a)); lia. }
    repeat split; congruence.
Qed.

Lemma find_not_listed ids id rows :
  find (fun i => Item.id i =? id) (filter (not_listed ids) rows)
  = if existsb (Z.eqb id) ids then None
    else find (fun i => Item.id i =? id) rows.
Proof.
  unfold not_listed.
  rewrite (find_filter_by_id (fun x => negb (existsb (Z.eqb x) ids))).
  now destruct (existsb (Z.eqb id) ids).
Qed.

Lemma existsb_eqb_In id ids : existsb (Z.eqb id) ids = true <-> In id ids.
Proof.
  rewrite existsb_exists. split.
  - intros [x [Hx E]]. apply Z.eqb_eq in E. now subst.
  - intros H. exists id. split; [exact H|apply Z.eqb_refl].
Qed.

Lemma bulk_delete_nonempty ids db :
  ids <> [] ->
  Bulk.post_items_bulk_delete (Some ids) db
  = match Bulk.delete_each ids 0 db with
    | (Returned deletedCount, db') => (Bulk.DeletedCount deletedCount, db')
    | (Thrown _, db') => (Bulk.ServerError, db')
    end.
Proof. destruct ids; [congruence|reflexivity]. Qed.

(** X23. [POST /api/items/bulk-delete] on items that no consumption
    record references (or while foreign keys are not enforced) answers
    with success; [deletedCount] is the number of items that left the
    store, none of the listed ids can be read afterwards, every other item
    reads as before, and the history is unchanged. *)
Theorem bulk_delete_removes_listed_items :
  forall ids clk db,
    ids <> [] ->
    NoDup (map Item.id (items db)) ->
    foreign_keys db = false
    \/ (forall c, In c (consumption_history db) ->
        forall id, In id ids -> Consumption.item_id c <> Some id) ->
    exists n db',
      Bulk.post_items_bulk_delete (Some ids) db = (Bulk.DeletedCount n, db')
      /\ n = Z.of_nat (List.length (items db))
             - Z.of_nat (List.length (items db'))
      /\ (forall id, In id ids -> Database.getItemById id db' clk = None)
      /\ (forall id, ~ In id ids ->
            Database.getItemById id db' clk = Database.getItemById id db clk)
      /\ consumption_history db' = consumption_history db.
Proof.
  intros ids clk db Hne Hnd H.
  destruct (delete_each_unreferenced ids 0 db Hnd H)
    as [n [db' (E & Hi & Hn & Hl & Hh & Hf)]].
  exists n, db'. rewrite (bulk_delete_nonempty ids db Hne), E.
  split; [reflexivity|]. split; [lia|].
  unfold Database.getItemById. rewrite Hi. split; [|split; [|exact Hh]].
  - intros id Hid. rewrite find_not_listed.
    apply existsb_eqb_In in Hid. now rewrite Hid.
  - intros id Hid. rewrite find_not_listed.
    destruct (existsb (Z.eqb id) ids) eqn:E'.
    + apply existsb_eqb_In in E'. contradiction.
    + destruct (find _ (items db)); simpl; [|reflexivity].
      now rewrite (select_same_locations db db').
Qed.

Lemma bulk_delete_removes_listed_items_witness :
  exists db',
    Bulk.post_items_bulk_delete (Some [2; 3; 7]) Sample.store
    = (Bulk.DeletedCount 2, db')
    /\ Database.getItemById 2 db' Sample.noon = None.
Proof.
  assert (Hne : [2; 3; 7] <> []) by discriminate.
  assert (Hnd : NoDup (map Item.id (items Sample.store))).
  { simpl. repeat constructor; simpl; intros H;
      repeat (destruct H as [H|H]; [discriminate|]); exact H. }
  destruct (bulk_delete_removes_listed_items [2; 3; 7] Sample.noon
              Sample.store Hne Hnd)
    as [n [db' [H1 [H2 [H3 _]]]]].
  { right. intros c []. }
  exists db'. split.
  - rewrite H1. f_equal. f_equal. rewrite H2.
    assert (E : items db' = items (snd (Bulk.post_items_bulk_delete
                                          (Some [2; 3; 7]) Sample.store)))
      by now rewrite H1.
    rewrite E. reflexivity.
  - apply H3. simpl; auto.
Defined.

Lemma delete_each_app pre rest :
  forall n db,
    Bulk.delete_each (pre ++ rest) n db
    = match Bulk.delete_each pre n db with
      | (Returned n', db') => Bulk.delete_each rest n' db'
      | (Thrown e, db') => (Thrown e, db')
      end.
Proof.
  induction pre as [|id pre IH]; intros n db; simpl; [reflexivity|].
  unfold bind. destruct (Database.deleteItem id db) as [[res|e] db1];
    [apply IH|reflexivity].
Qed.

(** X24. [POST /api/items/bulk-delete] is not all-or-nothing. While
    foreign keys are enforced, when the list reaches a stored item that a
    consumption record references, the request fails with a server error,
    but the items listed before it are gone for good; that item and every
    other item are still there. *)
Theorem bulk_delete_keeps_earlier_deletions :
  forall pre id post clk db,
    NoDup (map Item.id (items db)) ->
    foreign_keys db = true ->
    (forall c, In c (consumption_history db) ->
     forall x, In x pre -> Consumption.item_id c <> Some x) ->
    ~ In id pre ->
    (exists i, In i (items db) /\ Item.id i = id) ->
    (exists c, In c (consumption_history db)
               /\ Consumption.item_id c = Some id) ->
    exists db',
      Bulk.post_items_bulk_delete (Some (pre ++ id :: post)) db
      = (Bulk.ServerError, db')
      /\ (forall x, In x pre -> Database.getItemById x db' clk = None)
      /\ (forall x, ~ In x pre ->
            Database.getItemById x db' clk = Database.getItemById x db clk).
Proof.
  intros pre id post clk db Hnd Hfk Hpre Hid [i [Hi Ei]] [c [Hc Ec]].
  destruct (delete_each_unreferenced pre 0 db Hnd (or_intror Hpre))
    as [n [db1 (E & Hitems & _ & Hl & Hh & Hf)]].
  exists db1.
  rewrite bulk_delete_nonempty by (destruct pre; discriminate).
  rewrite delete_each_app, E. cbn [Bulk.delete_each]. unfold bind.
  rewrite (deleteItem_referenced id db1 i c).
  - split; [reflexivity|]. unfold Database.getItemById. rewrite Hitems.
    split.
    + intros x Hx. rewrite find_not_listed.
      apply existsb_eqb_In in Hx. now rewrite Hx.
    + intros x Hx. rewrite find_not_listed.
      destruct (existsb (Z.eqb x) pre) eqn:E'.
      * apply existsb_eqb_In in E'. contradiction.
      * destruct (find _ (items db)); simpl; [|reflexivity].
        now rewrite (select_same_locations db db1).
  - congruence.
  - rewrite Hitems. apply filter_In.
    split; [exact Hi|]. unfold not_listed. rewrite Ei.
    destruct (existsb (Z.eqb id) pre) eqn:E'; [|reflexivity].
    apply existsb_eqb_In in E'. contradiction.
  - exact Ei.
  - now rewrite Hh.
  - exact Ec.
Qed.

Lemma bulk_delete_keeps_earlier_deletions_witness :
  exists db',
    Bulk.post_items_bulk_delete (Some ([2] ++ 1 :: [3]))
      Sample.store_with_history
    = (Bulk.ServerError, db')
    /\ Database.getItemById 2 db' Sample.noon = None
    /\ Database.getItemById 3 db' Sample.noon
       = Database.getItemById 3 Sample.store_with_history Sample.noon.
Proof.
  destruct (bulk_delete_keeps_earlier_deletions [2] 1 [3] Sample.noon
              Sample.store_with_history)
    as [db' [H1 [H2 H3]]].
  - simpl. repeat constructor; simpl; intros H;
      repeat (destruct H as [H|H]; [discriminate|]); exact H.
  - reflexivity.
  - intros c [<-|[]] x [<-|[]]. discriminate.
  - simpl. intros [H|[]]. discriminate.
  - exists Sample.chicken. split; [simpl; auto|reflexivity].
  - exists Sample.used_chicken. split; [simpl; auto|reflexivity].
  - exists db'. split; [exact H1|]. split.
    + apply H2. simpl; auto.
    + apply H3. simpl. intros [H|[]]. discriminate.
Defined.

Lemma moved_any_store l clk db db' old :
  moved l clk db old = moved l clk db' old.
Proof. reflexivity. Qed.

Lemma moved_id l clk db old : Item.id (moved l clk db old) = Item.id old.
Proof. reflexivity. Qed.

Lemma or_else_unit u :
  Database.mem_string u Database.units = true ->
  JS.or_else JS.truthy_string (Some u) "pcs" = u.
Proof.
  intros H. unfold JS.or_else, JS.truthy_string.
  destruct (String.eqb_spec u ""); [subst; discriminate H|reflexivity].
Qed.

Lemma spread_move_acceptable db clk l old :
  Database.items_constraints db old = None ->
  l <> 0 ->
  existsb (fun x => Location.id x =? l) (locations db) = true ->
  acceptable db (Bulk.spread (Database.select db clk old) (Bulk.move_to l))
  = true.
Proof.
  intros Hc Hl Hex. apply items_constraints_None in Hc.
  destruct Hc as (_ & Hq & Hu & _).
  unfold acceptable, Bulk.spread, Bulk.move_to.
  cbn [Bulk.spread_property Bulk.u_unit Bulk.u_quantity Bulk.u_location_id
       Database.d_unit Database.d_quantity Database.d_location_id
       Database.item Database.select JS.numeric_or].
  rewrite (or_else_unit _ Hu), Hu.
  assert (Hn : Qle_bool 0 (JS.number_or
                             (Some (JS.Num (Item.quantity old))) 1) = true).
  { unfold JS.number_or, JS.truthy_number.
    destruct (Qeq_bool (Item.quantity old) 0); [reflexivity|exact Hq]. }
  rewrite Hn. unfold JS.or_null, JS.truthy_int.
  apply Z.eqb_neq in Hl. rewrite Hl. simpl. exact Hex.
Qed.

Lemma update_rows_count db id set rows :
  (forall r, In r rows -> Item.id r = id ->
             Database.items_constraints db (set r) = None) ->
  Database.update_rows db id set rows
  = Returned
      (map (fun r => if Item.id r =? id then set r else r) rows,
       Z.of_nat (List.length (filter (fun r => Item.id r =? id) rows))).
Proof.
  induction rows as [|r rows IH]; intros H; simpl; [reflexivity|].
  rewrite IH by (intros; apply H; simpl; auto).
  destruct (Z.eqb_spec (Item.id r) id) as [E|E]; [|reflexivity].
  rewrite (H r (or_introl eq_refl) E). simpl. do 2 f_equal. lia.
Qed.

Lemma find_filter_length id rows old :
  find (fun r => Item.id r =? id) rows = Some old ->
  0 < Z.of_nat (List.length (filter (fun r => Item.id r =? id) rows)).
Proof.
  intros H. apply find_some in H.
  assert (Hin : In old (filter (fun r => Item.id r =? id) rows))
    by (apply filter_In; exact H).
  destruct (filter _ rows); [destruct Hin|simpl; lia].
Qed.

(** One round of the loop of the bulk update, for a stored item. *)
Lemma bulk_move_step id l clk db old :
  consistent db = true ->
  l <> 0 ->
  existsb (fun x => Location.id x =? l) (locations db) = true ->
  find (fun i => Item.id i =? id) (items db) = Some old ->
  exists res db1,
    Database.updateItem id
      (Bulk.spread (Database.select db clk old) (Bulk.move_to l)) clk db
    = (Returned res, db1)
    /\ (0 <? changes res) = true
    /\ items db1
       = map (fun r =>
                if Item.id r =? id
                then Database.update_values
                       (Bulk.spread (Database.select db clk old)
                          (Bulk.move_to l))
                       clk (Item.title old) (Item.date_added old) r
                else r)
           (items db)
    /\ locations db1 = locations db
    /\ consistent db1 = true.
Proof.
  intros Hc Hl Hex Hfind.
  assert (Hacc := spread_move_acceptable db clk l old
                    (consistent_row db old Hc
                       (proj1 (find_some _ _ Hfind))) Hl Hex).
  unfold Database.updateItem, Database.run_update.
  cbn [Bulk.spread Bulk.move_to Bulk.spread_property Bulk.u_title
       Bulk.u_date_added Database.d_title Database.d_date_added].
  rewrite update_rows_count
    by (intros r _ _; now apply update_values_constraints).
  eexists. eexists. split; [reflexivity|]. cbn [changes items locations].
  split; [apply Z.ltb_lt; eapply find_filter_length; eauto|].
  split; [reflexivity|]. split; [reflexivity|].
  apply consistent_iff. cbn [items]. intros r Hr.
  rewrite (items_constraints_same_store db) by reflexivity.
  apply in_map_iff in Hr. destruct Hr as [x [<- Hx]].
  destruct (Item.id x =? id);
    [now apply update_values_constraints | now apply consistent_row].
Qed.

Lemma stored_find db clk id :
  stored db clk id
  = match find (fun i => Item.id i =? id) (items db) with
    | Some _ => true
    | None => false
    end.
Proof.
  unfold stored, Database.getItemById. now destruct (find _ (items db)).
Qed.

(** The loop of the bulk update, for a request that moves items. *)
Lemma update_each_move l clk ids :
  NoDup ids ->
  l <> 0 ->
  forall n db,
    consistent db = true ->
    existsb (fun x => Location.id x =? l) (locations db) = true ->
    exists db',
      Bulk.update_each ids (Bulk.move_to l) clk n db
      = (Returned (n + Z.of_nat (List.length (filter (stored db clk) ids))),
         db')
      /\ locations db' = locations db
      /\ consistent db' = true
      /\ (forall id, In id ids ->
            find (fun i => Item.id i =? id) (items db')
            = option_map (moved l clk db)
                (find (fun i => Item.id i =? id) (items db)))
      /\ (forall id, ~ In id ids ->
            find (fun i => Item.id i =? id) (items db')
            = find (fun i => Item.id i =? id) (items db)).
Proof.
  intros Hnd Hl. induction Hnd as [|a ids Ha Hnd IH]; intros n db Hc Hex.
  - exists db. simpl. unfold ret. repeat split; auto.
    + do 2 f_equal. lia.
    + intros id [].
  - cbn [Bulk.update_each filter]. rewrite (stored_find db clk a).
    unfold Database.getItemById.
    destruct (find (fun i => Item.id i =? a) (items db)) as [old|] eqn:Hfind;
      cbn [option_map].
    + destruct (bulk_move_step a l clk db old Hc Hl Hex Hfind)
        as [res [db1 (E & Hch & Hi & Hloc & Hc1)]].
      unfold bind. rewrite E, Hch.
      destruct (IH (n + 1) db1 Hc1) as [db' (E' & Hl' & Hc' & Hin & Hout)].
      { now rewrite Hloc. }
      assert (Hother : forall id, id <> a ->
                find (fun i => Item.id i =? id) (items db1)
                = find (fun i => Item.id i =? id) (items db)).
      { intros id Hne. rewrite Hi. now apply find_map_other_id. }
      exists db'. split.
      { rewrite E'. do 2 f_equal.
        rewrite (filter_ext_in (stored db1 clk) (stored db clk)).
        - simpl List.length. lia.
        - intros x Hx. rewrite !stored_find, Hother; [reflexivity|].
          intros ->. contradiction. }
      split; [congruence|]. split; [exact Hc'|]. split.
      * intros id [<-|Hid].
        -- rewrite (Hout a Ha), Hi, find_map_same_id by reflexivity.
           rewrite Hfind. reflexivity.
        -- rewrite (Hin id Hid), Hother by (intros ->; contradiction).
           reflexivity.
      * intros id Hid. rewrite Hout by (simpl in Hid; tauto).
        apply Hother. simpl in Hid. intros ->. tauto.
    + destruct (IH n db Hc Hex) as [db' (E' & Hl' & Hc' & Hin & Hout)].
      exists db'. split; [exact E'|]. split; [exact Hl'|].
      split; [exact Hc'|]. split.
      * intros id [<-|Hid]; [|now apply Hin].
        rewrite (Hout a Ha), Hfind. reflexivity.
      * intros id Hid. apply Hout. simpl in Hid. tauto.
Qed.

(** X25. [POST /api/items/bulk-update] with [{ location_id: l }], for an
    existing location [l] and distinct ids, on a sound store: the request
    succeeds, [updatedCount] is the number of listed ids that are stored,
    and the store stays sound.  Every listed item is read back at location
    [l] with its title, unit, date added and expiry date; its quantity is
    kept unless it was 0, in which case it is now 1.  The items that are
    not listed are read back as before. *)
Theorem bulk_move_rewrites_listed_items :
  forall ids l clk db,
    ids <> [] ->
    NoDup ids ->
    consistent db = true ->
    l <> 0 ->
    existsb (fun x => Location.id x =? l) (locations db) = true ->
    exists db',
      Bulk.post_items_bulk_update (Some ids) (Some (Bulk.move_to l)) clk db
      = (Bulk.UpdatedCount
           (Z.of_nat (List.length (filter (stored db clk) ids))), db')
      /\ consistent db' = true
      /\ (forall id r,
            In id ids ->
            Database.getItemById id db clk = Some r ->
            exists r',
              Database.getItemById id db' clk = Some r'
              /\ Item.location_id (Database.item r') = Some l
              /\ Item.title (Database.item r') = Item.title (Database.item r)
              /\ Item.unit (Database.item r') = Item.unit (Database.item r)
              /\ Item.date_added (Database.item r')
                 = Item.date_added (Database.item r)
              /\ Item.expiry_date (Database.item r')
                 = Item.expiry_date (Database.item r)
              /\ ((Item.quantity (Database.item r) == 0)%Q ->
                  Item.quantity (Database.item r') = 1%Q)
              /\ (~ (Item.quantity (Database.item r) == 0)%Q ->
                  Item.quantity (Database.item r')
                  = Item.quantity (Database.item r)))
      /\ (forall id, ~ In id ids ->
            Database.getItemById id db' clk = Database.getItemById id db clk).
Proof.
  intros ids l clk db Hne Hnd Hc Hl Hex.
  destruct (update_each_move l clk ids Hnd Hl 0 db Hc Hex)
    as [db' (E & Hloc & Hc' & Hin & Hout)].
  exists db'. split.
  { destruct ids as [|a ids]; [congruence|].
    unfold Bulk.post_items_bulk_update. rewrite E. reflexivity. }
  split; [exact Hc'|]. split.
  - intros id r Hid Hr. apply getItemById_find in Hr.
    destruct Hr as [old [Hfind [-> _]]].
    exists (Database.select db' clk (moved l clk db old)).
    unfold Database.getItemById. rewrite (Hin id Hid), Hfind.
    split; [reflexivity|]. rewrite !select_item.
    pose proof (consistent_row db old Hc (proj1 (find_some _ _ Hfind)))
      as Hold.
    apply items_constraints_None in Hold. destruct Hold as (_ & _ & Hu & _).
    unfold moved, Database.update_values, Bulk.spread, Bulk.move_to.
    cbn [Item.location_id Item.title Item.unit Item.date_added
         Item.expiry_date Item.quantity Bulk.spread_property
         Bulk.u_location_id Bulk.u_unit Bulk.u_quantity Bulk.u_expiry_date
         Database.d_location_id Database.d_unit Database.d_quantity
         Database.d_expiry_date Database.item Database.select
         JS.numeric_or].
    split.
    { unfold JS.or_null, JS.truthy_int. apply Z.eqb_neq in Hl.
      now rewrite Hl. }
    split; [reflexivity|]. split; [now apply or_else_unit|].
    split; [reflexivity|]. split.
    { unfold JS.or_null, JS.truthy_date.
      now destruct (Item.expiry_date old). }
    split; [apply number_or_falsy | apply number_or_truthy].
  - intros id Hid. unfold Database.getItemById. rewrite (Hout id Hid).
    destruct (find _ (items db)); simpl; [|reflexivity].
    now rewrite (select_same_locations db db').
Qed.

Lemma bulk_move_rewrites_listed_items_witness :
  consistent Sample.store = true
  /\ exists db' r',
       Bulk.post_items_bulk_update (Some [3; 9]) (Some (Bulk.move_to 1))
         Sample.noon Sample.store
       = (Bulk.UpdatedCount 1, db')
       /\ Database.getItemById 3 db' Sample.noon = Some r'
       /\ Item.location_id (Database.item r') = Some 1
       /\ Item.quantity (Database.item r') = 1%Q.
Proof.
  split; [reflexivity|].
  assert (Hne : [3; 9] <> []) by discriminate.
  assert (Hnd : NoDup [3; 9]).
  { constructor; [simpl; intros [H|[]]; discriminate|].
    constructor; [simpl; tauto|constructor]. }
  assert (Hl : 1 <> 0) by discriminate.
  destruct (bulk_move_rewrites_listed_items [3; 9] 1 Sample.noon
              Sample.store Hne Hnd eq_refl Hl eq_refl)
    as [db' [H1 [_ [H2 _]]]].
  destruct (H2 3 (Database.select Sample.store Sample.noon Sample.empty_jar)
              (or_introl eq_refl) eq_refl)
    as [r' [G1 [G2 [_ [_ [_ [_ [G3 _]]]]]]]].
  exists db', r'. split; [exact H1|]. split; [exact G1|].
  split; [exact G2|]. apply G3. reflexivity.
Defined.

(** ** The location forms *)

Lemma find_location_map_same id (set : Location.t -> Location.t) rows :
  (forall l, Location.id (set l) = Location.id l) ->
  find (fun l => Location.id l =? id)
    (map (fun l => if Location.id l =? id then set l else l) rows)
  = option_map set (find (fun l => Location.id l =? id) rows).
Proof.
  intros Hid. induction rows as [|l rows IH]; simpl; [reflexivity|].
  destruct (Z.eqb_spec (Location.id l) id) as [E|E].
  - rewrite Hid, E, Z.eqb_refl. reflexivity.
  - apply Z.eqb_neq in E. rewrite E. exact IH.
Qed.

Lemma find_location_map_other id id' (set : Location.t -> Location.t) rows :
  id' <> id ->
  (forall l, Location.id (set l) = Location.id l) ->
  find (fun l => Location.id l =? id')
    (map (fun l => if Location.id l =? id then set l else l) rows)
  = find (fun l => Location.id l =? id') rows.
Proof.
  intros Hne Hid. induction rows as [|l rows IH]; simpl; [reflexivity|].
  destruct (Z.eqb_spec (Location.id l) id) as [E|E].
  - rewrite Hid. destruct (Z.eqb_spec (Location.id l) id'); [congruence|].
    exact IH.
  - destruct (Location.id l =? id'); [reflexivity|exact IH].
Qed.

Lemma or_else_nonempty s d :
  s <> ""%string -> JS.or_else JS.truthy_string (Some s) d = s.
Proof.
  intros H. unfold JS.or_else, JS.truthy_string.
  destruct (String.eqb_spec s ""); [contradiction|reflexivity].
Qed.

(** X26. [POST /locations/update/:id] for a stored location of a sound
    store, with a type that is admissible when one is submitted: the
    request succeeds and changes no other location and no item.  The
    location is read back with each field that was not submitted as it
    was: the name and the type always, the icon and the colour when they
    were set, the visibility and the sort order when they were not
    [NULL]. *)
Theorem location_update_keeps_missing_fields :
  forall json id body db old,
    locations_sound db = true ->
    Locations.getLocationById id db = Some old ->
    Database.mem_string
      (JS.or_else JS.truthy_string (LocationRoutes.type body)
         (Location.type old))
      LocationWrites.types = true ->
    exists db' new,
      LocationRoutes.post_locations_update json id body db
      = (LocationRoutes.answer json 200 true "Location updated successfully"
           None, db')
      /\ Locations.getLocationById id db' = Some new
      /\ (LocationRoutes.name body = None ->
          Location.name new = Location.name old)
      /\ (LocationRoutes.type body = None ->
          Location.type new = Location.type old)
      /\ (LocationRoutes.icon body = None ->
          forall s, Location.icon old = Some s -> s <> ""%string ->
                    Location.icon new = Some s)
      /\ (LocationRoutes.color body = None ->
          forall s, Location.color old = Some s -> s <> ""%string ->
                    Location.color new = Some s)
      /\ (LocationRoutes.is_visible body = None ->
          forall v, Location.is_visible old = Some v ->
                    Location.is_visible new = Some v)
      /\ (LocationRoutes.sort_order body = None ->
          forall s, Location.sort_order old = Some s ->
                    Location.sort_order new = Some s)
      /\ (forall id', id' <> id ->
            Locations.getLocationById id' db'
            = Locations.getLocationById id' db)
      /\ items db' = items db.
Proof.
  intros json id body db old Hs Hold Htype.
  unfold LocationRoutes.post_locations_update. rewrite Hold.
  unfold LocationWrites.updateLocation, LocationRoutes.locationData.
  cbn [LocationWrites.l_name LocationWrites.l_type LocationWrites.l_icon
       LocationWrites.l_color LocationWrites.l_sort_order
       LocationWrites.l_is_visible].
  set (ty := JS.or_else JS.truthy_string (LocationRoutes.type body)
               (Location.type old)) in *.
  assert (Hty : JS.or_else JS.truthy_string (Some ty) "other" = ty).
  { unfold JS.or_else, JS.truthy_string.
    destruct (String.eqb_spec ty ""); [|reflexivity].
    rewrite e in Htype. discriminate Htype. }
  rewrite Hty.
  unfold LocationWrites.run_update_locations.
  rewrite update_locations_returns.
  2:{ intros l _. unfold LocationWrites.locations_constraints.
      cbn [Location.type Location.is_visible]. rewrite Htype. simpl.
      now destruct (match LocationRoutes.is_visible body with
                    | Some _ => _ | None => _ end). }
  eexists. eexists. split; [reflexivity|].
  unfold Locations.getLocationById in *. cbn [locations items].
  rewrite find_location_map_same by reflexivity. rewrite Hold.
  split; [reflexivity|]. cbn [option_map Location.name Location.type
    Location.icon Location.color Location.is_visible Location.sort_order].
  split; [now intros ->|]. split; [subst ty; now intros ->|].
  split.
  { intros -> s Hi Hne. rewrite Hi. unfold LocationRoutes.or_existing.
    cbn [JS.or_null]. now rewrite or_else_nonempty. }
  split.
  { intros -> s Hi Hne. rewrite Hi. unfold LocationRoutes.or_existing.
    cbn [JS.or_null]. now rewrite or_else_nonempty. }
  split.
  { intros -> v Hv. rewrite Hv.
    rewrite locations_sound_iff in Hs.
    pose proof (Hs old (proj1 (find_some _ _ Hold))) as Hc.
    unfold LocationWrites.locations_constraints in Hc. rewrite Hv in Hc.
    destruct (negb (Database.mem_string (Location.type old)
                      LocationWrites.types)); [discriminate|].
    destruct (Z.eqb_spec v 0) as [->|H0]; [reflexivity|].
    destruct (Z.eqb_spec v 1) as [->|H1]; [reflexivity|discriminate]. }
  split.
  { intros -> s Hi. rewrite Hi. now rewrite or_else_truthy_int_0. }
  split; [|reflexivity].
  intros id' Hne. now apply find_location_map_other.
Qed.

Lemma location_update_keeps_missing_fields_witness :
  locations_sound SampleLocations.house = true
  /\ exists db' new,
       LocationRoutes.post_locations_update true 2
         (LocationRoutes.rename "Wine cellar") SampleLocations.house
       = (LocationRoutes.Json 200 true "Location updated successfully", db')
       /\ Locations.getLocationById 2 db' = Some new
       /\ Location.sort_order new = Some 2
       /\ Location.is_visible new = Some 0.
Proof.
  split; [reflexivity|].
  destruct (location_update_keeps_missing_fields true 2
              (LocationRoutes.rename "Wine cellar") SampleLocations.house
              SampleLocations.cellar eq_refl eq_refl eq_refl)
    as [db' [new [H1 [H2 [_ [_ [_ [_ [H3 [H4 _]]]]]]]]]].
  exists db', new. split; [exact H1|]. split; [exact H2|]. split.
  - exact (H4 eq_refl 2 eq_refl).
  - exact (H3 eq_refl 0 eq_refl).
Defined.

(** ** The edit form *)

(** X27. [POST /items/update/:id] for a stored item, with a title and
    admissible values: the request succeeds and the item is read back with
    the submitted title.  What the form leaves out is kept: without an
    uploaded picture the item keeps its picture, without a date it keeps
    the date it was added; the creation time is never changed.  No other
    item and no consumption record is touched.  For an id that is not
    stored, or after a failed upload, nothing is written. *)
Theorem update_form_keeps_picture_and_date :
  forall id body clk db,
    (forall upload_error,
       upload_error = true \/ Database.getItemById id db clk = None ->
       snd (UpdateRoute.post_items_update upload_error id body clk db) = db)
    /\ (forall r title,
          Database.getItemById id db clk = Some r ->
          Routes.title body = Some title ->
          acceptable db (UpdateRoute.itemData body r) = true ->
          exists db' r',
            UpdateRoute.post_items_update false id body clk db
            = (UpdateRoute.RedirectItem id, db')
            /\ Database.getItemById id db' clk = Some r'
            /\ Item.title (Database.item r') = title
            /\ (Routes.file body = None ->
                Item.image_path (Database.item r')
                = Item.image_path (Database.item r))
            /\ (Routes.date_added body = None ->
                Item.date_added (Database.item r')
                = Item.date_added (Database.item r))
            /\ Item.created_at (Database.item r')
               = Item.created_at (Database.item r)
            /\ (forall id', id' <> id ->
                  Database.getItemById id' db' clk
                  = Database.getItemById id' db clk)
            /\ consumption_history db' = consumption_history db).
Proof.
  intros id body clk db. split.
  - intros upload_error [->|H]; [reflexivity|].
    unfold UpdateRoute.post_items_update. rewrite H.
    now destruct upload_error.
  - intros r title Hr Ht Hacc.
    unfold UpdateRoute.post_items_update. rewrite Hr.
    apply getItemById_find in Hr. destruct Hr as [old [Hfind [-> _]]].
    unfold Database.updateItem, Database.run_update.
    cbn [UpdateRoute.itemData Database.d_title Database.d_date_added].
    rewrite Ht.
    rewrite update_rows_count
      by (intros x _ _; now apply update_values_constraints).
    eexists. eexists. split; [reflexivity|].
    unfold Database.getItemById. cbn [items consumption_history].
    rewrite find_map_same_id by reflexivity. rewrite Hfind.
    split; [reflexivity|]. rewrite !select_item.
    split; [reflexivity|]. split.
    { intros Hf. cbn [Database.update_values Item.image_path
                      Database.d_image_path UpdateRoute.itemData].
      now rewrite Hf. }
    split.
    { intros Hd. cbn [Database.update_values Item.date_added]. now rewrite Hd. }
    split; [reflexivity|]. split; [|reflexivity].
    intros id' Hne. rewrite find_map_other_id by (auto; reflexivity).
    destruct (find _ (items db)); reflexivity.
Qed.

Lemma update_form_keeps_picture_and_date_witness :
  exists db' r',
    UpdateRoute.post_items_update false 1 (UpdateRoute.retitle "Chicken legs")
      Sample.noon Sample.store
    = (UpdateRoute.RedirectItem 1, db')
    /\ Database.getItemById 1 db' Sample.noon = Some r'
    /\ Item.title (Database.item r') = "Chicken legs"
    /\ Item.date_added (Database.item r') = 20000.
Proof.
  destruct (proj2 (update_form_keeps_picture_and_date 1
                     (UpdateRoute.retitle "Chicken legs") Sample.noon
                     Sample.store)
              (Database.select Sample.store Sample.noon Sample.chicken)
              "Chicken legs" eq_refl eq_refl eq_refl)
    as [db' [r' [H1 [H2 [H3 [_ [H4 _]]]]]]].
  exists db', r'. split; [exact H1|]. split; [exact H2|].
  split; [exact H3|]. exact (H4 eq_refl).
Defined.
